(* ===== verification/_CoqProject ===== *)
-Q . S2P
Prelude.v
JsObject.v
NumberString.v
Sha256.v
Utf8.v
Hasher.v
Json.v
Validator.v
Uri.v
Form.v
Store.v
Express.v
Server.v
Session.v
