(* ===== verification/Prelude.v ===== *)
(** * A verification development for the proj4 Express server (src/src/index.js)

    The program is a single Node.js file, [src/src/index.js], an Express
    application with a user registry kept in a JavaScript object [db] that is
    loaded from [db/database.json] at start-up and rewritten in full after
    every successful insertion.  Its parts, leaves first:

    - the JavaScript values it manipulates: UTF-16 strings, [undefined],
      arrays of strings, [toString], truthiness, [===], and the object [db]
      with its prototype chain ([Prelude], [JsObject]);
    - the hasher [sha256] (lines 94-97), an HMAC-SHA-256 keyed by the salt,
      rendered as lowercase hex ([Hasher]); the HMAC itself is the Node
      [crypto] library, stated as an interface (the class [Hasher.HMAC])
      and implemented once from FIPS 180-4 and RFC 2104 ([Sha256]) so that
      concrete runs evaluate;
    - the salt, [Date.now().toString()] (line 126): a decimal rendering of a
      non-negative integer ([NumberString]);
    - the validator: the length test of lines 105-116 and
      [containsInvalidChars] (lines 87-89) ([Validator]);
    - [encodeURIComponent], used to build every error redirect, and
      [decodeURIComponent], with which [qs] decodes a form field ([Uri]);
    - the request body: body-parser's [urlencoded({extended: true})]
      middleware of line 66 (charset test, size and parameter limits, BOM)
      and [qs.parse] on flat keys (split on [&], [+] as a space,
      percent-decoding with its fallback, a repeated key collected into an
      array), with the browser's serializer of the registration form as
      its client ([Form]);
    - the database file: [JSON.stringify] and [JSON.parse] ([Json]), and
      the UTF-8 encoding of [writeFileSync] and decoding of
      [readFileSync] + [JSON.parse(buffer)] ([Utf8]);
    - the store: [writeDB], [getUser], [saveUser], [authUser] and the
      start-up load (lines 19-55) ([Store]);
    - the Express response object: [res.status], [res.send], [res.redirect],
      the "headers already sent" error and the default error handler, as a
      state-and-exception monad ([Express]);
    - the route handlers [GET /], [GET /users/:username], [POST /users],
      [POST /auth], [GET /index.html] (lines 69-177), the dispatch of a
      request, and the server as a transition system over requests
      ([Server]);
    - the session middleware of lines 59-63: express-session's signed
      [connect.sid] cookie (cookie-signature over the HMAC), the choice or
      generation of the session a request runs under, and [Set-Cookie]
      ([Session]).

    How the parts interact: body-parser turns the form into [req.body]
    ([Form.urlencoded]); a handler reads its fields, calls the
    validator, the hasher and the store, and answers through the response
    object.  The handlers do not [return] after an error redirect, so a
    failing request goes on running; the second [res.redirect] throws
    [ERR_HTTP_HEADERS_SENT], and a [TypeError] from [undefined.toString()]
    aborts a handler.  The model keeps that control flow as written: a
    handler is a computation in the monad [Express.M] over the server
    state, every effect on the store, the disk, the session and the
    response is one step of it, and an exception stops it.  What the
    client receives is decided by [Express.run]: the answer of a handler
    that returns; finalhandler's 500 for one that throws before
    answering; and nothing for one that throws after answering, because
    finalhandler destroys the socket at once while express-session
    (line 59) holds the end of the response until MemoryStore's deferred
    callback.

    Correspondence of state: [Store.db] is the object [db], a [gmap] from
    UTF-16 keys to user records ([Store.User] is the object literal of line
    126: [username], [name], [password], [date]); [Store.disk] is the content
    of [db/database.json], absent or a list of bytes: [writeDB] writes the
    UTF-8 bytes of [JSON.stringify(db)] ([Store.dump]) and start-up decodes
    and parses them ([Store.load]); [Express.St] adds the session of the
    requesting client and the response sent so far.

    What the theorems show, by group:
    - [Hasher]: the digest is 64 lowercase hex characters; hex encoding is
      injective and inverted by its decoder; [sha256] throws exactly when
      one of its arguments is [undefined].
    - [NumberString]: the rendering of [Date.now()] is the canonical
      decimal rendering (no leading zero) and parses back to the number.
    - [Validator]: exact characterisation of both checks (the length window
      4-49 on all three fields, and the character set [0-9A-Za-z_ ]), the
      boundary cases of the spec.
    - [Uri]: the fragment of an error redirect holds only unreserved
      characters and escapes, and [decodeURIComponent] reads the message
      back from it.
    - [Form]: any form a browser submits reaches the handlers field by
      field (undefined, the string, or the array of a repeated field); the
      registration form gives its three strings; the exact error answers
      of body-parser (415, 413).
    - [Utf8] and [Json]: UTF-8 encoding yields bytes, and the WHATWG
      decoder inverts it on well-formed strings; [JSON.parse] inverts
      [JSON.stringify] (escapes and lone surrogates included).
    - [Store]: [saveUser] never overwrites, writes through to the disk, and
      keeps the key of every record equal to its username; a file written
      by [writeDB] loads back as the same object (the spec's reload
      scenario); [saveUser] refines the spec's [create].
    - [Server]: the functional behaviour of each handler on every branch;
      the invariants of the running server (disk equals memory, records are
      never changed once stored, keys match usernames, stored passwords are
      64-character digests) by induction on the reachability relation;
      exactly which requests are answered ([Server.serve_answers]); and
      the behaviours where the code departs from its spec: a registration
      that fails validation gets no answer at all and may still be stored,
      an unknown username at login gets no answer, a duplicate
      registration is answered as a success, the names of
      [Object.prototype] look like registered users, a name with markup
      reaches the index page unescaped, and a password sent as four empty
      fields passes the length check and registers the three-character
      password ",,,".
    - [Session]: a cookie names a session exactly when it carries the
      server's signature of the id; a login's [Set-Cookie], sent back,
      shows the user's name.

    Bounds and fuel: only the JSON parser uses fuel, [length + 1] for a
    text of that length: every call reads at least one character, and
    [Json.parse_value_enough_fuel] shows that no larger fuel changes the
    result.  Strings are lists of UTF-16 code units ([Z] in [0, 65535]);
    the length test compares the number of code units, as JavaScript's
    [length] does; bytes are [Z] in [0, 255].  Theorems about the file
    assume strings of code units (every JavaScript string is one): the
    requests of [Server.reachable] carry such strings.  The salt is an
    integer of any size ([Date.now()] is below 8.64e15, far inside the
    range where [toString] writes plain decimal digits).

    Not modelled: JSON values other than strings, arrays and objects
    (numbers, [true], [false], [null]) never occur in a file the program
    writes; a file holding one loads as [{}] here, where JavaScript would
    make [db] that value; V8 writes the members of [db] in insertion order
    and [Json] in the order of [map_to_list], which [JSON.parse] into an
    object does not see; form keys with [qs]'s bracket syntax
    ([a[b]=c], [a[]=c]), which build nested objects and indexed arrays
    ([Form.qs_parse] gives [None] on them), and other content types of the
    body (the body is then [{}]); static file serving,
    [app.listen] and console logging; the parsing of the [Cookie] header
    (a request carries the decoded value of [connect.sid]), the SHA-1
    comparison inside [unsign] (modelled as equality of the strings), and
    MemoryStore's JSON text of a session (its only field, [name], is a
    string, an array of strings or absent); concurrent requests (requests
    are served one after the other); the HTML body Express writes for a
    redirect (a redirect is its status and target); a failing
    [writeFileSync] (line 33): disk writes always succeed here, where a
    failed write would leave [db] ahead of the file and answer 500; a
    freshly generated session id that already names a stored session
    (express-session's 24 random bytes make it negligible) runs on that
    session here; the partial bytes a destroyed socket may have sent (no
    answer is modelled as none).

    This file: the notations, the JavaScript string model, the exceptions
    the program can raise, the development's tactics and hint databases,
    the generic lemmas on lists the components share, and the lemmas that
    turn bit operations into arithmetic ([bits_to_arith]). *)

From stdpp Require Import base gmap list.
From Stdlib Require Import ZArith Ascii.
From Stdlib Require String.
Export String.StringSyntax.
Bind Scope string_scope with String.string.

Declare Scope js_scope.
Delimit Scope js_scope with js.
Open Scope Z_scope.

(** A JavaScript string is its sequence of UTF-16 code units. *)
Abbreviation jsstr := (list Z).

(** A JavaScript value as the program meets it in a request field, a
    property read or a session: [undefined], a string, or an array of
    strings (body-parser's [qs] turns a form key given more than once into
    the array of its values). *)
Inductive jsval :=
  | VUndef
  | VStr (s : jsstr)
  | VArr (l : list jsstr).

#[export] Instance jsval_eq_dec : EqDecision jsval.
Proof. solve_decision. Defined.

(** The exceptions the program can raise: a [TypeError] from reading a
    method of [undefined], Node's [ERR_HTTP_HEADERS_SENT] from answering a
    second time, and [URIError] from [encodeURIComponent]. *)
Inductive exn := TypeError | HeadersSent | URIError.

#[export] Instance exn_eq_dec : EqDecision exn.
Proof. solve_decision. Defined.

(** A computation that returns a value or throws. *)
Definition res_map {A B} (f : A -> B) (r : exn + A) : exn + B :=
  match r with inl e => inl e | inr a => inr (f a) end.

Lemma res_map_res_map {A B C} (f : B -> C) (g : A -> B) r :
  res_map f (res_map g r) = res_map (fun a => f (g a)) r.
Proof. by destruct r. Qed.

Lemma res_map_id {A} (r : exn + A) : res_map (fun a => a) r = r.
Proof. by destruct r. Qed.

(** A string literal of the source, as its code units (ASCII only). *)
Definition js (s : String.string) : jsstr :=
  map (fun a => Z.of_nat (nat_of_ascii a)) (String.list_ascii_of_string s).

(** A literal stays folded under [simpl]; [vm_compute] still evaluates it. *)
Arguments js : simpl never.

(** The strings joined with a one-unit separator between them: the
    [join] of [Array.prototype.join] and of [SerializeJSONObject]. *)
Fixpoint join_with (sep : Z) (l : list jsstr) : jsstr :=
  match l with
  | [] => []
  | [x] => x
  | x :: r => x ++ sep :: join_with sep r
  end.

(** [String(v)]: [undefined] renders as the string "undefined", an array
    as its elements joined by commas ([Array.prototype.toString]). *)
Definition to_js_string (v : jsval) : jsstr :=
  match v with
  | VUndef => js "undefined"
  | VStr s => s
  | VArr l => join_with 44 l
  end.

(** [v.toString()]: the method of [String.prototype] or
    [Array.prototype]; reading it on [undefined] throws. *)
Definition js_toString (v : jsval) : exn + jsstr :=
  match v with
  | VUndef => inl TypeError
  | VStr s => inr s
  | VArr l => inr (join_with 44 l)
  end.

(** Truthiness: the empty string and [undefined] are falsy, an array is
    an object and truthy. *)
Definition truthy_val (v : jsval) : bool :=
  match v with
  | VStr (_ :: _) | VArr _ => true
  | _ => false
  end.

(** Strict equality [===]: strings by content; an array is an object,
    equal only to itself, and no array of the program is compared with
    itself. *)
Definition strict_eqb (a b : jsval) : bool :=
  match a, b with
  | VUndef, VUndef => true
  | VStr x, VStr y => bool_decide (x = y)
  | _, _ => false
  end.

(** A code unit or byte lies in [0, 2^w). *)
Definition in_width (w : Z) (z : Z) : Prop := 0 <= z < 2 ^ w.
#[export] Instance in_width_dec w z : Decision (in_width w z).
Proof. unfold in_width. apply _. Defined.

Definition is_byte : Z -> Prop := in_width 8.
Definition is_code_unit : Z -> Prop := in_width 16.

Create HintDb proj4 discriminated.
Hint Constants Transparent : proj4.
Create Rewrite HintDb proj4_rw.
Create Rewrite HintDb bits_rw.

(** The development's tactics. *)
Ltac invc H := inversion H; subst; clear H.
Ltac decide_all := repeat (case_decide || case_bool_decide); simplify_eq; try done.

(** ** Generic lemmas *)

Lemma js_app (s1 s2 : String.string) : js (String.append s1 s2) = js s1 ++ js s2.
Proof. induction s1; simpl; [done|]. unfold js in *. simpl. by rewrite IHs1. Qed.

Lemma js_length (s : String.string) : length (js s) = String.length s.
Proof. induction s; simpl; [done|]. unfold js in *. simpl. by rewrite IHs. Qed.

Lemma js_code_units (s : String.string) : Forall is_code_unit (js s).
Proof.
  induction s as [|a s IH]; simpl; constructor; [|exact IH].
  pose proof (nat_ascii_bounded a). unfold is_code_unit, in_width. simpl. lia.
Qed.

Lemma to_js_string_str s : to_js_string (VStr s) = s.
Proof. done. Qed.

Lemma strict_eqb_str a b : strict_eqb (VStr a) (VStr b) = true <-> a = b.
Proof. apply bool_decide_eq_true. Qed.

Lemma Forall_app_iff {A} (P : A -> Prop) l1 l2 :
  Forall P (l1 ++ l2) <-> Forall P l1 /\ Forall P l2.
Proof. apply Forall_app. Qed.

Lemma Forall_flat_map {A B} (P : B -> Prop) (f : A -> list B) l :
  (forall x, x ∈ l -> Forall P (f x)) -> Forall P (flat_map f l).
Proof.
  induction l as [|x l IH]; intros H; simpl; [constructor|].
  apply Forall_app; split; [apply H; left | apply IH; intros y Hy; apply H; by right].
Qed.

Lemma length_flat_map_const {A B} (f : A -> list B) (n : nat) l :
  (forall x, length (f x) = n) ->
  length (flat_map f l) = (n * length l)%nat.
Proof.
  intros H. induction l as [|x l IH]; simpl; [lia|].
  rewrite length_app, H, IH. lia.
Qed.

Lemma Forall_join_with (P : Z -> Prop) sep (l : list jsstr) :
  P sep -> Forall (Forall P) l -> Forall P (join_with sep l).
Proof.
  intros Hs. induction 1 as [|x l Hx Hl IH]; [constructor|].
  destruct l as [|y l]; [done|]. apply Forall_app. split; [done|]. by constructor.
Qed.

(** A property of bytes is checked by evaluating it on all 256 of them. *)
Lemma forall_bytes (P : Z -> Prop) `{forall b, Decision (P b)} :
  bool_decide (Forall P (map Z.of_nat (seq 0 256))) = true -> forall b, is_byte b -> P b.
Proof.
  intros Hall b Hb. apply bool_decide_eq_true in Hall. rewrite Forall_forall in Hall.
  unfold is_byte, in_width in Hb. replace b with (Z.of_nat (Z.to_nat b)) by lia.
  apply Hall, list_elem_of_In, in_map, in_seq. simpl in Hb. lia.
Qed.

#[export] Hint Resolve js_code_units : proj4.
#[export] Hint Rewrite js_app js_length to_js_string_str : proj4_rw.

(** ** Bit operations as arithmetic

    The encoders of the development build bytes with [Z.lor], [Z.land],
    [Z.shiftl] and [Z.shiftr]; on disjoint bit ranges these are sums,
    remainders and quotients, which [lia] reasons about. *)

Lemma lor_low a b k : 0 <= k -> a mod 2 ^ k = 0 -> 0 <= b < 2 ^ k -> Z.lor a b = a + b.
Proof.
  intros Hk Ha Hb.
  assert (H0 : Z.land a b = 0).
  { rewrite <- (Z.mod_small b (2 ^ k)), <- (Z.land_ones b) by lia.
    rewrite (Z.land_comm b), Z.land_assoc, Z.land_ones, Ha by lia. apply Z.land_0_l. }
  rewrite <- Z.lxor_lor by done. by rewrite Z.add_nocarry_lxor.
Qed.

Lemma land_mask x k : 0 <= k -> Z.land x (Z.ones k) = x mod 2 ^ k.
Proof. apply Z.land_ones. Qed.

Lemma land_63 x : Z.land x 63 = x mod 64.
Proof. exact (land_mask x 6 ltac:(lia)). Qed.
Lemma land_31 x : Z.land x 31 = x mod 32.
Proof. exact (land_mask x 5 ltac:(lia)). Qed.
Lemma land_15 x : Z.land x 15 = x mod 16.
Proof. exact (land_mask x 4 ltac:(lia)). Qed.
Lemma land_7 x : Z.land x 7 = x mod 8.
Proof. exact (land_mask x 3 ltac:(lia)). Qed.
Lemma land_255 x : Z.land x 255 = x mod 256.
Proof. exact (land_mask x 8 ltac:(lia)). Qed.
Lemma land_1023 x : Z.land x 1023 = x mod 1024.
Proof. exact (land_mask x 10 ltac:(lia)). Qed.

Lemma shiftr_div x k : 0 <= k -> Z.shiftr x k = x / 2 ^ k.
Proof. apply Z.shiftr_div_pow2. Qed.

Lemma shiftl_mul x k : 0 <= k -> Z.shiftl x k = x * 2 ^ k.
Proof. apply Z.shiftl_mul_pow2. Qed.

Lemma land_255_byte x : is_byte (Z.land x 255).
Proof. rewrite land_255. unfold is_byte, in_width. pose proof (Z.mod_pos_bound x 256). lia. Qed.

#[export] Hint Rewrite land_63 land_31 land_15 land_7 land_255 land_1023 : bits_rw.

(** Turn the bit operations of a goal into arithmetic: masks become
    remainders, shifts products and quotients, and an [or] of disjoint
    ranges (tried at the widths the encoders use) a sum. *)
Ltac bits_to_arith :=
  autorewrite with bits_rw;
  repeat (first [rewrite shiftr_div by lia | rewrite shiftl_mul by lia]);
  repeat match goal with
  | |- context [2 ^ ?k] => let v := eval vm_compute in (2 ^ k) in change (2 ^ k) with v
  end;
  repeat match goal with
  | |- context [Z.lor ?a ?b] =>
      first [ rewrite (lor_low a b 6) by (Z.div_mod_to_equations; lia)
            | rewrite (lor_low a b 5) by (Z.div_mod_to_equations; lia)
            | rewrite (lor_low a b 4) by (Z.div_mod_to_equations; lia)
            | rewrite (lor_low a b 3) by (Z.div_mod_to_equations; lia) ]
  end.
