(* ===== verification/JsObject.v ===== *)
(** * The JavaScript object used as a dictionary

    [db] in src/src/index.js is a plain object literal ([db = {}], line 25,
    or the result of [JSON.parse], line 22).  Reading [db[k]] finds an own
    property first and then follows the prototype chain to
    [Object.prototype], whose twelve properties (methods such as
    [toString] and [constructor], and the accessor [__proto__]) are all
    truthy.  This file models that lookup, the conversion of a property key
    ([db[undefined]] reads the key "undefined"), and own-property
    assignment. *)

From stdpp Require Import base gmap list.
From Stdlib Require Import ZArith.
From S2P Require Import Prelude.

Module JsObject.

(** The own properties of [Object.prototype] in Node.js (V8). *)
Definition proto_keys : list jsstr :=
  [js "constructor";
   js "__defineGetter__";
   js "__defineSetter__";
   js "hasOwnProperty";
   js "__lookupGetter__";
   js "__lookupSetter__";
   js "isPrototypeOf";
   js "propertyIsEnumerable";
   js "toString";
   js "valueOf";
   js "__proto__";
   js "toLocaleString"].

Definition is_proto_key (k : jsstr) : bool := bool_decide (k ∈ proto_keys).

(** The result of [o[k]]: an own property, a property inherited from
    [Object.prototype] (named by its key), or [undefined]. *)
Inductive slot (V : Type) := Own (v : V) | Inherited (k : jsstr) | Absent.
Arguments Own {V} v.
Arguments Inherited {V} k.
Arguments Absent {V}.

(** [o[k]] on an object whose own properties are [o]. *)
Definition get {V} (o : gmap jsstr V) (k : jsstr) : slot V :=
  match o !! k with
  | Some v => Own v
  | None => if is_proto_key k then Inherited k else Absent
  end.

(** The own properties are objects, hence truthy; so is every property of
    [Object.prototype]; [undefined] is falsy. *)
Definition slot_truthy {V} (s : slot V) : bool :=
  match s with
  | Own _ | Inherited _ => true
  | Absent => false
  end.

(** [ToPropertyKey] of a value: its [String], so an array is the key of
    its elements joined by commas. *)
Definition to_key (v : jsval) : jsstr := to_js_string v.

(** [o[k] = v] for a key that is not the accessor [__proto__]: creates or
    replaces the own property. *)
Definition set {V} (o : gmap jsstr V) (k : jsstr) (v : V) : gmap jsstr V :=
  <[k := v]> o.

(** The [name] property of an inherited value: a method's name is its key;
    [constructor] is the function [Object]; [__proto__] reads
    [Object.prototype] itself, which has no [name]. *)
Definition inherited_name (k : jsstr) : jsval :=
  if bool_decide (k = js "constructor") then VStr (js "Object")
  else if bool_decide (k = js "__proto__") then VUndef
  else VStr k.

(** ** Lemmas *)

Lemma get_own {V} (o : gmap jsstr V) k v : o !! k = Some v -> get o k = Own v.
Proof. unfold get. by intros ->. Qed.

Lemma get_absent {V} (o : gmap jsstr V) k :
  o !! k = None -> is_proto_key k = false -> get o k = Absent.
Proof. unfold get. by intros -> ->. Qed.

Lemma get_inherited {V} (o : gmap jsstr V) k :
  o !! k = None -> is_proto_key k = true -> get o k = Inherited k.
Proof. unfold get. by intros -> ->. Qed.

Lemma slot_truthy_get {V} (o : gmap jsstr V) k :
  slot_truthy (get o k) = true <-> is_Some (o !! k) \/ is_proto_key k = true.
Proof.
  unfold get. destruct (o !! k); simpl; [naive_solver|].
  destruct (is_proto_key k); simpl; split; intros; try done; [by right|].
  destruct H as [[? ?]|?]; done.
Qed.

Lemma get_set_eq {V} (o : gmap jsstr V) k v : get (set o k v) k = Own v.
Proof. unfold get, set. by rewrite lookup_insert_eq. Qed.

Lemma get_set_ne {V} (o : gmap jsstr V) k k' v :
  k <> k' -> get (set o k v) k' = get o k'.
Proof. intros. unfold get, set. by rewrite lookup_insert_ne. Qed.

Lemma to_key_str s : to_key (VStr s) = s.
Proof. done. Qed.

Lemma is_proto_key_spec k : is_proto_key k = true <-> k ∈ proto_keys.
Proof. unfold is_proto_key. apply bool_decide_eq_true. Qed.

End JsObject.

#[export] Hint Resolve JsObject.get_own JsObject.get_absent JsObject.get_inherited : proj4.
#[export] Hint Rewrite @JsObject.get_set_eq JsObject.to_key_str : proj4_rw.
