(* ===== verification/NumberString.v ===== *)
(** * [Number.prototype.toString] on an integer: the salt

    Line 126 of src/src/index.js takes [Date.now().toString()] as the salt
    of a new user.  [Date.now()] is an integer number of milliseconds whose
    magnitude is at most 8.64e15 (the range of an ECMAScript time value),
    far below 1e21, so [toString] renders it as an optional minus sign and
    its decimal digits, with no leading zero.  This file models that
    rendering, through the Standard Library's decimal representation of
    [Z], and a parser that inverts it. *)

From stdpp Require Import base list.
From Stdlib Require Import ZArith Decimal DecimalZ DecimalPos DecimalFacts.
From S2P Require Import Prelude.

Module NumberString.

(** The code units of a decimal digit sequence. *)
Fixpoint uint_digits (u : Decimal.uint) : jsstr :=
  match u with
  | Nil => []
  | D0 u => 48 :: uint_digits u | D1 u => 49 :: uint_digits u
  | D2 u => 50 :: uint_digits u | D3 u => 51 :: uint_digits u
  | D4 u => 52 :: uint_digits u | D5 u => 53 :: uint_digits u
  | D6 u => 54 :: uint_digits u | D7 u => 55 :: uint_digits u
  | D8 u => 56 :: uint_digits u | D9 u => 57 :: uint_digits u
  end.

(** [Number::toString(x)] for an integer [x] with [|x| < 10^21]. *)
Definition number_to_string (z : Z) : jsstr :=
  match Z.to_int z with
  | Pos u => uint_digits u
  | Neg u => 45 :: uint_digits u
  end.

(** The salt of a user registered at time [now]. *)
Definition date_now_string (now : Z) : jsstr := number_to_string now.

(** The inverse: a digit sequence back to its [uint]. *)
Fixpoint parse_uint (s : jsstr) : option Decimal.uint :=
  match s with
  | [] => Some Nil
  | c :: r =>
      u ← parse_uint r;
      if decide (c = 48) then Some (D0 u) else if decide (c = 49) then Some (D1 u)
      else if decide (c = 50) then Some (D2 u) else if decide (c = 51) then Some (D3 u)
      else if decide (c = 52) then Some (D4 u) else if decide (c = 53) then Some (D5 u)
      else if decide (c = 54) then Some (D6 u) else if decide (c = 55) then Some (D7 u)
      else if decide (c = 56) then Some (D8 u) else if decide (c = 57) then Some (D9 u)
      else None
  end.

Definition parse_number (s : jsstr) : option Z :=
  match s with
  | c :: r =>
      if decide (c = 45) then u ← parse_uint r; Some (Z.of_int (Neg u))
      else u ← parse_uint s; Some (Z.of_int (Pos u))
  | [] => Some 0
  end.

Definition is_digit (c : Z) : Prop := 48 <= c <= 57.

(** ** Lemmas *)

Lemma parse_uint_digits u : parse_uint (uint_digits u) = Some u.
Proof. induction u; simpl; rewrite ?IHu; simpl; done. Qed.

Lemma uint_digits_digits u : Forall is_digit (uint_digits u).
Proof. induction u; simpl; constructor; try done; unfold is_digit; lia. Qed.

Lemma uint_digits_head u : u <> Nil -> exists c r, uint_digits u = c :: r /\ is_digit c.
Proof.
  intros Hu. destruct u; try done; simpl; eexists _, _; split; [done| |done| |done| |done| |
    done| |done| |done| |done| |done| |done|]; unfold is_digit; lia.
Qed.

Lemma to_int_nonnil z : match Z.to_int z with Pos u | Neg u => u <> Nil end.
Proof. destruct z; simpl; [done| |]; apply Unsigned.to_uint_nonnil. Qed.

(** Every rendering is a string of code units. *)
Lemma number_to_string_units z : Forall is_code_unit (number_to_string z).
Proof.
  assert (Hd : forall u, Forall is_code_unit (uint_digits u)).
  { intros u. eapply Forall_impl; [apply uint_digits_digits|].
    unfold is_digit, is_code_unit, in_width. simpl. lia. }
  unfold number_to_string. destruct (Z.to_int z); [done|].
  constructor; [unfold is_code_unit, in_width; simpl; lia|done].
Qed.

Lemma nzhead_not_D0 d x : nzhead d <> D0 x.
Proof. induction d; simpl; try discriminate; auto. Qed.

(** The digits of a positive number do not start with a zero. *)
Lemma to_uint_no_leading_zero p u : Pos.to_uint p <> D0 u.
Proof.
  intros E. pose proof (DecimalPos.Unsigned.to_of (Pos.to_uint p)) as H.
  rewrite DecimalPos.Unsigned.of_to in H. change (N.to_uint (Npos p)) with (Pos.to_uint p) in H.
  rewrite E in H. unfold unorm in H. cbn [nzhead] in H.
  destruct (nzhead u) eqn:En; try discriminate H.
  - injection H as Hu. subst u. exact (DecimalPos.Unsigned.to_uint_nonzero p E).
  - by apply nzhead_not_D0 in En.
Qed.

(** The rendering parses back to the same number. *)
Lemma number_to_string_roundtrip z : parse_number (number_to_string z) = Some z.
Proof.
  unfold number_to_string. pose proof (of_to z) as Hz. pose proof (to_int_nonnil z) as Hn.
  destruct (Z.to_int z) as [u|u] eqn:E.
  - destruct (uint_digits_head u Hn) as (c & r & Hcr & Hc). unfold parse_number.
    rewrite Hcr, decide_False by (unfold is_digit in Hc; lia).
    rewrite <- Hcr, parse_uint_digits. exact (f_equal Some Hz).
  - simpl. rewrite parse_uint_digits. exact (f_equal Some Hz).
Qed.

(** ** Properties *)

(** C33: [Date.now().toString()], the salt, is the canonical decimal
    rendering of the number: it parses back to the number, it starts with
    a zero only when it is "0", and never has a zero after its minus
    sign. *)
Theorem number_to_string_canonical z :
  parse_number (number_to_string z) = Some z /\
  (forall r, number_to_string z = 48 :: r -> z = 0 /\ r = []) /\
  (forall r, number_to_string z <> 45 :: 48 :: r).
Proof.
  split; [apply number_to_string_roundtrip|]. unfold number_to_string. split.
  - intros r. destruct z as [|p|p]; simpl; [by intros [= <-]| |discriminate].
    intros Eq. destruct (Pos.to_uint p) eqn:E; simpl in Eq; try discriminate Eq.
    exfalso. exact (to_uint_no_leading_zero p _ E).
  - intros r. destruct z as [|p|p]; simpl; try discriminate; intros Eq;
      destruct (Pos.to_uint p) eqn:E; simpl in Eq; try discriminate Eq.
    exact (to_uint_no_leading_zero p _ E).
Qed.

(** A salt taken at a non-negative time is a non-empty string of decimal
    digits. *)
Theorem date_now_string_digits now :
  0 <= now -> date_now_string now <> [] /\ Forall is_digit (date_now_string now).
Proof.
  intros Hnow. unfold date_now_string, number_to_string. pose proof (to_int_nonnil now) as Hn.
  destruct now as [|p|p]; simpl in *; try lia.
  - split; [done|]. repeat constructor; unfold is_digit; lia.
  - split; [|apply uint_digits_digits].
    destruct (uint_digits_head _ Hn) as (c & r & -> & _). done.
Qed.

(** ** Concrete runs *)

Lemma date_now_string_digits_witness :
  0 <= 1731000000123 /\
  date_now_string 1731000000123 <> [] /\ Forall is_digit (date_now_string 1731000000123) /\
  date_now_string 1731000000123 = js "1731000000123".
Proof.
  assert (H : 0 <= 1731000000123) by lia.
  exact (conj H (conj (proj1 (date_now_string_digits _ H))
    (conj (proj2 (date_now_string_digits _ H)) eq_refl))).
Defined.

End NumberString.
