(* ===== verification/Sha256.v ===== *)
(** * SHA-256 and HMAC-SHA-256 (the Node.js crypto primitive)

    [sha256] in src/src/index.js (lines 94-97) calls
    [crypto.createHmac('sha256', key).update(msg).digest(..)]: the primitive
    is Node's OpenSSL binding, not code of the repository.  This file gives
    it an executable definition from its standards (FIPS 180-4 for the hash,
    RFC 2104 for the MAC, block size 64 bytes), so that the handlers can be
    run on concrete requests; [Hasher] states the interface the rest of the
    development relies on and instantiates it with this definition.  Words
    are [Z] values in [0, 2^32) and every addition is reduced modulo 2^32. *)

From stdpp Require Import base list.
From Stdlib Require Import ZArith.
From S2P Require Import Prelude.

Module Sha256.

Definition w32 (x : Z) : Z := Z.land x (Z.ones 32).
Definition add32 (x y : Z) : Z := w32 (x + y).
Definition rotr (n x : Z) : Z := Z.lor (Z.shiftr x n) (w32 (Z.shiftl x (32 - n))).
Definition not32 (x : Z) : Z := Z.lxor x (Z.ones 32).

Definition Ch (x y z : Z) : Z := Z.lxor (Z.land x y) (Z.land (not32 x) z).
Definition Maj (x y z : Z) : Z := Z.lxor (Z.lxor (Z.land x y) (Z.land x z)) (Z.land y z).
Definition Sigma0 (x : Z) : Z := Z.lxor (Z.lxor (rotr 2 x) (rotr 13 x)) (rotr 22 x).
Definition Sigma1 (x : Z) : Z := Z.lxor (Z.lxor (rotr 6 x) (rotr 11 x)) (rotr 25 x).
Definition sigma0 (x : Z) : Z := Z.lxor (Z.lxor (rotr 7 x) (rotr 18 x)) (Z.shiftr x 3).
Definition sigma1 (x : Z) : Z := Z.lxor (Z.lxor (rotr 17 x) (rotr 19 x)) (Z.shiftr x 10).

(** The constants are the first 32 bits of the fractional parts of the
    cube roots (for [K]) and square roots (for [H0]) of the first primes
    (FIPS 180-4, 4.2.2 and 5.3.3), computed here with integer roots. *)
Definition first_primes : list Z :=
  [2; 3; 5; 7; 11; 13; 17; 19; 23; 29; 31; 37; 41; 43; 47; 53; 59; 61; 67; 71; 73; 79; 83;
   89; 97; 101; 103; 107; 109; 113; 127; 131; 137; 139; 149; 151; 157; 163; 167; 173; 179;
   181; 191; 193; 197; 199; 211; 223; 227; 229; 233; 239; 241; 251; 257; 263; 269; 271; 277;
   281; 283; 293; 307; 311].

(** Integer cube root, bit by bit from 2^41 down: exact for [n < 2^123]. *)
Definition cbrt_step (n r : Z) (i : nat) : Z :=
  let c := r + 2 ^ Z.of_nat i in if c * c * c <=? n then c else r.
Definition icbrt (n : Z) : Z := fold_left (cbrt_step n) (rev (seq 0 42)) 0.

Definition K : list Z := map (fun p => w32 (icbrt (p * 2 ^ 96))) first_primes.

(** The eight working variables [a .. h]. *)
Record regs := Regs { ra : Z; rb : Z; rc : Z; rd : Z; re : Z; rf : Z; rg : Z; rh : Z }.

Definition sqrt_frac (p : Z) : Z := w32 (Z.sqrt (p * 2 ^ 64)).

Definition H0 : regs :=
  Regs (sqrt_frac 2) (sqrt_frac 3) (sqrt_frac 5) (sqrt_frac 7)
       (sqrt_frac 11) (sqrt_frac 13) (sqrt_frac 17) (sqrt_frac 19).

(** Big-endian words of a block, and bytes of a word. *)
Fixpoint be_words (l : list Z) : list Z :=
  match l with
  | b0 :: b1 :: b2 :: b3 :: r =>
      Z.lor (Z.shiftl b0 24) (Z.lor (Z.shiftl b1 16) (Z.lor (Z.shiftl b2 8) b3)) :: be_words r
  | _ => []
  end.

Definition word_bytes (w : Z) : list Z :=
  [Z.land (Z.shiftr w 24) 255; Z.land (Z.shiftr w 16) 255;
   Z.land (Z.shiftr w 8) 255; Z.land w 255].

(** The message schedule: [ws] holds [W[t-1], W[t-2], ...], newest first. *)
Definition schedule_next (ws : list Z) : list Z :=
  add32 (add32 (sigma1 (nth 1 ws 0)) (nth 6 ws 0))
        (add32 (sigma0 (nth 14 ws 0)) (nth 15 ws 0)) :: ws.

Definition schedule (block : list Z) : list Z :=
  rev (Nat.iter 48 schedule_next (rev (be_words block))).

Definition round (r : regs) (kw : Z * Z) : regs :=
  let t1 := add32 (add32 (add32 (rh r) (Sigma1 (re r))) (add32 (Ch (re r) (rf r) (rg r)) kw.1)) kw.2 in
  let t2 := add32 (Sigma0 (ra r)) (Maj (ra r) (rb r) (rc r)) in
  Regs (add32 t1 t2) (ra r) (rb r) (rc r) (add32 (rd r) t1) (re r) (rf r) (rg r).

Definition compress (h : regs) (block : list Z) : regs :=
  let r := fold_left round (combine K (schedule block)) h in
  Regs (add32 (ra h) (ra r)) (add32 (rb h) (rb r)) (add32 (rc h) (rc r)) (add32 (rd h) (rd r))
       (add32 (re h) (re r)) (add32 (rf h) (rf r)) (add32 (rg h) (rg r)) (add32 (rh h) (rh r)).

(** Padding: a one bit, zeros, and the bit length as a 64-bit big-endian
    integer, to a multiple of 64 bytes. *)
Definition pad (msg : list Z) : list Z :=
  let n := length msg in
  let zeros := Z.to_nat ((55 - Z.of_nat n) mod 64) in
  let bits := 8 * Z.of_nat n in
  msg ++ [128] ++ replicate zeros 0 ++
  word_bytes (Z.shiftr bits 32) ++ word_bytes (w32 bits).

(** One compression per 64-byte block, in order. *)
Fixpoint blocks (count : nat) (h : regs) (l : list Z) : regs :=
  match count with
  | O => h
  | S c => blocks c (compress h (take 64 l)) (drop 64 l)
  end.

Definition digest (h : regs) : list Z :=
  word_bytes (ra h) ++ word_bytes (rb h) ++ word_bytes (rc h) ++ word_bytes (rd h) ++
  word_bytes (re h) ++ word_bytes (rf h) ++ word_bytes (rg h) ++ word_bytes (rh h).

Definition hash (msg : list Z) : list Z :=
  let p := pad msg in digest (blocks (length p / 64) H0 p).

(** HMAC (RFC 2104) over SHA-256: a key longer than a block is hashed
    first, then padded with zeros to 64 bytes. *)
Definition hmac (key msg : list Z) : list Z :=
  let k := if decide (64 < length key)%nat then hash key else key in
  let k0 := k ++ replicate (64 - length k) 0 in
  let ipad := map (Z.lxor 0x36) k0 in
  let opad := map (Z.lxor 0x5c) k0 in
  hash (opad ++ hash (ipad ++ msg)).

(** The constants agree with the tables of FIPS 180-4. *)
Example K_first_last : head K = Some 1116352408 /\ last K = Some 3329325298.
Proof. vm_compute. split; reflexivity. Qed.

Example H0_values :
  H0 = Regs 1779033703 3144134277 1013904242 2773480762 1359893119 2600822924 528734635 1541459225.
Proof. vm_compute. reflexivity. Qed.

(** ** Lemmas: the shape of a digest *)

Lemma word_bytes_length w : length (word_bytes w) = 4%nat.
Proof. done. Qed.

Lemma word_bytes_bytes w : Forall is_byte (word_bytes w).
Proof. repeat constructor; apply land_255_byte. Qed.

Lemma digest_length h : length (digest h) = 32%nat.
Proof. done. Qed.

Lemma digest_bytes h : Forall is_byte (digest h).
Proof. unfold digest. rewrite !Forall_app. repeat split; apply word_bytes_bytes. Qed.

Lemma hmac_length k m : length (hmac k m) = 32%nat.
Proof. apply digest_length. Qed.

Lemma hmac_bytes k m : Forall is_byte (hmac k m).
Proof. apply digest_bytes. Qed.

End Sha256.
