(* ===== verification/Utf8.v ===== *)
(** * UTF-8, as Node.js encodes a JavaScript string

    Two places of src/src/index.js turn a UTF-16 string into UTF-8 bytes:
    [crypto.createHmac(.., salt).update(password)] (line 95) encodes the key
    and the message as [Buffer.from(s, 'utf8')] does, and
    [encodeURIComponent] (lines 117, 122, 141, 157) percent-encodes the
    UTF-8 bytes of each code point.  A surrogate pair is one code point; the
    two differ on a lone surrogate, which Node replaces by U+FFFD and
    [encodeURIComponent] rejects.  [writeFileSync] (line 33) encodes the
    database text the same way, and [JSON.parse(readFileSync(..))] (lines
    21-22) decodes the bytes with the WHATWG UTF-8 decoder ([decode]);
    decoding inverts encoding on well-formed strings of code units
    ([utf8_decode_encode]) and always yields code units
    ([utf8_decode_units]). *)

From stdpp Require Import base list.
From Stdlib Require Import ZArith.
From S2P Require Import Prelude.

Module Utf8.

(** UTF-8 bytes of a code point. *)
Definition utf8_code_point (cp : Z) : list Z :=
  if decide (cp < 0x80) then [cp]
  else if decide (cp < 0x800) then
    [Z.lor 0xC0 (Z.shiftr cp 6); Z.lor 0x80 (Z.land cp 63)]
  else if decide (cp < 0x10000) then
    [Z.lor 0xE0 (Z.shiftr cp 12); Z.lor 0x80 (Z.land (Z.shiftr cp 6) 63);
     Z.lor 0x80 (Z.land cp 63)]
  else
    [Z.lor 0xF0 (Z.shiftr cp 18); Z.lor 0x80 (Z.land (Z.shiftr cp 12) 63);
     Z.lor 0x80 (Z.land (Z.shiftr cp 6) 63); Z.lor 0x80 (Z.land cp 63)].

Definition is_high_surrogate (c : Z) : bool := bool_decide (0xD800 <= c < 0xDC00).
Definition is_low_surrogate (c : Z) : bool := bool_decide (0xDC00 <= c < 0xE000).

(** The code point of a surrogate pair. *)
Definition pair_code_point (hi lo : Z) : Z := 0x10000 + Z.shiftl (hi - 0xD800) 10 + (lo - 0xDC00).

(** The replacement character U+FFFD. *)
Definition replacement : list Z := utf8_code_point 0xFFFD.

(** [Buffer.from(s, 'utf8')]: a surrogate pair is one code point; a lone
    surrogate becomes U+FFFD. *)
Fixpoint utf8_encode (s : jsstr) : list Z :=
  match s with
  | [] => []
  | c :: r =>
      if is_high_surrogate c then
        match r with
        | d :: r' =>
            if is_low_surrogate d then
              utf8_code_point (pair_code_point c d) ++ utf8_encode r'
            else replacement ++ utf8_encode r
        | [] => replacement
        end
      else if is_low_surrogate c then replacement ++ utf8_encode r
      else utf8_code_point c ++ utf8_encode r
  end.

(** [buf.toString('utf8')] (what [fs.readFileSync] followed by
    [JSON.parse] does to the bytes of the file): the UTF-8 decoder of the
    WHATWG Encoding standard.  Its state is the code point read so far, the
    number of continuation bytes needed and seen, and the bounds the next
    byte must lie in; an invalid byte yields U+FFFD and is read again from
    the initial state. *)
Record dstate := DState { acc : Z; needed : Z; seen : Z; lower : Z; upper : Z }.

Definition dinit : dstate := DState 0 0 0 0x80 0xBF.

(** What a byte does in the initial state. *)
Inductive lead := LAscii | LNeed (st : dstate) | LError.

Definition lead_byte (b : Z) : lead :=
  if decide (b <= 0x7F) then LAscii
  else if decide (0xC2 <= b <= 0xDF) then LNeed (DState (Z.land b 0x1F) 1 0 0x80 0xBF)
  else if decide (0xE0 <= b <= 0xEF) then
    LNeed (DState (Z.land b 0xF) 2 0 (if decide (b = 0xE0) then 0xA0 else 0x80)
                  (if decide (b = 0xED) then 0x9F else 0xBF))
  else if decide (0xF0 <= b <= 0xF4) then
    LNeed (DState (Z.land b 0x7) 3 0 (if decide (b = 0xF0) then 0x90 else 0x80)
                  (if decide (b = 0xF4) then 0x8F else 0xBF))
  else LError.

Fixpoint decode (st : dstate) (bs : list Z) : list Z :=
  match bs with
  | [] => if decide (needed st = 0) then [] else [0xFFFD]
  | b :: r =>
      let from_start :=
        match lead_byte b with
        | LAscii => b :: decode dinit r
        | LNeed st' => decode st' r
        | LError => 0xFFFD :: decode dinit r
        end in
      if decide (needed st = 0) then from_start
      else if decide (lower st <= b <= upper st) then
        let a := Z.lor (Z.shiftl (acc st) 6) (Z.land b 0x3F) in
        if decide (seen st + 1 = needed st) then a :: decode dinit r
        else decode (DState a (needed st) (seen st + 1) 0x80 0xBF) r
      else 0xFFFD :: from_start
  end.

(** A code point as UTF-16 code units. *)
Definition code_point_units (cp : Z) : list Z :=
  if decide (cp < 0x10000) then [cp]
  else [0xD800 + Z.shiftr (cp - 0x10000) 10; 0xDC00 + Z.land (cp - 0x10000) 0x3FF].

Definition utf8_decode (bs : list Z) : jsstr := mjoin (map code_point_units (decode dinit bs)).

(** A string without lone surrogates, the strings UTF-8 represents
    exactly. *)
Fixpoint well_formed (s : jsstr) : bool :=
  match s with
  | [] => true
  | c :: r =>
      if is_high_surrogate c then
        match r with
        | d :: r' => is_low_surrogate d && well_formed r'
        | [] => false
        end
      else negb (is_low_surrogate c) && well_formed r
  end.

(** A Unicode scalar value: a code point that is not a surrogate. *)
Definition scalar (cp : Z) : Prop := 0 <= cp < 0x110000 /\ ~ (0xD800 <= cp < 0xE000).

(** The decoder's state bounds the code point it can still produce. *)
Definition dinv (st : dstate) : Prop :=
  needed st = 0 \/
  (0 <= seen st < needed st /\ needed st <= 3 /\ 0x80 <= lower st /\ upper st <= 0xBF /\
   0 <= acc st /\ (acc st * 64 + upper st - 127) * 64 ^ (needed st - seen st - 1) <= 0x110000).

(** A code point of the Unicode range. *)
Definition cp_range (cp : Z) : Prop := 0 <= cp < 0x110000.

(** ** Lemmas *)

Lemma utf8_code_point_ascii c : 0 <= c < 128 -> utf8_code_point c = [c].
Proof. intros. unfold utf8_code_point. by rewrite decide_True by lia. Qed.

(** On ASCII text UTF-8 is the identity. *)
Lemma utf8_encode_ascii s : Forall (fun c => 0 <= c < 128) s -> utf8_encode s = s.
Proof.
  induction 1 as [|c s Hc _ IH]; [done|]. simpl.
  unfold is_high_surrogate, is_low_surrogate.
  rewrite !bool_decide_false by lia. rewrite utf8_code_point_ascii, IH by done. done.
Qed.

(** One step of the decoder on a continuation byte in range. *)
Lemma decode_cont st b r :
  needed st <> 0 -> lower st <= b <= upper st ->
  decode st (b :: r) =
    let a := acc st * 64 + b mod 64 in
    if decide (seen st + 1 = needed st) then a :: decode dinit r
    else decode (DState a (needed st) (seen st + 1) 0x80 0xBF) r.
Proof.
  intros Hn Hb. cbn [decode]. rewrite decide_False, decide_True by done.
  rewrite land_63, shiftl_mul, lor_low with (k := 6) by (Z.div_mod_to_equations; lia). done.
Qed.

Lemma decode_lead b r st :
  needed dinit = 0 -> lead_byte b = LNeed st -> decode dinit (b :: r) = decode st r.
Proof. intros _ H. cbn [decode]. by rewrite H. Qed.

(** The bytes [utf8_code_point] builds, as arithmetic. *)
Lemma utf8_2 cp : 0x80 <= cp < 0x800 ->
  utf8_code_point cp = [0xC0 + cp / 64; 0x80 + cp mod 64].
Proof.
  intros H. unfold utf8_code_point. rewrite decide_False, decide_True by lia.
  bits_to_arith. done.
Qed.

Lemma utf8_3 cp : 0x800 <= cp < 0x10000 ->
  utf8_code_point cp = [0xE0 + cp / 4096; 0x80 + (cp / 64) mod 64; 0x80 + cp mod 64].
Proof.
  intros H. unfold utf8_code_point. rewrite !decide_False, decide_True by lia.
  bits_to_arith. done.
Qed.

Lemma utf8_4 cp : 0x10000 <= cp < 0x110000 ->
  utf8_code_point cp =
    [0xF0 + cp / 262144; 0x80 + (cp / 4096) mod 64; 0x80 + (cp / 64) mod 64; 0x80 + cp mod 64].
Proof.
  intros H. unfold utf8_code_point. rewrite !decide_False by lia.
  bits_to_arith. done.
Qed.

Lemma decode_ascii b r : 0 <= b <= 0x7F -> decode dinit (b :: r) = b :: decode dinit r.
Proof. intros H. cbn [decode]. unfold lead_byte. by rewrite !decide_True by (simpl; lia). Qed.

Lemma lead_2 b : 0xC2 <= b <= 0xDF -> lead_byte b = LNeed (DState (b mod 32) 1 0 0x80 0xBF).
Proof. intros H. unfold lead_byte. rewrite decide_False, decide_True by lia. by rewrite land_31. Qed.

Lemma lead_3 b : 0xE0 <= b <= 0xEF ->
  lead_byte b = LNeed (DState (b mod 16) 2 0 (if decide (b = 0xE0) then 0xA0 else 0x80)
                              (if decide (b = 0xED) then 0x9F else 0xBF)).
Proof. intros H. unfold lead_byte. rewrite !decide_False, decide_True by lia. by rewrite land_15. Qed.

Lemma lead_4 b : 0xF0 <= b <= 0xF4 ->
  lead_byte b = LNeed (DState (b mod 8) 3 0 (if decide (b = 0xF0) then 0x90 else 0x80)
                              (if decide (b = 0xF4) then 0x8F else 0xBF)).
Proof. intros H. unfold lead_byte. rewrite !decide_False, decide_True by lia. by rewrite land_7. Qed.

(** Run the decoder through the continuation bytes of one code point. *)
Ltac decode_steps :=
  repeat first
    [ rewrite decode_cont by (cbn [needed lower upper]; repeat case_decide; Z.div_mod_to_equations; lia);
      cbn [acc needed seen lower upper];
      first [rewrite decide_True by lia | rewrite decide_False by lia]
    | progress cbn zeta ].

(** The decoder reads back the bytes of one scalar value. *)
Lemma decode_code_point cp rest :
  scalar cp -> decode dinit (utf8_code_point cp ++ rest) = cp :: decode dinit rest.
Proof.
  intros [Hr Hs].
  destruct (decide (cp < 0x80)); [|destruct (decide (cp < 0x800)); [|destruct (decide (cp < 0x10000))]].
  - rewrite utf8_code_point_ascii by lia. apply decode_ascii. lia.
  - rewrite utf8_2 by lia. simpl app. erewrite decode_lead; [|done|apply lead_2; Z.div_mod_to_equations; lia].
    decode_steps. f_equal. Z.div_mod_to_equations; lia.
  - rewrite utf8_3 by lia. simpl app. erewrite decode_lead; [|done|apply lead_3; Z.div_mod_to_equations; lia].
    decode_steps. f_equal. Z.div_mod_to_equations; lia.
  - rewrite utf8_4 by lia. simpl app. erewrite decode_lead; [|done|apply lead_4; Z.div_mod_to_equations; lia].
    decode_steps. f_equal. Z.div_mod_to_equations; lia.
Qed.

Lemma code_point_units_bmp cp : cp < 0x10000 -> code_point_units cp = [cp].
Proof. intros H. unfold code_point_units. by rewrite decide_True. Qed.

Lemma pair_code_point_range hi lo :
  is_high_surrogate hi = true -> is_low_surrogate lo = true ->
  0x10000 <= pair_code_point hi lo < 0x110000.
Proof.
  unfold is_high_surrogate, is_low_surrogate, pair_code_point. rewrite !bool_decide_eq_true.
  intros. rewrite shiftl_mul by lia. lia.
Qed.

Lemma code_point_units_pair hi lo :
  is_high_surrogate hi = true -> is_low_surrogate lo = true ->
  code_point_units (pair_code_point hi lo) = [hi; lo].
Proof.
  intros Hh Hl. pose proof (pair_code_point_range hi lo Hh Hl).
  unfold is_high_surrogate, is_low_surrogate in *. rewrite bool_decide_eq_true in Hh, Hl.
  unfold code_point_units, pair_code_point in *. rewrite decide_False by lia.
  bits_to_arith. f_equal; [|f_equal]; Z.div_mod_to_equations; lia.
Qed.

Lemma utf8_decode_app_point cp rest :
  scalar cp -> utf8_decode (utf8_code_point cp ++ rest) = code_point_units cp ++ utf8_decode rest.
Proof. intros H. unfold utf8_decode. by rewrite decode_code_point. Qed.

(** Decoding inverts encoding on a well-formed string. *)
Lemma utf8_decode_encode s :
  Forall is_code_unit s -> well_formed s = true -> utf8_decode (utf8_encode s) = s.
Proof.
  induction s as [s IH] using (induction_ltof1 _ (@length _)); unfold ltof in IH.
  destruct s as [|c r]; [done|]. intros Hu Hw. apply Forall_cons in Hu as [Hc Hu].
  unfold is_code_unit, in_width in Hc. simpl in Hw |- *.
  destruct (is_high_surrogate c) eqn:Eh.
  - destruct r as [|d r']; [done|]. apply andb_prop in Hw as [Hl Hw].
    apply Forall_cons in Hu as [_ Hu]. rewrite Hl.
    pose proof (pair_code_point_range c d Eh Hl).
    rewrite utf8_decode_app_point, code_point_units_pair, IH by (first [done | unfold scalar; lia | simpl; lia]). done.
  - apply andb_prop in Hw as [Hl Hw]. apply negb_true_iff in Hl. rewrite Hl.
    unfold is_high_surrogate, is_low_surrogate in *. apply bool_decide_eq_false in Eh, Hl.
    rewrite utf8_decode_app_point, code_point_units_bmp, IH by (first [done | unfold scalar; lia | simpl; lia]). done.
Qed.

Lemma well_formed_app s1 s2 :
  well_formed s1 = true -> well_formed s2 = true -> well_formed (s1 ++ s2) = true.
Proof.
  induction s1 as [s1 IH] using (induction_ltof1 _ (@length _)); unfold ltof in IH.
  destruct s1 as [|c r]; [done|]. intros H1 H2. simpl in H1 |- *.
  destruct (is_high_surrogate c).
  - destruct r as [|d r']; [done|]. apply andb_prop in H1 as [Hd H1].
    simpl. rewrite Hd. apply IH; simpl; auto.
  - apply andb_prop in H1 as [Hd H1]. rewrite Hd. apply IH; simpl; auto.
Qed.


Lemma utf8_code_point_bytes cp : 0 <= cp < 0x110000 -> Forall is_byte (utf8_code_point cp).
Proof.
  intros H. unfold is_byte, in_width. simpl.
  destruct (decide (cp < 0x80)); [|destruct (decide (cp < 0x800)); [|destruct (decide (cp < 0x10000))]].
  - rewrite utf8_code_point_ascii by lia. repeat constructor; lia.
  - rewrite utf8_2 by lia. repeat constructor; Z.div_mod_to_equations; lia.
  - rewrite utf8_3 by lia. repeat constructor; Z.div_mod_to_equations; lia.
  - rewrite utf8_4 by lia. repeat constructor; Z.div_mod_to_equations; lia.
Qed.

(** The decoder emits code points of the Unicode range only. *)
Lemma dinv_init : dinv dinit.
Proof. by left. Qed.

Lemma lead_byte_inv b st : is_byte b -> lead_byte b = LNeed st -> dinv st.
Proof.
  unfold is_byte, in_width, lead_byte. simpl. intros Hb.
  repeat case_decide; intros E; simplify_eq; right; simpl; bits_to_arith;
    repeat split; try lia; Z.div_mod_to_equations; nia.
Qed.

Lemma decode_from_start b r :
  is_byte b -> (forall st, dinv st -> Forall cp_range (decode st r)) ->
  Forall cp_range (match lead_byte b with
                   | LAscii => b :: decode dinit r
                   | LNeed st' => decode st' r
                   | LError => 0xFFFD :: decode dinit r
                   end).
Proof.
  intros Hb IH. destruct (lead_byte b) eqn:E.
  - constructor; [|apply IH, dinv_init]. unfold lead_byte in E. unfold cp_range.
    unfold is_byte, in_width in Hb. simpl in Hb. repeat case_decide; try done; lia.
  - apply IH. by eapply lead_byte_inv.
  - constructor; [unfold cp_range; lia|apply IH, dinv_init].
Qed.

Lemma decode_range bs : Forall is_byte bs -> forall st, dinv st -> Forall cp_range (decode st bs).
Proof.
  induction 1 as [|b r Hb Hr IH]; intros st Hst.
  - simpl. case_decide; [done|]. repeat constructor; unfold cp_range; lia.
  - cbn [decode]. pose proof (decode_from_start b r Hb IH) as Hs.
    case_decide; [done|]. destruct Hst as [|(Hs1 & Hn & Hl & Hu & Ha & Hbound)]; [done|].
    case_decide as Hin; [|by constructor; [unfold cp_range; lia|]].
    unfold is_byte, in_width in Hb. simpl in Hb.
    rewrite land_63, shiftl_mul, lor_low with (k := 6) by (Z.div_mod_to_equations; lia).
    assert (Hm : (b mod 64 = b - 128)%Z) by (Z.div_mod_to_equations; lia).
    rewrite Hm. 
    assert (needed st - seen st = 1 \/ needed st - seen st = 2 \/ needed st - seen st = 3)
      as [Hr1|[Hr1|Hr1]] by lia; rewrite Hr1 in Hbound; simpl in Hbound.
    + rewrite decide_True by lia. constructor; [unfold cp_range; simpl; lia|apply IH, dinv_init].
    + rewrite decide_False by lia. apply IH. right. simpl. rewrite ?Hr1.
      replace (needed st - (seen st + 1) - 1) with 0 by lia. simpl. lia.
    + rewrite decide_False by lia. apply IH. right. simpl.
      replace (needed st - (seen st + 1) - 1) with 1 by lia. simpl. lia.
Qed.

Lemma code_point_units_range cp : cp_range cp -> Forall is_code_unit (code_point_units cp).
Proof.
  unfold cp_range, code_point_units, is_code_unit, in_width. simpl. intros H.
  case_decide; repeat constructor; bits_to_arith; Z.div_mod_to_equations; lia.
Qed.

(** Every string [buf.toString('utf8')] returns is a string of 16-bit code
    units, whatever the bytes. *)
Lemma utf8_decode_units bs : Forall is_byte bs -> Forall is_code_unit (utf8_decode bs).
Proof.
  intros Hb. unfold utf8_decode. apply Forall_join, Forall_fmap.
  eapply Forall_impl; [apply (decode_range bs Hb dinit dinv_init)|]. apply code_point_units_range.
Qed.

(** ** Properties *)

(** [Buffer.from(s, 'utf8')] of a string of code units is a sequence of
    bytes, lone surrogates included (they become U+FFFD). *)
Lemma utf8_encode_bytes s : Forall is_code_unit s -> Forall is_byte (utf8_encode s).
Proof.
  assert (Hr : Forall is_byte replacement) by (apply utf8_code_point_bytes; lia).
  induction s as [s IH] using (induction_ltof1 _ (@length _)); unfold ltof in IH.
  destruct s as [|c r]; [done|]. intros Hu. apply Forall_cons in Hu as [Hc Hu].
  unfold is_code_unit, in_width in Hc. simpl in Hc. cbn [utf8_encode].
  destruct (is_high_surrogate c) eqn:Eh; [destruct r as [|d r']|].
  - done.
  - pose proof Hu as Hu0. apply Forall_cons in Hu0 as [_ Hu'].
    destruct (is_low_surrogate d) eqn:El; apply Forall_app.
    + pose proof (pair_code_point_range c d Eh El).
      split; [apply utf8_code_point_bytes; lia|apply IH; simpl; auto with lia].
    + split; [done|apply IH; simpl; auto with lia].
  - destruct (is_low_surrogate c); apply Forall_app; (split; [|apply IH; simpl; auto with lia]);
      [done|apply utf8_code_point_bytes; lia].
Qed.

(** C32: [Buffer.from(s, 'utf8')], with which [writeFileSync] writes the
    JSON text of [db] (line 33), turns a string of code units into bytes,
    and on a well-formed string (no lone surrogate) the UTF-8 decoder of
    [readFileSync] and [JSON.parse(buffer)] (lines 21-22) gives the string
    back, code unit for code unit. *)
Theorem utf8_encode_roundtrip s :
  Forall is_code_unit s ->
  Forall is_byte (utf8_encode s) /\ (well_formed s = true -> utf8_decode (utf8_encode s) = s).
Proof. intros Hu. split; [by apply utf8_encode_bytes|by apply utf8_decode_encode]. Qed.

(** ** Concrete runs *)

(** "A", "é", "€", a surrogate pair for U+1F600: one to four bytes each. *)
Lemma utf8_encode_roundtrip_witness :
  Forall is_code_unit [0x41; 0xE9; 0x20AC; 0xD83D; 0xDE00] /\
  utf8_encode [0x41; 0xE9; 0x20AC; 0xD83D; 0xDE00] =
    [0x41; 0xC3; 0xA9; 0xE2; 0x82; 0xAC; 0xF0; 0x9F; 0x98; 0x80] /\
  Forall is_byte (utf8_encode [0x41; 0xE9; 0x20AC; 0xD83D; 0xDE00]) /\
  (well_formed [0x41; 0xE9; 0x20AC; 0xD83D; 0xDE00] = true ->
   utf8_decode (utf8_encode [0x41; 0xE9; 0x20AC; 0xD83D; 0xDE00]) = [0x41; 0xE9; 0x20AC; 0xD83D; 0xDE00]).
Proof.
  assert (H : Forall is_code_unit [0x41; 0xE9; 0x20AC; 0xD83D; 0xDE00])
    by (repeat constructor; unfold is_code_unit, in_width; simpl; lia).
  exact (conj H (conj eq_refl (utf8_encode_roundtrip _ H))).
Defined.

(** Invalid and truncated sequences: each becomes U+FFFD. *)
Lemma utf8_decode_invalid_sequences :
  Forall is_byte [0xE0; 0x80; 0x41; 0xF4; 0x90; 0xC3] /\
  Forall is_code_unit (utf8_decode [0xE0; 0x80; 0x41; 0xF4; 0x90; 0xC3]) /\
  utf8_decode [0xE0; 0x80; 0x41; 0xF4; 0x90; 0xC3] = [0xFFFD; 0xFFFD; 0x41; 0xFFFD; 0xFFFD; 0xFFFD].
Proof.
  assert (H : Forall is_byte [0xE0; 0x80; 0x41; 0xF4; 0x90; 0xC3])
    by (repeat constructor; unfold is_byte, in_width; simpl; lia).
  exact (conj H (conj (utf8_decode_units _ H) eq_refl)).
Defined.

End Utf8.
