(* ===== verification/Hasher.v ===== *)
(** * The hasher: [sha256] (src/src/index.js, lines 94-97)

    [sha256(password, salt)] evaluates [salt.toString()], then
    [password.toString()] (either throws a [TypeError] on [undefined]),
    encodes both strings in UTF-8, computes HMAC-SHA-256 keyed by the salt
    over the password, and renders the 32-byte digest as lowercase hex.

    The MAC is a library primitive: the class [HMAC] states what the rest of
    the development needs of it (32 bytes out), and [Sha256.hmac] is its
    instance, so that the handlers compute.  The strings reach the MAC in
    UTF-8 ([Utf8.utf8_encode]); the hex rendering of [digest('hex')] is
    modelled here. *)

From stdpp Require Import base list.
From Stdlib Require Import ZArith.
From S2P Require Import Prelude Sha256 Utf8.
Import Utf8.

Module Hasher.

(** What the development relies on of HMAC-SHA-256. *)
Class HMAC := {
  hmac_sha256 : list Z -> list Z -> list Z;
  hmac_sha256_length : forall key msg, length (hmac_sha256 key msg) = 32%nat;
  hmac_sha256_bytes : forall key msg, Forall is_byte (hmac_sha256 key msg)
}.

#[export] Instance sha256_hmac : HMAC :=
  {| hmac_sha256 := Sha256.hmac;
     hmac_sha256_length := Sha256.hmac_length;
     hmac_sha256_bytes := Sha256.hmac_bytes |}.

(** Lowercase hex, as [digest('hex')] renders. *)
Definition hex_digit (n : Z) : Z := if decide (n < 10) then 48 + n else 87 + n.

Definition hex_byte (b : Z) : jsstr := [hex_digit (Z.shiftr b 4); hex_digit (Z.land b 15)].

Definition hex_encode (bytes : list Z) : jsstr := flat_map hex_byte bytes.

Definition hex_value (c : Z) : option Z :=
  if decide (48 <= c <= 57) then Some (c - 48)
  else if decide (97 <= c <= 102) then Some (c - 87)
  else None.

Definition hex_pair (hi lo : Z) : option Z :=
  h ← hex_value hi; l ← hex_value lo; Some (Z.lor (Z.shiftl h 4) l).

(** The inverse of [hex_encode]. *)
Fixpoint hex_decode (s : jsstr) : option (list Z) :=
  match s with
  | [] => Some []
  | hi :: lo :: r => b ← hex_pair hi lo; rest ← hex_decode r; Some (b :: rest)
  | [_] => None
  end.

Definition is_lower_hex (c : Z) : Prop := 48 <= c <= 57 \/ 97 <= c <= 102.
#[export] Instance is_lower_hex_dec c : Decision (is_lower_hex c).
Proof. unfold is_lower_hex. apply _. Defined.

(** [sha256(password, salt)]: [salt.toString()] is evaluated first, then
    [password.toString()]. *)
Definition sha256 `{HMAC} (password salt : jsval) : exn + jsstr :=
  match js_toString salt with
  | inl e => inl e
  | inr s =>
      match js_toString password with
      | inl e => inl e
      | inr p => inr (hex_encode (hmac_sha256 (utf8_encode s) (utf8_encode p)))
      end
  end.

(** ** Lemmas *)

Lemma hex_pair_byte b : is_byte b -> hex_pair (hex_digit (Z.shiftr b 4)) (hex_digit (Z.land b 15)) = Some b.
Proof.
  revert b. apply (forall_bytes (fun b => hex_pair (hex_digit (Z.shiftr b 4)) (hex_digit (Z.land b 15)) = Some b)).
  vm_compute. reflexivity.
Qed.

Lemma hex_byte_lower b : is_byte b -> Forall is_lower_hex (hex_byte b).
Proof.
  revert b. apply (forall_bytes (fun b => Forall is_lower_hex (hex_byte b))).
  vm_compute. reflexivity.
Qed.

Lemma hex_encode_length bytes : length (hex_encode bytes) = (2 * length bytes)%nat.
Proof. apply length_flat_map_const. done. Qed.

Lemma hex_encode_lower bytes : Forall is_byte bytes -> Forall is_lower_hex (hex_encode bytes).
Proof.
  intros Hb. apply Forall_flat_map. intros x Hx. apply hex_byte_lower.
  by eapply Forall_forall.
Qed.

Lemma hex_decode_encode bytes : Forall is_byte bytes -> hex_decode (hex_encode bytes) = Some bytes.
Proof.
  induction 1 as [|b bs Hb _ IH]; [done|]. simpl.
  rewrite hex_pair_byte by done. simpl. fold (hex_encode bs). by rewrite IH.
Qed.

Lemma hex_encode_inj b1 b2 :
  Forall is_byte b1 -> Forall is_byte b2 -> hex_encode b1 = hex_encode b2 -> b1 = b2.
Proof.
  intros H1 H2 E. apply (f_equal hex_decode) in E.
  rewrite !hex_decode_encode in E by done. congruence.
Qed.

Section WithHMAC.
Context `{HMAC}.

(** The digest of a MAC, rendered: 64 lowercase hex characters that decode
    back to the 32 bytes of the MAC. *)
Lemma hex_mac_shape key msg :
  let h := hex_encode (hmac_sha256 key msg) in
  length h = 64%nat /\ Forall is_lower_hex h /\ hex_decode h = Some (hmac_sha256 key msg).
Proof.
  simpl. rewrite hex_encode_length, hmac_sha256_length.
  split; [done|]. split; [apply hex_encode_lower, hmac_sha256_bytes|].
  apply hex_decode_encode, hmac_sha256_bytes.
Qed.

Lemma sha256_str p s :
  sha256 (VStr p) (VStr s) = inr (hex_encode (hmac_sha256 (utf8_encode s) (utf8_encode p))).
Proof. done. Qed.

(** A defined password and a string salt always give a digest. *)
Lemma sha256_defined pw s : pw <> VUndef -> exists h, sha256 pw (VStr s) = inr h.
Proof. unfold sha256. destruct pw; cbn; [done|eauto|eauto]. Qed.

(** ** Properties of [sha256] *)

(** C30: [sha256] on two strings returns the HMAC of the UTF-8 password keyed by
    the UTF-8 salt, as 64 lowercase hex characters from which the MAC is
    recovered. *)
Theorem sha256_digest p s :
  exists h, sha256 (VStr p) (VStr s) = inr h /\
    h = hex_encode (hmac_sha256 (utf8_encode s) (utf8_encode p)) /\
    length h = 64%nat /\ Forall is_lower_hex h /\
    hex_decode h = Some (hmac_sha256 (utf8_encode s) (utf8_encode p)).
Proof. eexists. split; [done|]. split; [done|]. apply hex_mac_shape. Qed.

(** C31: [sha256] throws, and throws a [TypeError], exactly when the password or
    the salt is [undefined]. *)
Theorem sha256_throws p s e :
  sha256 p s = inl e <-> (p = VUndef \/ s = VUndef) /\ e = TypeError.
Proof.
  destruct p, s; cbn; split; intros Hx; try discriminate;
    try (destruct Hx as [[Hx|Hx] _]; discriminate); naive_solver.
Qed.

(** Whatever [sha256] returns is a 64-character lowercase hex string. *)
Lemma sha256_inr_shape p s h :
  sha256 p s = inr h -> length h = 64%nat /\ Forall is_lower_hex h.
Proof.
  unfold sha256. destruct (js_toString s) as [|s'], (js_toString p) as [|p'];
    intros E; try discriminate.
  injection E as <-. pose proof (hex_mac_shape (utf8_encode s') (utf8_encode p')). naive_solver.
Qed.

(** Two digests are equal exactly when the two MACs are. *)
Lemma sha256_eq_iff p1 p2 s1 s2 :
  sha256 (VStr p1) (VStr s1) = sha256 (VStr p2) (VStr s2) <->
  hmac_sha256 (utf8_encode s1) (utf8_encode p1) = hmac_sha256 (utf8_encode s2) (utf8_encode p2).
Proof.
  unfold sha256; cbn [js_toString]. split; [|by intros ->]. intros E. injection E as E.
  apply hex_encode_inj in E; auto using hmac_sha256_bytes.
Qed.

End WithHMAC.

(** The second test case of RFC 4231, through [sha256] with the salt as the
    key: the rendering is the published digest. *)
Example sha256_rfc4231_case2 :
  sha256 (VStr (js "what do ya want for nothing?")) (VStr (js "Jefe")) =
  inr (js "5bdcc146bf60754e6a042426089575c75a003f089d2739839dec58b964ec3843").
Proof. vm_compute. reflexivity. Qed.

End Hasher.
