(* ===== verification/Json.v ===== *)
(** * JSON text: [JSON.stringify] and [JSON.parse] of the database file

    [writeDB] (src/src/index.js, lines 30-34) writes [JSON.stringify(db)]
    to [db/database.json], and the start-up code (lines 20-26) reads it
    back with [JSON.parse].  Both are the JavaScript engine's, not code of
    the repository; they are defined here from ECMA-262 (25.5.2
    [JSON.stringify], with the well-formed [QuoteJSONString] of ES2019, and
    25.5.1 [JSON.parse] over the grammar of ECMA-404).

    The values are those the program writes: strings, arrays (a record
    field that came from a repeated form key) and objects (a member list,
    in order, duplicates kept).  The parser covers the JSON grammar of
    strings, arrays and objects with whitespace; numbers and the literals
    [true], [false], [null] never occur in a file the program writes, and
    a text with them is not accepted here.  The parser is
    recursive descent with fuel: every call reads at least one character,
    so the length of the text plus one is enough (theorem
    [parse_value_enough_fuel]); [json_parse_stringify] is the round trip,
    and the lemmas on [text_ok] show that the text is well-formed UTF-16,
    which the UTF-8 round trip of the file needs. *)

From stdpp Require Import base list.
From Stdlib Require Import ZArith.
From S2P Require Import Prelude Utf8 Hasher.
Import Utf8 Hasher.

Module Json.

Inductive value :=
  | JStr (s : jsstr)
  | JArr (vs : list value)
  | JObj (ms : list (jsstr * value)).

(** Induction on values, with the hypothesis on every element and every
    member value. *)
Definition value_ind' (P : value -> Prop) (Hs : forall s, P (JStr s))
    (Ha : forall vs, Forall P vs -> P (JArr vs))
    (Ho : forall ms, Forall (fun kv => P kv.2) ms -> P (JObj ms)) : forall v, P v :=
  fix go v :=
    match v with
    | JStr s => Hs s
    | JArr vs =>
        Ha vs ((fix gol (vs : list value) : Forall P vs :=
                  match vs with
                  | [] => Forall_nil_2 _
                  | v :: r => Forall_cons_2 _ v r (go v) (gol r)
                  end) vs)
    | JObj ms =>
        Ho ms ((fix gol (ms : list (jsstr * value)) : Forall (fun kv => P kv.2) ms :=
                  match ms with
                  | [] => Forall_nil_2 _
                  | kv :: r => Forall_cons_2 _ kv r (go kv.2) (gol r)
                  end) ms)
    end.

(** ** [JSON.stringify] *)

(** The short escapes of [QuoteJSONString] (table 73): backspace, tab,
    line feed, form feed, carriage return, quotation mark, reverse
    solidus. *)
Definition json_escape (c : Z) : option Z :=
  if decide (c = 8) then Some 98
  else if decide (c = 9) then Some 116
  else if decide (c = 10) then Some 110
  else if decide (c = 12) then Some 102
  else if decide (c = 13) then Some 114
  else if decide (c = 34) then Some 34
  else if decide (c = 92) then Some 92
  else None.

(** [UnicodeEscape(C)]: [\u] and four lowercase hex digits. *)
Definition unicode_escape (c : Z) : jsstr :=
  [92; 117] ++ hex_byte (Z.shiftr c 8) ++ hex_byte (Z.land c 255).

(** One code unit that is not part of a surrogate pair. *)
Definition quote_unit (c : Z) : jsstr :=
  match json_escape c with
  | Some e => [92; e]
  | None => if decide (c < 0x20) then unicode_escape c else [c]
  end.

(** [QuoteJSONString] without its quotes: the string is read by code
    points; a surrogate pair is copied, a lone surrogate escaped. *)
Fixpoint quote_units (s : jsstr) : jsstr :=
  match s with
  | [] => []
  | c :: r =>
      if is_high_surrogate c then
        match r with
        | d :: r' =>
            if is_low_surrogate d then c :: d :: quote_units r'
            else unicode_escape c ++ quote_units r
        | [] => unicode_escape c
        end
      else if is_low_surrogate c then unicode_escape c ++ quote_units r
      else quote_unit c ++ quote_units r
  end.

Definition quote (s : jsstr) : jsstr := [34] ++ quote_units s ++ [34].

(** [SerializeJSONArray] and [SerializeJSONObject] with no indentation:
    elements and members in order, separated by commas. *)
Fixpoint stringify (v : value) : jsstr :=
  match v with
  | JStr s => quote s
  | JArr vs => [91] ++ join_with 44 (map stringify vs) ++ [93]
  | JObj ms =>
      [123] ++ join_with 44 (map (fun kv => quote kv.1 ++ [58] ++ stringify kv.2) ms)
      ++ [125]
  end.

Definition member (kv : jsstr * value) : jsstr := quote kv.1 ++ [58] ++ stringify kv.2.
Definition members (ms : list (jsstr * value)) : jsstr := join_with 44 (map member ms).

(** ** [JSON.parse] *)

Definition is_ws (c : Z) : bool := bool_decide (c = 32 \/ c = 9 \/ c = 10 \/ c = 13).

Fixpoint skip_ws (l : list Z) : list Z :=
  match l with
  | c :: r => if is_ws c then skip_ws r else l
  | [] => []
  end.

(** A hex digit of a [\u] escape, either case. *)
Definition json_hex_value (c : Z) : option Z :=
  if decide (48 <= c <= 57) then Some (c - 48)
  else if decide (97 <= c <= 102) then Some (c - 87)
  else if decide (65 <= c <= 70) then Some (c - 55)
  else None.

Definition json_hex_pair (a b : Z) : option Z :=
  h ← json_hex_value a; l ← json_hex_value b; Some (h * 16 + l).

(** The character an escape [\e] stands for. *)
Definition unescape (e : Z) : option Z :=
  if decide (e = 34) then Some 34
  else if decide (e = 92) then Some 92
  else if decide (e = 47) then Some 47
  else if decide (e = 98) then Some 8
  else if decide (e = 102) then Some 12
  else if decide (e = 110) then Some 10
  else if decide (e = 114) then Some 13
  else if decide (e = 116) then Some 9
  else None.

Definition prepend (c : Z) (o : option (jsstr * list Z)) : option (jsstr * list Z) :=
  match o with
  | Some (s, rest) => Some (c :: s, rest)
  | None => None
  end.

(** The characters of a string after its opening quote, up to and
    including the closing one; a control character must be escaped. *)
Fixpoint parse_chars (l : list Z) : option (jsstr * list Z) :=
  match l with
  | [] => None
  | c :: r =>
      if decide (c = 34) then Some ([], r)
      else if decide (c = 92) then
        match r with
        | e :: r' =>
            if decide (e = 117) then
              match r' with
              | a :: b :: c' :: d :: r'' =>
                  match json_hex_pair a b, json_hex_pair c' d with
                  | Some hi, Some lo => prepend (hi * 256 + lo) (parse_chars r'')
                  | _, _ => None
                  end
              | _ => None
              end
            else
              match unescape e with
              | Some u => prepend u (parse_chars r')
              | None => None
              end
        | [] => None
        end
      else if decide (c < 0x20) then None
      else prepend c (parse_chars r)
  end.

(** A value, the elements of an array after its first one (each after
    a comma, up to the closing bracket), and an object's members; [n] is
    the fuel. *)
Fixpoint parse_value (n : nat) (l : list Z) : option (value * list Z) :=
  match n with
  | O => None
  | S n =>
      match skip_ws l with
      | c :: r =>
          if decide (c = 34) then
            match parse_chars r with
            | Some (s, r') => Some (JStr s, r')
            | None => None
            end
          else if decide (c = 123) then
            match skip_ws r with
            | d :: r' =>
                if decide (d = 125) then Some (JObj [], r')
                else
                  match parse_members n r with
                  | Some (ms, r'') => Some (JObj ms, r'')
                  | None => None
                  end
            | [] => None
            end
          else if decide (c = 91) then
            match skip_ws r with
            | d :: r' =>
                if decide (d = 93) then Some (JArr [], r')
                else
                  match parse_value n r with
                  | Some (v, r1) =>
                      match parse_elements n r1 with
                      | Some (vs, r2) => Some (JArr (v :: vs), r2)
                      | None => None
                      end
                  | None => None
                  end
            | [] => None
            end
          else None
      | [] => None
      end
  end
with parse_elements (n : nat) (l : list Z) : option (list value * list Z) :=
  match n with
  | O => None
  | S n =>
      match skip_ws l with
      | e :: r =>
          if decide (e = 44) then
            match parse_value n r with
            | Some (v, r1) =>
                match parse_elements n r1 with
                | Some (vs, r2) => Some (v :: vs, r2)
                | None => None
                end
            | None => None
            end
          else if decide (e = 93) then Some ([], r)
          else None
      | [] => None
      end
  end
with parse_members (n : nat) (l : list Z) : option (list (jsstr * value) * list Z) :=
  match n with
  | O => None
  | S n =>
      match skip_ws l with
      | c :: r =>
          if decide (c = 34) then
            match parse_chars r with
            | Some (k, r1) =>
                match skip_ws r1 with
                | d :: r2 =>
                    if decide (d = 58) then
                      match parse_value n r2 with
                      | Some (v, r3) =>
                          match skip_ws r3 with
                          | e :: r4 =>
                              if decide (e = 44) then
                                match parse_members n r4 with
                                | Some (ms, r5) => Some ((k, v) :: ms, r5)
                                | None => None
                                end
                              else if decide (e = 125) then Some ([(k, v)], r4)
                              else None
                          | [] => None
                          end
                      | None => None
                      end
                    else None
                | [] => None
                end
            | None => None
            end
          else None
      | [] => None
      end
  end.

(** [JSON.parse(text)]: one value, then only whitespace. *)
Definition json_parse (t : jsstr) : option value :=
  match parse_value (S (length t)) t with
  | Some (v, r) => match skip_ws r with [] => Some v | _ => None end
  | None => None
  end.

(** Strings of code units, at every level of a value. *)
Definition units_ok (s : jsstr) : bool := bool_decide (Forall is_code_unit s).

Fixpoint value_units (v : value) : bool :=
  match v with
  | JStr s => units_ok s
  | JArr vs => forallb value_units vs
  | JObj ms => forallb (fun kv => units_ok kv.1 && value_units kv.2) ms
  end.

(** The number of values, elements and members, a bound on the parser's
    fuel. *)
Fixpoint vsize (v : value) : nat :=
  match v with
  | JStr _ => 1
  | JArr vs => S (sum_list_with (fun v => S (vsize v)) vs)
  | JObj ms => S (sum_list_with (fun kv => S (vsize kv.2)) ms)
  end.

Definition esize (vs : list value) : nat := sum_list_with (fun v => S (vsize v)) vs.
Definition msize (ms : list (jsstr * value)) : nat := sum_list_with (fun kv => S (vsize kv.2)) ms.

(** Text that [utf8_encode] and [utf8_decode] carry unchanged. *)
Definition text_ok (t : jsstr) : Prop := well_formed t = true /\ Forall is_code_unit t.

(** ** Lemmas: the parser reads back what the serializer writes *)

Lemma json_hex_pair_byte b :
  is_byte b -> json_hex_pair (hex_digit (Z.shiftr b 4)) (hex_digit (Z.land b 15)) = Some b.
Proof.
  revert b. apply (forall_bytes (fun b => json_hex_pair (hex_digit (Z.shiftr b 4)) (hex_digit (Z.land b 15)) = Some b)).
  vm_compute. reflexivity.
Qed.

(** A [\u] escape is read back as its code unit. *)
Lemma parse_unicode_escape c l :
  is_code_unit c -> parse_chars (unicode_escape c ++ l) = prepend c (parse_chars l).
Proof.
  intros Hc. unfold is_code_unit, in_width in Hc. simpl in Hc.
  assert (Hb : is_byte (Z.shiftr c 8)).
  { unfold is_byte, in_width. rewrite shiftr_div by lia. simpl. Z.div_mod_to_equations. lia. }
  unfold unicode_escape, hex_byte. cbn.
  rewrite !json_hex_pair_byte by auto using land_255_byte. f_equal.
  bits_to_arith. Z.div_mod_to_equations. lia.
Qed.

Lemma parse_quote_unit c l :
  is_code_unit c -> parse_chars (quote_unit c ++ l) = prepend c (parse_chars l).
Proof.
  intros Hc. unfold quote_unit, json_escape.
  repeat (case_decide; [subst; reflexivity|]).
  case_decide; [by apply parse_unicode_escape|].
  cbn [app parse_chars]. rewrite !decide_False by lia. done.
Qed.

(** The quoted characters of a string are read back, up to the closing quote. *)
Lemma parse_quote_units s rest :
  Forall is_code_unit s -> parse_chars (quote_units s ++ 34 :: rest) = Some (s, rest).
Proof.
  induction s as [s IH] using (induction_ltof1 _ (@length _)); unfold ltof in IH.
  destruct s as [|c r]; [done|]. intros Hu. apply Forall_cons in Hu as [Hc Hu]. cbn [quote_units].
  destruct (is_high_surrogate c) eqn:Eh; [destruct r as [|d r']|].
  - rewrite parse_unicode_escape by done. done.
  - apply Forall_cons in Hu as [Hd Hu'].
    destruct (is_low_surrogate d) eqn:El.
    + unfold is_high_surrogate, is_low_surrogate in *. apply bool_decide_eq_true in Eh, El.
      cbn [app parse_chars]. rewrite !decide_False by lia.
      rewrite IH by (simpl; auto with lia). done.
    + rewrite <- app_assoc, parse_unicode_escape, IH by (simpl; auto with lia). done.
  - destruct (is_low_surrogate c);
      rewrite <- app_assoc, ?parse_unicode_escape, ?parse_quote_unit, IH by (simpl; auto with lia); done.
Qed.

Lemma stringify_obj ms : stringify (JObj ms) = [123] ++ members ms ++ [125].
Proof. done. Qed.

Lemma members_cons kv r :
  members (kv :: r) = member kv ++ match r with [] => [] | _ => 44 :: members r end.
Proof. destruct r; simpl; [by rewrite app_nil_r|done]. Qed.

Lemma skip_ws_nonws c l : is_ws c = false -> skip_ws (c :: l) = c :: l.
Proof. simpl. by intros ->. Qed.

(** The text of an array after its first element: a comma before each. *)
Lemma join_with_cons sep x xs : join_with sep (x :: xs) = x ++ flat_map (fun y => sep :: y) xs.
Proof.
  revert x. induction xs as [|y xs IH]; intros x; [cbn; by rewrite app_nil_r|].
  change (join_with sep (x :: y :: xs)) with (x ++ sep :: join_with sep (y :: xs)).
  by rewrite IH.
Qed.

Lemma stringify_arr vs : stringify (JArr vs) = [91] ++ join_with 44 (map stringify vs) ++ [93].
Proof. done. Qed.

(** A serialized value starts with a quote or a bracket, never with
    whitespace or a closing bracket. *)
Lemma skip_ws_stringify v rest :
  exists c t, skip_ws (stringify v ++ rest) = c :: t /\ c <> 93.
Proof.
  destruct v; cbn [stringify quote app]; rewrite skip_ws_nonws by reflexivity;
    do 2 eexists; split; [reflexivity|lia|reflexivity|lia|reflexivity|lia].
Qed.

(** Read one structural character: it is not whitespace, and the
    parser's test on it is decided. *)
Ltac token :=
  cbn [app]; rewrite skip_ws_nonws by reflexivity;
  repeat first [rewrite decide_True by (done || lia) | rewrite decide_False by lia].

(** The members of an object, given that each member value is read back. *)
Lemma parse_members_ok ms n rest :
  ms <> [] ->
  Forall (fun kv => forall n rest, value_units kv.2 = true -> (vsize kv.2 <= n)%nat ->
                    parse_value n (stringify kv.2 ++ rest) = Some (kv.2, rest)) ms ->
  forallb (fun kv => units_ok kv.1 && value_units kv.2) ms = true ->
  (msize ms <= n)%nat ->
  parse_members n (members ms ++ 125 :: rest) = Some (ms, rest).
Proof.
  revert n. induction ms as [|[k v] r IHr]; intros n Hne Hp Hu Hn; [done|].
  apply Forall_cons in Hp as [Hv Hp]. simpl in Hu. apply andb_prop in Hu as [Hk Hu].
  apply andb_prop in Hk as [Hk Hvu]. unfold units_ok in Hk. apply bool_decide_eq_true in Hk.
  unfold msize in Hn. simpl in Hn. destruct n as [|n]; [lia|].
  rewrite members_cons. unfold member, quote. simpl fst. simpl snd.
  cbn [parse_members]. rewrite <- !app_assoc. token.
  rewrite parse_quote_units by done. token.
  rewrite (Hv n) by (done || simpl; lia).
  destruct r as [|kv' r']; token; [done|].
  rewrite IHr by (done || unfold msize; lia). done.
Qed.

Lemma vsize_pos v : (1 <= vsize v)%nat.
Proof. destruct v; simpl; lia. Qed.

(** The elements after an array's first one, given that each is read back. *)
Lemma parse_elements_ok vs n rest :
  Forall (fun v => value_units v = true -> forall n rest, (vsize v <= n)%nat ->
                   parse_value n (stringify v ++ rest) = Some (v, rest)) vs ->
  forallb value_units vs = true ->
  (esize vs < n)%nat ->
  parse_elements n (flat_map (fun y => 44 :: y) (map stringify vs) ++ 93 :: rest) = Some (vs, rest).
Proof.
  revert n. induction vs as [|v r IHr]; intros n Hp Hu Hn; (destruct n as [|n]; [lia|]).
  - cbn [parse_elements map flat_map app]. by token.
  - apply Forall_cons in Hp as [Hv Hp]. simpl in Hu. apply andb_prop in Hu as [Hvu Hu].
    unfold esize in Hn. simpl in Hn. pose proof (vsize_pos v).
    cbn [parse_elements map flat_map app]. token. rewrite <- app_assoc.
    rewrite (Hv Hvu n) by lia. rewrite IHr by (done || unfold esize; lia). done.
Qed.

(** A serialized value is read back with any fuel above its size. *)
Lemma parse_stringify v :
  value_units v = true -> forall n rest, (vsize v <= n)%nat ->
  parse_value n (stringify v ++ rest) = Some (v, rest).
Proof.
  induction v as [s|vs IH|ms IH] using value_ind'; intros Hu n rest Hn;
    (destruct n as [|n]; [simpl in Hn; lia|]).
  - unfold units_ok in Hu. simpl in Hu. apply bool_decide_eq_true in Hu.
    unfold stringify, quote. cbn [parse_value]. rewrite <- !app_assoc. token.
    cbn [app]. by rewrite parse_quote_units.
  - rewrite stringify_arr. cbn [parse_value]. rewrite <- app_assoc. token.
    destruct vs as [|v vs']; [reflexivity|].
    apply Forall_cons in IH as [Hv IH]. simpl in Hu. apply andb_prop in Hu as [Hvu Hu].
    simpl in Hn. pose proof (vsize_pos v).
    cbn [map]. rewrite join_with_cons, <- !app_assoc.
    destruct (skip_ws_stringify v (flat_map (fun y => 44 :: y) (map stringify vs') ++ [93] ++ rest))
      as (c & t & -> & Hc).
    rewrite decide_False by done. rewrite (Hv Hvu n) by lia. cbn [app].
    rewrite parse_elements_ok by (done || unfold esize; lia). done.
  - rewrite stringify_obj. cbn [parse_value]. rewrite <- app_assoc. token.
    destruct ms as [|kv ms']; [reflexivity|].
    rewrite members_cons at 1. unfold member at 1, quote at 1. rewrite <- !app_assoc. token.
    rewrite parse_members_ok;
      [done|done| |done|unfold msize; simpl in Hn |- *; lia].
    eapply Forall_impl; [exact IH|]. intros [k v] Hv n' r' Hvu Hn'. by apply Hv.
Qed.

Lemma length_members_cons kv r :
  (length (member kv) + length (members r) <= length (members (kv :: r)))%nat.
Proof. rewrite members_cons. destruct r; simpl; rewrite ?length_app; simpl; lia. Qed.

Lemma length_sep_elements vs :
  Forall (fun v => vsize v <= length (stringify v))%nat vs ->
  (esize vs <= length (flat_map (fun y => 44%Z :: y) (map stringify vs)))%nat.
Proof. induction 1; simpl; [lia|]. rewrite length_app. unfold esize in *. simpl. lia. Qed.

(** The size of a value is at most the length of its text: the fuel of [json_parse] suffices. *)
Lemma vsize_le v : (vsize v <= length (stringify v))%nat.
Proof.
  induction v as [s|vs IH|ms IH] using value_ind'; [simpl; lia| |].
  { rewrite stringify_arr, !length_app. destruct vs as [|v vs']; [simpl; lia|].
    apply Forall_cons in IH as [Hv IH]. cbn [map]. rewrite join_with_cons, length_app.
    pose proof (length_sep_elements vs' IH). unfold esize in *. simpl in *. lia. }
  rewrite stringify_obj, !length_app. simpl. enough (msize ms <= length (members ms))%nat by (unfold msize in *; lia).
  induction ms as [|[k v] r IHr]; [simpl; lia|]. apply Forall_cons in IH as [Hv IH].
  pose proof (length_members_cons (k, v) r). specialize (IHr IH).
  unfold member, quote in *. rewrite !length_app in *. unfold msize in *. simpl in *. lia.
Qed.

(** ** Lemmas: the text is well-formed UTF-16 *)

Lemma text_ok_app t1 t2 : text_ok t1 -> text_ok t2 -> text_ok (t1 ++ t2).
Proof. intros [W1 U1] [W2 U2]. split; [by apply well_formed_app|by apply Forall_app]. Qed.

Lemma text_ok_ascii t : Forall (fun c => 0 <= c < 128) t -> text_ok t.
Proof.
  intros H. split; [|eapply Forall_impl; [exact H|]; unfold is_code_unit, in_width; simpl; lia].
  induction H as [|c t Hc _ IH]; [done|]. simpl. unfold is_high_surrogate, is_low_surrogate.
  rewrite !bool_decide_false by lia. done.
Qed.

(** A piece of ASCII text: a literal of the serializer. *)
Ltac text_ascii := apply text_ok_ascii; repeat constructor; lia.

Lemma text_ok_unit c : is_code_unit c -> ~ (0xD800 <= c < 0xE000) -> text_ok [c].
Proof.
  intros Hc Hs. split; [|by constructor]. simpl. unfold is_high_surrogate, is_low_surrogate.
  rewrite !bool_decide_false by lia. done.
Qed.

Lemma lower_hex_ascii t : Forall is_lower_hex t -> Forall (fun c => 0 <= c < 128) t.
Proof. intros H. eapply Forall_impl; [exact H|]. unfold is_lower_hex. lia. Qed.

Lemma text_ok_unicode_escape c : is_code_unit c -> text_ok (unicode_escape c).
Proof.
  intros Hc. unfold is_code_unit, in_width in Hc. simpl in Hc. unfold unicode_escape.
  apply text_ok_app; [text_ascii|].
  apply text_ok_app; apply text_ok_ascii, lower_hex_ascii, hex_byte_lower; [|apply land_255_byte].
  unfold is_byte, in_width. rewrite shiftr_div by lia. simpl. Z.div_mod_to_equations. lia.
Qed.

Lemma text_ok_quote_unit c : is_code_unit c -> ~ (0xD800 <= c < 0xE000) -> text_ok (quote_unit c).
Proof.
  intros Hc Hs. unfold quote_unit, json_escape.
  repeat (case_decide; [text_ascii|]).
  case_decide; [by apply text_ok_unicode_escape|by apply text_ok_unit].
Qed.

Lemma text_ok_quote_units s : Forall is_code_unit s -> text_ok (quote_units s).
Proof.
  induction s as [s IH] using (induction_ltof1 _ (@length _)); unfold ltof in IH.
  destruct s as [|c r]; [done|]. intros Hu. apply Forall_cons in Hu as [Hc Hu]. cbn [quote_units].
  destruct (is_high_surrogate c) eqn:Eh; [destruct r as [|d r']|].
  - by apply text_ok_unicode_escape.
  - apply Forall_cons in Hu as [Hd Hu'].
    destruct (is_low_surrogate d) eqn:El.
    + destruct (IH r' ltac:(simpl; lia) Hu') as [W U]. split; [|by repeat apply Forall_cons_2].
      simpl. by rewrite Eh, El, W.
    + apply text_ok_app; [by apply text_ok_unicode_escape|apply IH; simpl; auto with lia].
  - destruct (is_low_surrogate c) eqn:El; apply text_ok_app; try (apply IH; simpl; auto with lia).
    + by apply text_ok_unicode_escape.
    + unfold is_high_surrogate, is_low_surrogate in *. apply bool_decide_eq_false in Eh, El.
      apply text_ok_quote_unit; [done|lia].
Qed.

Lemma text_ok_join ps : Forall text_ok ps -> text_ok (join_with 44 ps).
Proof.
  induction 1 as [|p ps Hp Hps IH]; [done|]. destruct ps as [|p' ps']; [done|].
  apply text_ok_app; [done|]. apply (text_ok_app [44]); [text_ascii|done].
Qed.

(** [QuoteJSONString] escapes every lone surrogate, so the text of a value
    of code-unit strings is well-formed. *)
Lemma text_ok_stringify v : value_units v = true -> text_ok (stringify v).
Proof.
  induction v as [s|vs IH|ms IH] using value_ind'; intros Hu; simpl in Hu.
  - apply text_ok_app; [text_ascii|].
    unfold units_ok in Hu. apply bool_decide_eq_true in Hu.
    apply text_ok_app; [by apply text_ok_quote_units|text_ascii].
  - rewrite stringify_arr. apply text_ok_app; [text_ascii|].
    apply text_ok_app; [|text_ascii].
    apply text_ok_join. rewrite forallb_forall in Hu. rewrite Forall_forall in IH. rewrite Forall_forall.
    intros t Ht. apply list_elem_of_fmap in Ht as (v & -> & Hv).
    apply IH; [done|]. by apply Hu, list_elem_of_In.
  - rewrite stringify_obj. apply text_ok_app; [text_ascii|].
    apply text_ok_app; [|text_ascii].
    apply text_ok_join. rewrite forallb_forall in Hu. rewrite Forall_forall in IH. rewrite Forall_forall.
    intros t Ht. apply list_elem_of_fmap in Ht as ([k v] & -> & Hkv).
    specialize (IH _ Hkv). apply list_elem_of_In in Hkv. specialize (Hu _ Hkv). simpl in *.
    apply andb_prop in Hu as [Hk Hv]. unfold units_ok in Hk. apply bool_decide_eq_true in Hk.
    unfold member, quote. cbn [fst snd].
    repeat apply text_ok_app; try (text_ascii); auto.
    by apply text_ok_quote_units.
Qed.

(** The bytes of a JSON text, read back as a string and parsed. *)
Lemma json_utf8_roundtrip v :
  value_units v = true -> json_parse (utf8_decode (utf8_encode (stringify v))) = Some v.
Proof.
  intros Hu. destruct (text_ok_stringify v Hu) as [W U]. rewrite utf8_decode_encode by done.
  unfold json_parse. pose proof (vsize_le v).
  rewrite <- (app_nil_r (stringify v)) at 2. by rewrite parse_stringify by (done || lia).
Qed.

(** ** Lemmas: every call of the parser reads at least one character *)

Lemma skip_ws_length l : (length (skip_ws l) <= length l)%nat.
Proof. induction l as [|c l IH]; simpl; [lia|]. destruct (is_ws c); simpl; lia. Qed.

Lemma skip_ws_cons l c r : skip_ws l = c :: r -> (length r < length l)%nat.
Proof. intros E. pose proof (skip_ws_length l) as H. rewrite E in H. simpl in H. lia. Qed.

Lemma prepend_length c o s r l :
  (forall s' r', o = Some (s', r') -> (length r' < l)%nat) ->
  prepend c o = Some (s, r) -> (length r < l)%nat.
Proof. destruct o as [[s' r']|]; simpl; [|done]. intros H [= _ <-]. by eapply H. Qed.

Lemma parse_chars_length l : forall s r, parse_chars l = Some (s, r) -> (length r < length l)%nat.
Proof.
  induction l as [l IH] using (induction_ltof1 _ (@length _)); unfold ltof in IH.
  destruct l as [|c l]; intros s r; simpl; [done|].
  repeat (case_decide || case_match); intros E; simplify_eq; try lia;
    eapply prepend_length; try exact E; intros s' r' E'; apply IH in E'; simpl in *; lia.
Qed.

Lemma parse_length n :
  (forall l v r, parse_value n l = Some (v, r) -> (length r < length l)%nat) /\
  (forall l vs r, parse_elements n l = Some (vs, r) -> (length r < length l)%nat) /\
  (forall l ms r, parse_members n l = Some (ms, r) -> (length r < length l)%nat).
Proof.
  induction n as [|n (IHv & IHe & IHm)]; [done|].
  split_and!; intros l x r; cbn [parse_value parse_elements parse_members];
    destruct (skip_ws l) as [|c r0] eqn:E; try done; apply skip_ws_cons in E;
    repeat (case_decide || case_match); intros Hr; simplify_eq;
    repeat match goal with
    | G : parse_chars _ = Some _ |- _ => apply parse_chars_length in G
    | G : parse_members _ _ = Some _ |- _ => apply IHm in G
    | G : parse_elements _ _ = Some _ |- _ => apply IHe in G
    | G : parse_value _ _ = Some _ |- _ => apply IHv in G
    | G : skip_ws _ = _ :: _ |- _ => apply skip_ws_cons in G
    end; lia.
Qed.

(** An array's first element and the elements after it, read with two
    fuels above the length of the input. *)
Ltac fuel_elements IHv IHe r m :=
  rewrite (IHv r m) by lia; destruct (parse_value m r) as [[? r1]|] eqn:Ev; [|done];
  apply (proj1 (parse_length m)) in Ev; by rewrite (IHe r1 m) by lia.

(** Any two fuels above the length of the input give the same result. *)
Lemma parse_fuel n :
  (forall l m, (length l < n)%nat -> (length l < m)%nat -> parse_value n l = parse_value m l) /\
  (forall l m, (length l < n)%nat -> (length l < m)%nat -> parse_elements n l = parse_elements m l) /\
  (forall l m, (length l < n)%nat -> (length l < m)%nat -> parse_members n l = parse_members m l).
Proof.
  induction n as [|n (IHv & IHe & IHm)]; [split_and!; intros; lia|].
  split_and!; intros l [|m] Hn Hm; try lia; cbn [parse_value parse_elements parse_members];
    destruct (skip_ws l) as [|c r] eqn:E; try done; apply skip_ws_cons in E.
  - repeat case_decide; try done; destruct (skip_ws r) as [|d r'] eqn:E'; try done;
      case_decide; try done.
    + by rewrite (IHm r m) by lia.
    + fuel_elements IHv IHe r m.
  - case_decide; [fuel_elements IHv IHe r m|done].
  - case_decide; [|done]. destruct (parse_chars r) as [[k r1]|] eqn:Ek; [|done].
    apply parse_chars_length in Ek. destruct (skip_ws r1) as [|d r2] eqn:E1; [done|].
    apply skip_ws_cons in E1. case_decide; [|done]. rewrite (IHv r2 m) by lia.
    destruct (parse_value m r2) as [[v r3]|] eqn:Ev; [|done].
    apply (proj1 (parse_length m)) in Ev.
    destruct (skip_ws r3) as [|e r4] eqn:E3; [done|]. apply skip_ws_cons in E3.
    case_decide; [|done]. by rewrite (IHm r4 m) by lia.
Qed.

(** ** Lemmas: what the parser reads from code units is code units *)

Lemma json_hex_value_range c h : json_hex_value c = Some h -> 0 <= h < 16.
Proof. unfold json_hex_value. repeat case_decide; intros E; simplify_eq; lia. Qed.

Lemma json_hex_pair_range a b h : json_hex_pair a b = Some h -> 0 <= h < 256.
Proof.
  unfold json_hex_pair. destruct (json_hex_value a) eqn:Ea; [|done].
  destruct (json_hex_value b) eqn:Eb; [|done]. simpl. intros [= <-].
  apply json_hex_value_range in Ea, Eb. lia.
Qed.

Lemma unescape_range e u : unescape e = Some u -> is_code_unit u.
Proof. unfold unescape, is_code_unit, in_width. repeat case_decide; intros E; simplify_eq; simpl; lia. Qed.

Lemma prepend_units c o s r :
  is_code_unit c ->
  (forall s' r', o = Some (s', r') -> Forall is_code_unit s' /\ Forall is_code_unit r') ->
  prepend c o = Some (s, r) -> Forall is_code_unit s /\ Forall is_code_unit r.
Proof.
  destruct o as [[s' r']|]; simpl; [|done]. intros Hc H [= <- <-].
  destruct (H s' r' eq_refl). split; [by constructor|done].
Qed.

Lemma skip_ws_units l : Forall is_code_unit l -> Forall is_code_unit (skip_ws l).
Proof. induction 1 as [|c l Hc Hl IH]; simpl; [done|]. destruct (is_ws c); [done|by constructor]. Qed.

Lemma parse_chars_units l :
  Forall is_code_unit l -> forall s r, parse_chars l = Some (s, r) ->
  Forall is_code_unit s /\ Forall is_code_unit r.
Proof.
  induction l as [l IH] using (induction_ltof1 _ (@length _)); unfold ltof in IH.
  destruct l as [|c l]; intros Hl s r; simpl; [done|]. apply Forall_cons in Hl as [Hc Hl].
  repeat (case_decide || case_match); intros E; simplify_eq; try done.
  all: eapply prepend_units; [| |exact E]; [|intros s' r' E'; refine (IH _ _ _ s' r' E'); [simpl; lia|];
       repeat (done || apply Forall_cons in Hl as [_ Hl])].
  all: unfold is_code_unit, in_width; simpl.
  all: repeat match goal with
       | G : json_hex_pair _ _ = Some _ |- _ => apply json_hex_pair_range in G
       | G : unescape _ = Some _ |- _ => apply unescape_range in G
       end.
  all: try done; lia.
Qed.

Lemma skip_ws_cons_units l c r : Forall is_code_unit l -> skip_ws l = c :: r -> Forall is_code_unit r.
Proof. intros Hl E. apply skip_ws_units in Hl. rewrite E in Hl. by apply Forall_cons in Hl as [_ Hl]. Qed.

Lemma parse_units n :
  (forall l v r, Forall is_code_unit l -> parse_value n l = Some (v, r) ->
     value_units v = true /\ Forall is_code_unit r) /\
  (forall l vs r, Forall is_code_unit l -> parse_elements n l = Some (vs, r) ->
     forallb value_units vs = true /\ Forall is_code_unit r) /\
  (forall l ms r, Forall is_code_unit l -> parse_members n l = Some (ms, r) ->
     forallb (fun kv => units_ok kv.1 && value_units kv.2) ms = true /\ Forall is_code_unit r).
Proof.
  induction n as [|n (IHv & IHe & IHm)]; [done|].
  split_and!; intros l x r Hl; cbn [parse_value parse_elements parse_members];
    destruct (skip_ws l) as [|c r0] eqn:E; try done; pose proof (skip_ws_cons_units _ _ _ Hl E).
  all: repeat (case_decide || case_match); intros Hr; simplify_eq;
    repeat match goal with
    | G : parse_chars ?l = Some _, F : Forall is_code_unit ?l |- _ =>
        apply (parse_chars_units _ F) in G as [? ?]
    | G : parse_members _ ?l = Some _, F : Forall is_code_unit ?l |- _ => apply (IHm _ _ _ F) in G as [? ?]
    | G : parse_elements _ ?l = Some _, F : Forall is_code_unit ?l |- _ => apply (IHe _ _ _ F) in G as [? ?]
    | G : parse_value _ ?l = Some _, F : Forall is_code_unit ?l |- _ => apply (IHv _ _ _ F) in G as [? ?]
    | G : skip_ws ?l = _ :: _, F : Forall is_code_unit ?l |- _ =>
        apply (skip_ws_cons_units _ _ _ F) in G
    end; simpl; unfold units_ok; rewrite ?bool_decide_eq_true_2 by done; simpl;
    repeat split; try done; by apply andb_true_iff.
Qed.

Lemma json_parse_units t v : Forall is_code_unit t -> json_parse t = Some v -> value_units v = true.
Proof.
  unfold json_parse. intros Ht. destruct (parse_value _ t) as [[v' r]|] eqn:E; [|done].
  apply (proj1 (parse_units _) _ _ _ Ht) in E as [Hv _]. by case_match; intros [= <-].
Qed.

(** ** Properties *)

(** The parser terminates on its own: every recursive call reads at least
    one character, so any fuel beyond the length of the input gives the
    result [json_parse] computes with [length + 1], and no larger fuel
    changes it (the fuel only bounds a recursion that is already
    well-founded on the length of the input). *)
Lemma parse_value_enough_fuel l n :
  (length l < n)%nat -> parse_value n l = parse_value (S (length l)) l.
Proof. intros Hn. apply (proj1 (parse_fuel n)); lia. Qed.


(** C28: [JSON.parse(JSON.stringify(v))] gives [v] back, for every value of
    strings of code units: the serializer's escapes (the short ones, [\u]
    for other control characters and for lone surrogates) are all read
    back, and the fuel [length + 1] suffices. *)
Theorem json_parse_stringify v : value_units v = true -> json_parse (stringify v) = Some v.
Proof.
  intros Hu. unfold json_parse. pose proof (vsize_le v).
  rewrite <- (app_nil_r (stringify v)) at 2. by rewrite parse_stringify by (done || lia).
Qed.

(** ** Concrete runs *)

(** A record whose name holds a lone surrogate, a line feed, a control
    character, a surrogate pair and a quotation mark. *)
Definition v_escapes : value :=
  JObj [(js "alice1", JObj [(js "name", JStr [0xD800; 65; 10; 1; 0xD83D; 0xDE00; 34])])].

Lemma json_parse_stringify_witness :
  value_units v_escapes = true /\ json_parse (stringify v_escapes) = Some v_escapes.
Proof.
  assert (H : value_units v_escapes = true) by (vm_compute; reflexivity).
  exact (conj H (json_parse_stringify v_escapes H)).
Defined.

End Json.
