(* ===== verification/Validator.v ===== *)
(** * The validator of [POST /users] (src/src/index.js, lines 87-89 and 105-123)

    Two checks run on the form fields of a registration: the length test of
    lines 105-116 (every field present, and its length in code units
    strictly between 3 and 50) and [containsInvalidChars] (lines 87-89), the
    regular expression [/[^\d \w]/] applied to the username and the name.
    A form field decoded by [body-parser] is [undefined], a string, or an
    array of strings (a key repeated in the form); the parser never yields
    [null], so the [=== null] tests of the source are always false here.
    [.length] of an array counts its elements, and [containsInvalidChars]
    tests its [toString], the elements joined by commas. *)

From stdpp Require Import base list.
From Stdlib Require Import ZArith.
From S2P Require Import Prelude.

Module Validator.

(** The fields of a form body. *)
Record body := Body { b_username : jsval; b_name : jsval; b_password : jsval }.

Definition len (s : jsstr) : Z := Z.of_nat (length s).

(** [v.length] of a field that is not [undefined]: the code units of a
    string, the elements of an array. *)
Definition js_length (v : jsval) : option Z :=
  match v with
  | VUndef => None
  | VStr s => Some (len s)
  | VArr l => Some (Z.of_nat (length l))
  end.

(** One field's part of the test: [f.length <= 3 || f.length >= 50]. *)
Definition bad_length (n : Z) : bool := (n <=? 3) || (50 <=? n).

(** The condition of lines 105-116, in the source's order: the three
    [undefined] tests first, so no [.length] is read of [undefined]. *)
Definition length_invalid (b : body) : bool :=
  match js_length (b_username b), js_length (b_name b), js_length (b_password b) with
  | Some u, Some n, Some p => bad_length u || bad_length n || bad_length p
  | _, _, _ => true
  end.

(** The characters [\d], [\w] and space stand for: [0-9A-Za-z_ ]. *)
Definition allowed_char (c : Z) : bool :=
  bool_decide (48 <= c <= 57) || bool_decide (c = 32) || bool_decide (65 <= c <= 90) ||
  bool_decide (97 <= c <= 122) || bool_decide (c = 95).

(** [containsInvalidChars(v)]: [RegExp.prototype.test] converts its argument
    with [ToString], so [undefined] is tested as the string "undefined";
    without the [u] flag the class is matched against each code unit. *)
Definition containsInvalidChars (v : jsval) : bool :=
  existsb (fun c => negb (allowed_char c)) (to_js_string v).

(** The condition of line 121. *)
Definition chars_invalid (b : body) : bool :=
  containsInvalidChars (b_username b) || containsInvalidChars (b_name b).

(** The username and name of the spec: strings of 4 to 49 code units
    over [0-9A-Za-z_ ]. *)
Definition names_ok (b : body) : Prop :=
  exists u n, b_username b = VStr u /\ b_name b = VStr n /\
    3 < len u < 50 /\ 3 < len n < 50 /\
    Forall (fun c => allowed_char c = true) u /\ Forall (fun c => allowed_char c = true) n.

(** The contract of the spec: valid names and a password of 4 to 49 code
    units. *)
Definition valid_registration (b : body) : Prop :=
  names_ok b /\ exists p, b_password b = VStr p /\ 3 < len p < 50.

(** ** Lemmas *)

Lemma bad_length_false n : bad_length n = false <-> 3 < n < 50.
Proof. unfold bad_length. rewrite orb_false_iff, Z.leb_gt, Z.leb_gt. lia. Qed.

Lemma containsInvalidChars_false s :
  containsInvalidChars (VStr s) = false <-> Forall (fun c => allowed_char c = true) s.
Proof.
  unfold containsInvalidChars. simpl. induction s as [|c s IH]; simpl; [split; constructor|].
  rewrite orb_false_iff, Forall_cons, IH, negb_false_iff. done.
Qed.

(** Two or more strings joined by commas contain a comma. *)
Lemma join_with_sep sep l : (2 <= length l)%nat -> sep ∈ join_with sep l.
Proof.
  destruct l as [|x [|y r]]; simpl; intros; try lia.
  apply elem_of_app. right. apply elem_of_cons. by left.
Qed.

(** An array of two or more strings fails the character test: the comma
    of its [toString] is not allowed. *)
Lemma array_chars_invalid l : (2 <= length l)%nat -> containsInvalidChars (VArr l) = true.
Proof.
  intros Hl. unfold containsInvalidChars. apply existsb_exists. exists 44.
  split; [apply list_elem_of_In, join_with_sep, Hl | done].
Qed.

Lemma length_invalid_undefined b :
  b_username b = VUndef \/ b_name b = VUndef \/ b_password b = VUndef -> length_invalid b = true.
Proof.
  unfold length_invalid. intros [H|[H|H]]; rewrite H; cbn [js_length]; by repeat case_match.
Qed.

(** The length test passes exactly when the three fields are present and
    each has a [.length] of 4 to 49. *)
Lemma length_invalid_false b :
  length_invalid b = false <->
  exists u n p, js_length (b_username b) = Some u /\ js_length (b_name b) = Some n /\
    js_length (b_password b) = Some p /\ 3 < u < 50 /\ 3 < n < 50 /\ 3 < p < 50.
Proof.
  unfold length_invalid.
  destruct (js_length (b_username b)), (js_length (b_name b)), (js_length (b_password b));
    try naive_solver.
  rewrite !orb_false_iff, !bad_length_false. naive_solver.
Qed.

(** A name field that passes both tests is a string of 4 to 49 allowed
    code units. *)
Lemma name_field_ok v k :
  js_length v = Some k -> 3 < k < 50 -> containsInvalidChars v = false ->
  exists s, v = VStr s /\ 3 < len s < 50 /\ Forall (fun c => allowed_char c = true) s.
Proof.
  destruct v as [|s|l]; cbn [js_length]; intros E Hk Hc; injection E as <- || discriminate E.
  - apply containsInvalidChars_false in Hc. eauto.
  - rewrite array_chars_invalid in Hc by lia. discriminate.
Qed.

(** What passes both checks: valid names, and a password whose
    [.length] is 4 to 49. *)
Lemma checks_cases b :
  length_invalid b = false /\ chars_invalid b = false ->
  valid_registration b \/
  (names_ok b /\ exists ps, b_password b = VArr ps /\ 3 < Z.of_nat (length ps) < 50).
Proof.
  rewrite length_invalid_false. unfold chars_invalid, valid_registration, names_ok.
  rewrite orb_false_iff. intros [(u & n & p & Hu & Hn & Hp & Lu & Ln & Lp) [Cu Cn]].
  destruct (name_field_ok _ _ Hu Lu Cu) as (u' & -> & ?).
  destruct (name_field_ok _ _ Hn Ln Cn) as (n' & -> & ?).
  destruct (b_password b) as [|p'|ps]; injection Hp as <- || discriminate Hp; naive_solver.
Qed.

(** Valid names and a password field of [.length] 4 to 49 pass both
    checks. *)
Lemma checks_pass b :
  names_ok b -> (exists k, js_length (b_password b) = Some k /\ 3 < k < 50) ->
  length_invalid b = false /\ chars_invalid b = false.
Proof.
  intros (u & n & Hu & Hn & Lu & Ln & Cu & Cn) (k & Hk & Lk).
  rewrite length_invalid_false. unfold chars_invalid. rewrite Hu, Hn, orb_false_iff,
    !containsInvalidChars_false. cbn [js_length]. naive_solver.
Qed.

Lemma valid_registration_checks b :
  valid_registration b -> length_invalid b = false /\ chars_invalid b = false.
Proof.
  intros [Hn (p & Hp & Lp)]. apply checks_pass; [done|]. rewrite Hp. by exists (len p).
Qed.

(** ** Properties *)

(** The character test rejects a string exactly when one of its code units
    is outside [0-9A-Za-z_ ]; [undefined] passes it. *)
Theorem containsInvalidChars_spec v :
  containsInvalidChars v = true <->
  exists c, c ∈ to_js_string v /\ allowed_char c = false.
Proof.
  unfold containsInvalidChars. rewrite existsb_exists. setoid_rewrite negb_true_iff.
  setoid_rewrite list_elem_of_In. done.
Qed.

(** C29: The two checks pass exactly when the registration is valid in
    the spec's sense, or when username and name are valid and the
    password is an array of 4 to 49 strings (a form key repeated 4 to 49
    times): [.length] then counts the fields, and the password is never
    tested for characters. *)
Theorem validator_sound_complete b :
  length_invalid b = false /\ chars_invalid b = false <->
  valid_registration b \/
  (names_ok b /\ exists ps, b_password b = VArr ps /\ 3 < Z.of_nat (length ps) < 50).
Proof.
  split; [apply checks_cases|].
  intros [Hv|(Hn & ps & Hp & Lp)]; [by apply valid_registration_checks|].
  apply checks_pass; [done|]. rewrite Hp. by eexists.
Qed.

(** The boundary cases the spec lists: lengths 2 and 50 are rejected,
    4 and 49 accepted; "bad!name" is rejected and "good name 2" accepted. *)
Example validator_spec_cases :
  js_length (VStr (js "ab")) = Some 2 /\ bad_length 2 = true /\
  js_length (VStr (js "abcd")) = Some 4 /\ bad_length 4 = false /\
  bad_length (len (repeat 97 50)) = true /\ bad_length (len (repeat 97 49)) = false /\
  containsInvalidChars (VStr (js "bad!name")) = true /\
  containsInvalidChars (VStr (js "good name 2")) = false.
Proof. vm_compute. repeat split. Qed.

End Validator.
