(* ===== verification/Uri.v ===== *)
(** * [encodeURIComponent] and the error redirects

    Every error answer of src/src/index.js is a redirect to a page with the
    message in the fragment, [page + '#' + encodeURIComponent(msg)] (lines
    117, 122, 141, 157).  [encodeURIComponent] (ECMA-262, Encode with the
    unreserved set [A-Za-z0-9-_.!~*'()]) keeps an unreserved code unit and
    writes every other code point as the percent-escaped, uppercase-hex
    UTF-8 bytes; a lone surrogate throws a [URIError].  This file models it,
    a percent-decoder that inverts it on ASCII text, and the four
    redirect targets. *)

From stdpp Require Import base list.
From Stdlib Require Import ZArith.
From S2P Require Import Prelude Utf8 Json.
Import Utf8 Json.

Module Uri.

Definition is_alnum (c : Z) : bool :=
  bool_decide (48 <= c <= 57) || bool_decide (65 <= c <= 90) || bool_decide (97 <= c <= 122).

(** The unreserved set of [encodeURIComponent]: letters, digits and
    [- _ . ! ~ * ' ( )]. *)
Definition uri_unreserved (c : Z) : bool :=
  is_alnum c || bool_decide (c ∈ js "-_.!~*'()").

Definition hex_upper (n : Z) : Z := if decide (n < 10) then 48 + n else 55 + n.

(** [%XY] for one byte. *)
Definition percent_byte (b : Z) : jsstr := [37; hex_upper (Z.shiftr b 4); hex_upper (Z.land b 15)].

Definition percent_encode (bytes : list Z) : jsstr := flat_map percent_byte bytes.

(** [encodeURIComponent(s)]. *)
Fixpoint encodeURIComponent (s : jsstr) : exn + jsstr :=
  match s with
  | [] => inr []
  | c :: r =>
      if uri_unreserved c then res_map (fun t => c :: t) (encodeURIComponent r)
      else if is_low_surrogate c then inl URIError
      else if is_high_surrogate c then
        match r with
        | d :: r' =>
            if is_low_surrogate d
            then res_map (fun t => percent_encode (utf8_code_point (pair_code_point c d)) ++ t)
                   (encodeURIComponent r')
            else inl URIError
        | [] => inl URIError
        end
      else res_map (fun t => percent_encode (utf8_code_point c) ++ t) (encodeURIComponent r)
  end.

Definition hex_upper_value (c : Z) : option Z :=
  if decide (48 <= c <= 57) then Some (c - 48)
  else if decide (65 <= c <= 70) then Some (c - 55)
  else None.

(** The bytes a percent-encoded string stands for. *)
Fixpoint percent_decode (s : jsstr) : option (list Z) :=
  match s with
  | [] => Some []
  | 37 :: hi :: lo :: r =>
      h ← hex_upper_value hi; l ← hex_upper_value lo; rest ← percent_decode r;
      Some (Z.lor (Z.shiftl h 4) l :: rest)
  | c :: r => if decide (c = 37) then None else (fun t => c :: t) <$> percent_decode r
  end.

(** [decodeURIComponent] (ECMA-262 19.2.6.2, Decode with no preserved
    characters), which qs applies to every key and value of a form body.
    The number of leading one bits of an escaped byte (step 4.c.vi). *)
Definition lead_ones (b : Z) : nat :=
  if decide (b < 0x80) then 0
  else if decide (b < 0xC0) then 1
  else if decide (b < 0xE0) then 2
  else if decide (b < 0xF0) then 3
  else if decide (b < 0xF8) then 4
  else 5.

(** [Octets] "contain a valid UTF-8 encoding of a Unicode code point"
    (step 4.c.viii.6): they are exactly the UTF-8 bytes of the one code
    point the decoder reads from them. *)
Definition octets_code_point (os : list Z) : option Z :=
  match decode dinit os with
  | [cp] => if decide (utf8_code_point cp = os) then Some cp else None
  | _ => None
  end.

(** Steps 4.c.viii.6-8: the code point of the octets, in UTF-16, before
    the rest of the result. *)
Definition push_octets (os : list Z) (rest : exn + jsstr) : exn + jsstr :=
  match octets_code_point os with
  | Some cp => res_map (fun t => code_point_units cp ++ t) rest
  | None => inl URIError
  end.

(** [decodeURIComponent(s)]: an escape [%XY] (hex digits of either case,
    [ParseHexOctet]) is a byte; a byte below 0x80 is its code unit; a lead
    byte with 2 to 4 leading ones takes that many escapes in all, which
    must encode one code point; an escape cut short, a missing [%], a bad
    hex digit, a byte with one or more than four leading ones, or octets
    that are not UTF-8 throw a [URIError]. *)
Fixpoint decodeURIComponent (s : jsstr) : exn + jsstr :=
  match s with
  | [] => inr []
  | c :: r =>
      if decide (c = 37) then
        match r with
        | h :: l :: r0 =>
            match json_hex_pair h l with
            | None => inl URIError
            | Some b =>
                match lead_ones b, r0 with
                | 0%nat, _ => res_map (fun t => b :: t) (decodeURIComponent r0)
                | 2%nat, c1 :: h1 :: l1 :: r1 =>
                    if decide (c1 = 37) then
                      match json_hex_pair h1 l1 with
                      | Some b1 => push_octets [b; b1] (decodeURIComponent r1)
                      | None => inl URIError
                      end
                    else inl URIError
                | 3%nat, c1 :: h1 :: l1 :: c2 :: h2 :: l2 :: r2 =>
                    if decide (c1 = 37 /\ c2 = 37) then
                      match json_hex_pair h1 l1, json_hex_pair h2 l2 with
                      | Some b1, Some b2 => push_octets [b; b1; b2] (decodeURIComponent r2)
                      | _, _ => inl URIError
                      end
                    else inl URIError
                | 4%nat, c1 :: h1 :: l1 :: c2 :: h2 :: l2 :: c3 :: h3 :: l3 :: r3 =>
                    if decide (c1 = 37 /\ c2 = 37 /\ c3 = 37) then
                      match json_hex_pair h1 l1, json_hex_pair h2 l2, json_hex_pair h3 l3 with
                      | Some b1, Some b2, Some b3 =>
                          push_octets [b; b1; b2; b3] (decodeURIComponent r3)
                      | _, _, _ => inl URIError
                      end
                    else inl URIError
                | _, _ => inl URIError
                end
            end
        | _ => inl URIError
        end
      else res_map (fun t => c :: t) (decodeURIComponent r)
  end.

(** The messages and targets of the error redirects. *)
Definition msg_invalid_length : jsstr := js "Error, parameter was of an invalid length.".
Definition msg_invalid_chars : jsstr := js "Error, parameter contained invalid characters.".
Definition msg_no_user : jsstr := js "Error, username does not exist.".
Definition msg_no_match : jsstr := js "Error, password did not match.".

(** [page + '#' + encodeURIComponent(msg)]. *)
Definition error_url (page msg : jsstr) : exn + jsstr :=
  res_map (fun e => page ++ [35] ++ e) (encodeURIComponent msg).

(** ** Lemmas *)

Lemma percent_decode_escape hi lo r :
  percent_decode (37 :: hi :: lo :: r) =
  h ← hex_upper_value hi; l ← hex_upper_value lo; rest ← percent_decode r;
  Some (Z.lor (Z.shiftl h 4) l :: rest).
Proof. reflexivity. Qed.

Lemma percent_byte_decode b r :
  is_byte b -> percent_decode (percent_byte b ++ r) = (fun t => b :: t) <$> percent_decode r.
Proof.
  intros Hb.
  assert (hex_upper_value (hex_upper (Z.shiftr b 4)) = Some (Z.shiftr b 4) /\
          hex_upper_value (hex_upper (Z.land b 15)) = Some (Z.land b 15) /\
          Z.lor (Z.shiftl (Z.shiftr b 4) 4) (Z.land b 15) = b) as (H1 & H2 & H3).
  { revert b Hb. apply (forall_bytes (fun b =>
      hex_upper_value (hex_upper (Z.shiftr b 4)) = Some (Z.shiftr b 4) /\
      hex_upper_value (hex_upper (Z.land b 15)) = Some (Z.land b 15) /\
      Z.lor (Z.shiftl (Z.shiftr b 4) 4) (Z.land b 15) = b)). vm_compute. reflexivity. }
  unfold percent_byte. cbn [app]. rewrite percent_decode_escape, H1, H2.
  cbn [mbind option_bind]. rewrite H3. by destruct (percent_decode r).
Qed.

Lemma percent_decode_unreserved c r :
  uri_unreserved c = true -> percent_decode (c :: r) = (fun t => c :: t) <$> percent_decode r.
Proof.
  intros Hc. assert (c <> 37).
  { intros ->. vm_compute in Hc. discriminate. }
  destruct r as [|x [|y r']]; simpl; rewrite ?decide_False by done;
    destruct c as [|p|p]; try done; repeat (destruct p; try done).
Qed.

(** ** Lemmas: [decodeURIComponent] reads back the escapes of [encodeURIComponent] *)

Lemma unreserved_not_percent c : uri_unreserved c = true -> c <> 37.
Proof. intros Hc ->. vm_compute in Hc. discriminate. Qed.

Lemma json_hex_pair_upper b :
  is_byte b -> json_hex_pair (hex_upper (Z.shiftr b 4)) (hex_upper (Z.land b 15)) = Some b.
Proof.
  revert b. apply (forall_bytes (fun b =>
    json_hex_pair (hex_upper (Z.shiftr b 4)) (hex_upper (Z.land b 15)) = Some b)).
  vm_compute. reflexivity.
Qed.

Lemma decode_plain c t :
  c <> 37 -> decodeURIComponent (c :: t) = res_map (fun x => c :: x) (decodeURIComponent t).
Proof. intros Hc. cbn [decodeURIComponent]. by rewrite decide_False. Qed.

(** Read escapes: each [%], then its two hex digits, then the branch of
    the lead byte. *)
Ltac escapes Hl :=
  unfold percent_byte; cbn [app decodeURIComponent];
  repeat first [ rewrite decide_True by (done || lia)
               | rewrite json_hex_pair_upper by done
               | rewrite Hl ];
  reflexivity.

Lemma decode_escape1 b t :
  is_byte b -> lead_ones b = 0%nat ->
  decodeURIComponent (percent_byte b ++ t) = res_map (fun x => b :: x) (decodeURIComponent t).
Proof. intros Hb Hl. escapes Hl. Qed.

Lemma decode_escape2 b0 b1 t :
  is_byte b0 -> is_byte b1 -> lead_ones b0 = 2%nat ->
  decodeURIComponent (percent_byte b0 ++ percent_byte b1 ++ t) =
  push_octets [b0; b1] (decodeURIComponent t).
Proof. intros H0 H1 Hl. escapes Hl. Qed.

Lemma decode_escape3 b0 b1 b2 t :
  is_byte b0 -> is_byte b1 -> is_byte b2 -> lead_ones b0 = 3%nat ->
  decodeURIComponent (percent_byte b0 ++ percent_byte b1 ++ percent_byte b2 ++ t) =
  push_octets [b0; b1; b2] (decodeURIComponent t).
Proof. intros H0 H1 H2 Hl. escapes Hl. Qed.

Lemma decode_escape4 b0 b1 b2 b3 t :
  is_byte b0 -> is_byte b1 -> is_byte b2 -> is_byte b3 -> lead_ones b0 = 4%nat ->
  decodeURIComponent (percent_byte b0 ++ percent_byte b1 ++ percent_byte b2 ++ percent_byte b3 ++ t) =
  push_octets [b0; b1; b2; b3] (decodeURIComponent t).
Proof. intros H0 H1 H2 H3 Hl. escapes Hl. Qed.

Lemma octets_code_point_utf8 cp : scalar cp -> octets_code_point (utf8_code_point cp) = Some cp.
Proof.
  intros Hs. unfold octets_code_point.
  assert (E : decode dinit (utf8_code_point cp) = [cp]).
  { rewrite <- (app_nil_r (utf8_code_point cp)) at 1. by rewrite decode_code_point. }
  rewrite E. by rewrite decide_True.
Qed.

Lemma push_octets_utf8 cp r :
  scalar cp -> push_octets (utf8_code_point cp) r = res_map (fun x => code_point_units cp ++ x) r.
Proof. intros Hs. unfold push_octets. by rewrite octets_code_point_utf8. Qed.

(** The side conditions on the bytes of a code point: in range, and the
    lead byte's count of leading ones. *)
Ltac byte_facts :=
  first [ unfold is_byte, in_width; simpl; Z.div_mod_to_equations; lia
        | unfold lead_ones; repeat case_decide; try reflexivity; exfalso;
          Z.div_mod_to_equations; lia ].

(** The escapes of one scalar value are read back as its code units. *)
Lemma decode_code_point_escapes cp t :
  scalar cp ->
  decodeURIComponent (percent_encode (utf8_code_point cp) ++ t) =
  res_map (fun x => code_point_units cp ++ x) (decodeURIComponent t).
Proof.
  intros Hs. pose proof Hs as [Hr Hsur].
  destruct (decide (cp < 0x80)); [|destruct (decide (cp < 0x800)); [|destruct (decide (cp < 0x10000))]].
  - rewrite utf8_code_point_ascii by lia. cbn [percent_encode flat_map]. rewrite app_nil_r.
    rewrite decode_escape1 by byte_facts. unfold code_point_units. by rewrite decide_True by lia.
  - rewrite <- (push_octets_utf8 cp) by done. rewrite !utf8_2 by lia.
    cbn [percent_encode flat_map]. rewrite app_nil_r, <- app_assoc. apply decode_escape2; byte_facts.
  - rewrite <- (push_octets_utf8 cp) by done. rewrite !utf8_3 by lia.
    cbn [percent_encode flat_map]. rewrite app_nil_r, <- !app_assoc. apply decode_escape3; byte_facts.
  - rewrite <- (push_octets_utf8 cp) by done. rewrite !utf8_4 by lia.
    cbn [percent_encode flat_map]. rewrite app_nil_r, <- !app_assoc. apply decode_escape4; byte_facts.
Qed.

(** The text [encodeURIComponent] writes holds only unreserved code
    units and [%]: no [+], [&], [=] or bracket. *)
Definition uri_safe (c : Z) : Prop := uri_unreserved c = true \/ c = 37.
#[export] Instance uri_safe_dec c : Decision (uri_safe c).
Proof. unfold uri_safe. apply _. Defined.

Lemma percent_byte_safe b : is_byte b -> Forall uri_safe (percent_byte b).
Proof.
  revert b. apply (forall_bytes (fun b => Forall uri_safe (percent_byte b))).
  vm_compute. reflexivity.
Qed.

Lemma percent_encode_safe cp :
  0 <= cp < 0x110000 -> Forall uri_safe (percent_encode (utf8_code_point cp)).
Proof.
  intros Hcp. apply Forall_flat_map. intros b Hb. apply percent_byte_safe.
  eapply Forall_forall; [apply utf8_code_point_bytes, Hcp|exact Hb].
Qed.

Lemma encodeURIComponent_safe s e :
  Forall is_code_unit s -> encodeURIComponent s = inr e -> Forall uri_safe e.
Proof.
  revert e. induction s as [s IH] using (induction_ltof1 _ (@length _)); unfold ltof in IH.
  destruct s as [|c r]; intros e Hu He; [by injection He as <-|].
  apply Forall_cons in Hu as [Hc Hu]. unfold is_code_unit, in_width in Hc. simpl in Hc, He.
  destruct (uri_unreserved c) eqn:Eu;
    [|destruct (is_low_surrogate c) eqn:El; [discriminate|]; destruct (is_high_surrogate c) eqn:Eh].
  - destruct (encodeURIComponent r) as [|t] eqn:Et; cbn [res_map] in He; [discriminate|injection He as <-].
    constructor; [by left|exact (IH r ltac:(simpl; lia) t Hu Et)].
  - destruct r as [|d r']; [discriminate|]. destruct (is_low_surrogate d) eqn:Ed; [|discriminate].
    destruct (encodeURIComponent r') as [|t] eqn:Et; cbn [res_map] in He; [discriminate|injection He as <-].
    apply Forall_cons in Hu as [_ Hu']. pose proof (pair_code_point_range c d Eh Ed).
    apply Forall_app. split; [apply percent_encode_safe; lia|exact (IH r' ltac:(simpl; lia) t Hu' Et)].
  - destruct (encodeURIComponent r) as [|t] eqn:Et; cbn [res_map] in He; [discriminate|injection He as <-].
    apply Forall_app. split; [apply percent_encode_safe; lia|exact (IH r ltac:(simpl; lia) t Hu Et)].
Qed.

(** ** Properties *)

(** On ASCII text [encodeURIComponent] never throws, and decoding its
    output gives the text back. *)
Theorem encodeURIComponent_ascii_roundtrip s :
  Forall (fun c => 0 <= c < 128) s ->
  exists e, encodeURIComponent s = inr e /\ percent_decode e = Some s.
Proof.
  induction 1 as [|c s Hc _ (e & He & Hd)]; [by exists []|]. simpl.
  destruct (uri_unreserved c) eqn:Hu.
  - rewrite He. eexists; split; [done|]. rewrite percent_decode_unreserved, Hd by done. done.
  - unfold is_low_surrogate, is_high_surrogate. rewrite !bool_decide_false by lia.
    rewrite He, utf8_code_point_ascii by done. eexists; split; [done|].
    change (percent_decode (percent_byte c ++ e) = Some (c :: s)).
    rewrite percent_byte_decode, Hd; [done|].
    unfold is_byte, in_width. simpl. lia.
Qed.

(** [decodeURIComponent] inverts [encodeURIComponent] on every string of
    code units that [encodeURIComponent] accepts (one without a lone
    surrogate): an unreserved code unit is copied, any other code point is
    read back from the escapes of its UTF-8 bytes, a surrogate pair as the
    same two code units. *)
Lemma decodeURIComponent_encodeURIComponent s e :
  Forall is_code_unit s -> encodeURIComponent s = inr e -> decodeURIComponent e = inr s.
Proof.
  revert e. induction s as [s IH] using (induction_ltof1 _ (@length _)); unfold ltof in IH.
  destruct s as [|c r]; intros e Hu He; [by injection He as <-|].
  apply Forall_cons in Hu as [Hc Hu]. unfold is_code_unit, in_width in Hc. simpl in Hc, He.
  destruct (uri_unreserved c) eqn:Eu.
  - destruct (encodeURIComponent r) as [|t] eqn:Et; cbn [res_map] in He; [discriminate|injection He as <-].
    rewrite decode_plain by (by apply unreserved_not_percent). by rewrite (IH r ltac:(simpl; lia) t Hu Et).
  - destruct (is_low_surrogate c) eqn:El; [discriminate|].
    destruct (is_high_surrogate c) eqn:Eh.
    + destruct r as [|d r']; [discriminate|]. destruct (is_low_surrogate d) eqn:Ed; [|discriminate].
      destruct (encodeURIComponent r') as [|t] eqn:Et; cbn [res_map] in He; [discriminate|injection He as <-].
      apply Forall_cons in Hu as [Hd Hu']. pose proof (pair_code_point_range c d Eh Ed).
      rewrite decode_code_point_escapes by (unfold scalar; lia).
      rewrite (IH r' ltac:(simpl; lia) t Hu' Et). simpl. by rewrite code_point_units_pair.
    + destruct (encodeURIComponent r) as [|t] eqn:Et; cbn [res_map] in He; [discriminate|injection He as <-].
      unfold is_low_surrogate, is_high_surrogate in *. apply bool_decide_eq_false in El, Eh.
      rewrite decode_code_point_escapes by (unfold scalar; lia).
      rewrite (IH r ltac:(simpl; lia) t Hu Et). simpl. by rewrite code_point_units_bmp by lia.
Qed.

(** C12: The target of an error redirect, [page + '#' +
    encodeURIComponent(msg)] (lines 117, 122, 141 and 157), is the page, a
    [#], and a fragment made only of unreserved characters and [%XY]
    escapes (no [#], [&], space or comma is left in it), from which
    [decodeURIComponent] recovers the message exactly, whatever its
    characters. *)
Theorem error_url_fragment page msg url :
  Forall is_code_unit msg -> error_url page msg = inr url ->
  exists e, url = page ++ [35] ++ e /\ Forall uri_safe e /\ decodeURIComponent e = inr msg.
Proof.
  intros Hu. unfold error_url. destruct (encodeURIComponent msg) as [x|e] eqn:E; [discriminate|].
  intros [= <-]. exists e. split_and!; [done|exact (encodeURIComponent_safe _ _ Hu E)|].
  exact (decodeURIComponent_encodeURIComponent _ _ Hu E).
Qed.

(** The redirect targets the handlers build. *)
Example error_urls :
  error_url (js "registration.html") msg_invalid_length =
    inr (js "registration.html#Error%2C%20parameter%20was%20of%20an%20invalid%20length.") /\
  error_url (js "registration.html") msg_invalid_chars =
    inr (js "registration.html#Error%2C%20parameter%20contained%20invalid%20characters.") /\
  error_url (js "login.html") msg_no_user =
    inr (js "login.html#Error%2C%20username%20does%20not%20exist.") /\
  error_url (js "login.html") msg_no_match =
    inr (js "login.html#Error%2C%20password%20did%20not%20match.").
Proof. vm_compute. repeat split. Qed.

(** ** Concrete runs *)

Lemma encodeURIComponent_ascii_roundtrip_witness :
  Forall (fun c => 0 <= c < 128) msg_invalid_length /\
  exists e, encodeURIComponent msg_invalid_length = inr e /\ percent_decode e = Some msg_invalid_length.
Proof.
  assert (H : Forall (fun c => 0 <= c < 128) msg_invalid_length)
    by (apply (bool_decide_unpack _); vm_compute; reflexivity).
  exact (conj H (encodeURIComponent_ascii_roundtrip msg_invalid_length H)).
Defined.

(** The message of line 157 after "é": a comma, spaces and a full stop
    escaped as one byte each, "é" as its two UTF-8 bytes. *)
Lemma error_url_fragment_witness :
  Forall is_code_unit ([233] ++ msg_no_match) /\
  error_url (js "login.html") ([233] ++ msg_no_match) =
    inr (js "login.html#%C3%A9Error%2C%20password%20did%20not%20match.") /\
  exists e, js "login.html#%C3%A9Error%2C%20password%20did%20not%20match." = js "login.html" ++ [35] ++ e /\
    Forall uri_safe e /\ decodeURIComponent e = inr ([233] ++ msg_no_match).
Proof.
  assert (H1 : Forall is_code_unit ([233] ++ msg_no_match))
    by (apply (bool_decide_unpack _); vm_compute; reflexivity).
  assert (H2 : error_url (js "login.html") ([233] ++ msg_no_match) =
               inr (js "login.html#%C3%A9Error%2C%20password%20did%20not%20match.")) by (vm_compute; reflexivity).
  exact (conj H1 (conj H2 (error_url_fragment _ _ _ H1 H2))).
Defined.

End Uri.
