(* ===== verification/Form.v ===== *)
(** * Form bodies: body-parser's [urlencoded({extended: true})] and qs

    Line 66 of src/src/index.js installs
    [bodyparser.urlencoded({extended: true})] after the session middleware:
    every request with an [application/x-www-form-urlencoded] body has it
    parsed into [req.body] before the routes run, and the handlers read
    [req.body.username], [req.body.name] and [req.body.password].  The
    parser is not code of the repository; it is defined here from the
    sources of body-parser 1.19 ([lib/types/urlencoded.js], [lib/read.js])
    and qs 6.7 ([lib/parse.js], [lib/utils.js]), which [extended: true]
    selects.

    body-parser answers 415 to a charset other than UTF-8 and 413 to a
    body over 100 kB or with 1000 [&] or more; otherwise it decodes the
    bytes as UTF-8 (dropping a byte order mark) and hands the text to
    [qs.parse].  qs splits it at [&], splits each piece at its first [=]
    (or after its first [\]=]), decodes key and value ([+] is a space,
    then [decodeURIComponent], which keeps a malformed text as it is), and
    gathers the values of a key seen more than once into an array.  A key
    in the bracket syntax ([a[b]], [a[]]) builds nested objects and arrays
    by [parseKeys] and [merge]; that part is not modelled, and [qs_parse]
    returns [None] on such a body.  The absent key, a string, and an array
    of strings are then the three shapes of a field ([jsval]). *)

From stdpp Require Import base gmap list.
From Stdlib Require Import ZArith.
From S2P Require Import Prelude Utf8 Json Validator Uri.
Import Utf8 Json Validator Uri.

Module Form.

(** ** qs *)

(** [s.indexOf(c)]. *)
Fixpoint index_of (c : Z) (s : jsstr) : option nat :=
  match s with
  | [] => None
  | d :: r => if decide (d = c) then Some 0%nat else S <$> index_of c r
  end.

(** [s.indexOf(']=')]. *)
Fixpoint index_of_bracket_eq (s : jsstr) : option nat :=
  match s with
  | d :: ((e :: _) as r) =>
      if decide (d = 93 /\ e = 61) then Some 0%nat else S <$> index_of_bracket_eq r
  | _ => None
  end.

(** [s.split(sep)]: the pieces between the separators, an empty text
    being one empty piece. *)
Fixpoint split_on (sep : Z) (s : jsstr) : list jsstr :=
  match s with
  | [] => [[]]
  | c :: r =>
      if decide (c = sep) then [] :: split_on sep r
      else match split_on sep r with
           | x :: xs => (c :: x) :: xs
           | [] => [[c]]
           end
  end.

(** body-parser's [parameterLimit]. *)
Definition parameterLimit : nat := 1000.

(** [utils.decode]: [+] is a space, then [decodeURIComponent]; when that
    throws, the text with its spaces is kept. *)
Definition plus_to_space (s : jsstr) : jsstr := (fun c => if decide (c = 43) then 32 else c) <$> s.

Definition qs_decode (s : jsstr) : jsstr :=
  match decodeURIComponent (plus_to_space s) with
  | inr t => t
  | inl _ => plus_to_space s
  end.

(** One piece of [parseValues]: split after the first [\]=], else at the
    first [=]; a piece without [=] is a key with the empty value. *)
Definition parse_part (part : jsstr) : jsstr * jsstr :=
  let pos := match index_of_bracket_eq part with
             | Some i => Some (S i)
             | None => index_of 61 part
             end in
  match pos with
  | None => (qs_decode part, [])
  | Some p => (qs_decode (take p part), qs_decode (drop (S p) part))
  end.

(** [utils.combine(obj[key], val)], that is [[].concat(a, b)]: the values
    of [parseValues] are strings and arrays of strings, never
    [undefined]. *)
Definition combine (a : jsval) (v : jsstr) : jsval :=
  match a with
  | VArr l => VArr (l ++ [v])
  | VStr s => VArr [s; v]
  | VUndef => VArr [v]
  end.

(** The loop of [parseValues] on one piece: [has.call(obj, key)] sees the
    own properties only, and [obj['__proto__'] = val] with a string value
    changes nothing. *)
Definition add_value (obj : gmap jsstr jsval) (kv : jsstr * jsstr) : gmap jsstr jsval :=
  let '(k, v) := kv in
  match obj !! k with
  | Some a => <[k := combine a v]> obj
  | None => if decide (k = js "__proto__") then obj else <[k := VStr v]> obj
  end.

(** The pieces of a body, [cleanStr.split('&', parameterLimit)], parsed. *)
Definition parts (s : jsstr) : list (jsstr * jsstr) :=
  parse_part <$> take parameterLimit (split_on 38 s).

Definition parse_values (s : jsstr) : gmap jsstr jsval := foldl add_value ∅ (parts s).

(** The bracket syntax of [parseKeys]: [/(\[[^[\]]*])/] matches a key
    exactly when a [[] is followed, somewhere after it, by a [\]] (the
    last [[] before that [\]] and the first [\]] after it delimit a
    match). *)
Definition has_brackets (k : jsstr) : bool :=
  match index_of 91 k with
  | Some i => bool_decide (93 ∈ drop (S i) k)
  | None => false
  end.

(** [qs.parse(str)]: the empty text gives [{}]; when no key uses the
    bracket syntax, [parseKeys] drops the empty key and puts every other
    key on an object of its own, and [merge] copies these distinct keys
    onto the result.  [None]: a key in the bracket syntax. *)
Definition qs_parse (s : jsstr) : option (gmap jsstr jsval) :=
  if decide (s = []) then Some ∅
  else
    let obj := parse_values s in
    if bool_decide (map_Forall (fun k _ => has_brackets k = false) obj)
    then Some (delete [] obj) else None.

(** The three fields the handlers read: an own property of [req.body],
    or [undefined] ([Object.prototype] has none of these names). *)
Definition field_of (o : gmap jsstr jsval) (k : String.string) : jsval := default VUndef (o !! js k).

Definition body_of (o : gmap jsstr jsval) : body :=
  Body (field_of o "username") (field_of o "name") (field_of o "password").

Definition empty_body : body := Body VUndef VUndef VUndef.

(** ** body-parser *)

(** [parameterCount(body, parameterLimit)]: the number of [&], or
    [undefined] once it reaches the limit. *)
Definition parameter_count (s : jsstr) : option nat :=
  let n := length (filter (fun c => c = 38) s) in
  if decide (n < parameterLimit)%nat then Some n else None.

(** The [limit] option's default, ['100kb']. *)
Definition body_limit : Z := 102400.

(** [getCharset(req)] compares the [charset] parameter, lowercased, with
    "utf-8"; an absent or empty one stands for it. *)
Definition ascii_lower (s : jsstr) : jsstr := (fun c => if decide (65 <= c <= 90) then c + 32 else c) <$> s.

Definition charset_ok (cs : option jsstr) : bool :=
  match cs with
  | None => true
  | Some c => bool_decide (ascii_lower c = []) || bool_decide (ascii_lower c = js "utf-8")
  end.

(** iconv-lite's decoding drops a leading byte order mark. *)
Definition strip_bom (s : jsstr) : jsstr :=
  match s with
  | c :: r => if decide (c = 0xFEFF) then r else s
  | [] => []
  end.

(** A request body as the middleware sees it: none, or not
    [application/x-www-form-urlencoded] ([None]); or such a body, with the
    [charset] parameter of its [Content-Type] and its bytes. *)
Definition form := option (option jsstr * list Z).

(** [urlencodedParser(req, res, next)]: the body, or the status of the
    error passed to [next]; [None] when [qs.parse] meets the bracket
    syntax. *)
Definition urlencoded (f : form) : option (Z + body) :=
  match f with
  | None => Some (inr empty_body)
  | Some (cs, bytes) =>
      if negb (charset_ok cs) then Some (inl 415)
      else if decide (body_limit < Z.of_nat (length bytes)) then Some (inl 413)
      else
        let str := strip_bom (utf8_decode bytes) in
        if decide (str = []) then Some (inr empty_body)
        else match parameter_count str with
             | None => Some (inl 413)
             | Some _ => inr ∘ body_of <$> qs_parse str
             end
  end.

(** ** The browser's side *)

(** The [application/x-www-form-urlencoded] serializer of the URL
    standard, with which a browser submits a form: the UTF-8 bytes of the
    text, a space as [+], [*-._], digits and ASCII letters as themselves,
    any other byte as [%XY]. *)
Definition form_byte (b : Z) : jsstr :=
  if decide (b = 32) then [43]
  else if decide (b = 42 \/ b = 45 \/ b = 46 \/ b = 95 \/ 48 <= b <= 57 \/
                  65 <= b <= 90 \/ 97 <= b <= 122) then [b]
  else percent_byte b.

Definition form_urlencode (s : jsstr) : jsstr := flat_map form_byte (utf8_encode s).


(** Any form, its fields [kvs] in order, as a browser submits it: each
    [name=value] serialized, the pieces joined by [&]. *)
Definition form_piece (kv : jsstr * jsstr) : jsstr := form_urlencode kv.1 ++ 61 :: form_urlencode kv.2.

Definition form_body (kvs : list (jsstr * jsstr)) : jsstr := join_with 38 (form_piece <$> kvs).

(** ** What a field holds: the reference definition *)

(** The values given for a key, in order. *)
Definition values_of (k : jsstr) (kvs : list (jsstr * jsstr)) : list jsstr :=
  snd <$> filter (fun kv => kv.1 = k) kvs.

(** No value: [undefined]; one: the string; more: the array of them. *)
Definition field_value (vs : list jsstr) : jsval :=
  match vs with
  | [] => VUndef
  | [v] => VStr v
  | _ => VArr vs
  end.

(** ** Lemmas: [parseValues] *)

Lemma values_of_snoc k kvs k' v :
  values_of k (kvs ++ [(k', v)]) = values_of k kvs ++ (if decide (k' = k) then [v] else []).
Proof.
  unfold values_of. rewrite filter_app, fmap_app. simpl. unfold filter at 2. simpl.
  by case_decide.
Qed.

Lemma combine_field_value vs v :
  vs <> [] -> combine (field_value vs) v = field_value (vs ++ [v]).
Proof. destruct vs as [|x [|y r]]; done. Qed.

(** The object [parseValues] builds holds, under each key but
    [__proto__], the values given for it. *)
Lemma foldl_add_value kvs k :
  k <> js "__proto__" ->
  foldl add_value ∅ kvs !! k =
  match values_of k kvs with [] => None | vs => Some (field_value vs) end.
Proof.
  intros Hk. induction kvs as [|[k' v] kvs IH] using rev_ind; [done|].
  rewrite foldl_app, values_of_snoc. cbn [foldl add_value].
  destruct (foldl add_value ∅ kvs !! k') as [a|] eqn:Ek'.
  - rewrite lookup_insert. case_decide as Hkk; [subst k'|rewrite app_nil_r; apply IH].
    rewrite IH in Ek'. destruct (values_of k kvs) as [|x r] eqn:Ev; [done|].
    assert (a = field_value (x :: r)) as -> by congruence.
    rewrite combine_field_value by done. by destruct r.
  - case_decide as Hp.
    + subst k'. rewrite decide_False, app_nil_r by done. apply IH.
    + rewrite lookup_insert. case_decide as Hkk; [subst k'|rewrite app_nil_r; apply IH].
      rewrite IH in Ek'. by destruct (values_of k kvs).
Qed.

(** Every key of the object is the key of a piece. *)
Lemma foldl_add_value_keys kvs k x : foldl add_value ∅ kvs !! k = Some x -> k ∈ kvs.*1.
Proof.
  induction kvs as [|[k' v] kvs IH] using rev_ind; [done|].
  rewrite foldl_app, fmap_app, elem_of_app. cbn [foldl add_value fmap list_fmap fst].
  destruct (foldl add_value ∅ kvs !! k') eqn:Ek'; [|case_decide];
    rewrite ?lookup_insert; try case_decide; subst; intros Hx; set_solver.
Qed.

Lemma default_field k kvs :
  default VUndef (match values_of k kvs with [] => None | vs => Some (field_value vs) end) =
  field_value (values_of k kvs).
Proof. by destruct (values_of k kvs). Qed.

(** Two distinct literals. *)
Ltac literals_differ := let E := fresh in intros E; vm_compute in E; discriminate E.

(** ** Lemmas: the form a browser sends is read back *)

(** Induction on a well-formed string, one code point at a time. *)
Lemma text_ok_ind (P : jsstr -> Prop) :
  P [] ->
  (forall c r, is_code_unit c -> ~ (0xD800 <= c < 0xE000) -> text_ok r -> P r -> P (c :: r)) ->
  (forall c d r, is_high_surrogate c = true -> is_low_surrogate d = true -> text_ok r -> P r ->
     P (c :: d :: r)) ->
  forall s, text_ok s -> P s.
Proof.
  intros H0 H1 H2 s. induction s as [s IH] using (induction_ltof1 _ (@length _)); unfold ltof in IH.
  destruct s as [|c r]; intros [Hw Hu]; [done|]. apply Forall_cons in Hu as [Hc Hu]. simpl in Hw.
  destruct (is_high_surrogate c) eqn:Eh.
  - destruct r as [|d r']; [done|]. apply andb_prop in Hw as [Hd Hw].
    apply Forall_cons in Hu as [_ Hu']. apply H2; [done|done|split; done|].
    apply IH; [simpl; lia|split; done].
  - apply andb_prop in Hw as [Hl Hw]. apply negb_true_iff in Hl.
    unfold is_high_surrogate, is_low_surrogate in Eh, Hl. apply bool_decide_eq_false in Eh, Hl.
    apply H1; [done|lia|split; done|]. apply IH; [simpl; lia|split; done].
Qed.

Lemma form_urlencode_unit c r :
  ~ (0xD800 <= c < 0xE000) ->
  form_urlencode (c :: r) = flat_map form_byte (utf8_code_point c) ++ form_urlencode r.
Proof.
  intros Hs. unfold form_urlencode. cbn [utf8_encode]. unfold is_high_surrogate, is_low_surrogate.
  rewrite !bool_decide_false by lia. apply flat_map_app.
Qed.

Lemma form_urlencode_pair c d r :
  is_high_surrogate c = true -> is_low_surrogate d = true ->
  form_urlencode (c :: d :: r) =
  flat_map form_byte (utf8_code_point (pair_code_point c d)) ++ form_urlencode r.
Proof. intros Hc Hd. unfold form_urlencode. cbn [utf8_encode]. rewrite Hc, Hd. apply flat_map_app. Qed.

(** A code unit of the text a browser sends: what [encodeURIComponent]
    leaves, or [+]. *)
Definition form_safe (c : Z) : Prop := uri_safe c \/ c = 43.
#[export] Instance form_safe_dec c : Decision (form_safe c).
Proof. unfold form_safe. apply _. Defined.

Lemma form_byte_safe b : is_byte b -> Forall form_safe (form_byte b).
Proof. revert b. apply (forall_bytes (fun b => Forall form_safe (form_byte b))). vm_compute. reflexivity. Qed.

Lemma form_point_safe cp : 0 <= cp < 0x110000 -> Forall form_safe (flat_map form_byte (utf8_code_point cp)).
Proof.
  intros Hcp. apply Forall_flat_map. intros b Hb. apply form_byte_safe.
  eapply Forall_forall; [apply utf8_code_point_bytes, Hcp|exact Hb].
Qed.

Lemma plus_to_space_app s t : plus_to_space (s ++ t) = plus_to_space s ++ plus_to_space t.
Proof. apply fmap_app. Qed.

(** One byte below 0x80, as the browser writes it and qs reads it. *)
Lemma decode_form_ascii b t :
  0 <= b < 0x80 ->
  decodeURIComponent (plus_to_space (form_byte b) ++ t) = res_map (fun x => b :: x) (decodeURIComponent t).
Proof.
  intros Hb. assert (Hbyte : is_byte b) by (unfold is_byte, in_width; simpl; lia).
  assert (Hc : forall b, is_byte b ->
    (plus_to_space (form_byte b) = [b] /\ b <> 37) \/ plus_to_space (form_byte b) = percent_byte b)
    by (apply (forall_bytes (fun b => (plus_to_space (form_byte b) = [b] /\ b <> 37) \/
                                      plus_to_space (form_byte b) = percent_byte b));
        vm_compute; reflexivity).
  destruct (Hc b Hbyte) as [[-> Hn] | ->]; [by apply decode_plain|].
  apply decode_escape1; [done|]. unfold lead_ones. by rewrite decide_True by lia.
Qed.

Lemma high_bytes_form bs :
  Forall (fun b => 0x80 <= b < 0x100) bs -> plus_to_space (flat_map form_byte bs) = percent_encode bs.
Proof.
  assert (E : forall b, is_byte b -> 0x80 <= b < 0x100 -> plus_to_space (form_byte b) = percent_byte b)
    by (apply (forall_bytes (fun b => 0x80 <= b < 0x100 -> plus_to_space (form_byte b) = percent_byte b));
        vm_compute; reflexivity).
  induction 1 as [|b bs Hb _ IH]; [done|]. cbn [flat_map]. rewrite plus_to_space_app, IH, E; [done| |done].
  unfold is_byte, in_width. simpl. lia.
Qed.

Lemma utf8_high_bytes cp :
  0x80 <= cp < 0x110000 -> Forall (fun b => 0x80 <= b < 0x100) (utf8_code_point cp).
Proof.
  intros H. destruct (decide (cp < 0x800)); [|destruct (decide (cp < 0x10000))].
  - rewrite utf8_2 by lia. repeat constructor; Z.div_mod_to_equations; lia.
  - rewrite utf8_3 by lia. repeat constructor; Z.div_mod_to_equations; lia.
  - rewrite utf8_4 by lia. repeat constructor; Z.div_mod_to_equations; lia.
Qed.

(** One code point, as the browser writes it and qs reads it. *)
Lemma decode_form_point cp t :
  scalar cp ->
  decodeURIComponent (plus_to_space (flat_map form_byte (utf8_code_point cp)) ++ t) =
  res_map (fun x => code_point_units cp ++ x) (decodeURIComponent t).
Proof.
  intros Hs. pose proof Hs as [Hr _]. destruct (decide (cp < 0x80)).
  - rewrite utf8_code_point_ascii by lia. cbn [flat_map]. rewrite app_nil_r.
    rewrite decode_form_ascii by lia. unfold code_point_units. by rewrite decide_True by lia.
  - rewrite high_bytes_form by (apply utf8_high_bytes; lia). by apply decode_code_point_escapes.
Qed.

(** The text a browser writes for a string is read back by qs. *)
Lemma decode_form_urlencode s :
  text_ok s -> forall t,
  decodeURIComponent (plus_to_space (form_urlencode s) ++ t) =
  res_map (fun x => s ++ x) (decodeURIComponent t).
Proof.
  intros Hs. pattern s. revert s Hs. apply text_ok_ind.
  - intros t. symmetry. apply res_map_id.
  - intros c r Hc Hs _ IH t. rewrite form_urlencode_unit, plus_to_space_app, <- app_assoc by done.
    rewrite decode_form_point by (unfold is_code_unit, in_width in Hc; split; simpl in Hc; lia).
    rewrite IH, res_map_res_map. unfold code_point_units. rewrite decide_True by (unfold is_code_unit, in_width in Hc; simpl in Hc; lia).
    done.
  - intros c d r Hc Hd _ IH t. pose proof (pair_code_point_range c d Hc Hd).
    rewrite form_urlencode_pair, plus_to_space_app, <- app_assoc by done.
    rewrite decode_form_point by (split; lia). rewrite IH, res_map_res_map, code_point_units_pair by done.
    done.
Qed.

Lemma qs_decode_form s : text_ok s -> qs_decode (form_urlencode s) = s.
Proof.
  intros Hs. unfold qs_decode. pose proof (decode_form_urlencode s Hs []) as E.
  rewrite app_nil_r in E. rewrite E. simpl. by rewrite app_nil_r.
Qed.

Lemma form_urlencode_safe s : text_ok s -> Forall form_safe (form_urlencode s).
Proof.
  revert s. apply text_ok_ind; [constructor| |].
  - intros c r Hc Hs _ IH. rewrite form_urlencode_unit by done. apply Forall_app. split; [|done].
    apply form_point_safe. unfold is_code_unit, in_width in Hc. simpl in Hc. lia.
  - intros c d r Hc Hd _ IH. pose proof (pair_code_point_range c d Hc Hd).
    rewrite form_urlencode_pair by done. apply Forall_app. split; [|done]. apply form_point_safe. lia.
Qed.

Lemma form_safe_ascii c : form_safe c -> 0 <= c < 128.
Proof.
  intros [[Hu|Hp]|Hp]; [|subst; lia|subst; lia]. revert Hu. unfold uri_unreserved, is_alnum.
  destruct (decide (0 <= c < 128)); [done|]. rewrite !bool_decide_false by lia. simpl.
  intros Hin. apply bool_decide_eq_true, list_elem_of_In in Hin. vm_compute in Hin. lia.
Qed.

(** ** Lemmas: the pieces of a body *)

Lemma split_on_single sep x : sep ∉ x -> split_on sep x = [x].
Proof.
  induction x as [|c x IH]; intros Hx; [done|]. simpl. rewrite decide_False by set_solver.
  rewrite IH by set_solver. done.
Qed.

Lemma split_on_app sep x y : sep ∉ x -> split_on sep (x ++ sep :: y) = x :: split_on sep y.
Proof.
  induction x as [|c x IH]; intros Hx; simpl; [by rewrite decide_True|].
  rewrite decide_False by set_solver. rewrite IH by set_solver. done.
Qed.

Lemma index_of_app c x y : c ∉ x -> index_of c (x ++ c :: y) = Some (length x).
Proof.
  induction x as [|d x IH]; intros Hx; simpl; [by rewrite decide_True|].
  rewrite decide_False by set_solver. rewrite IH by set_solver. done.
Qed.

Lemma index_of_bracket_eq_none s : 93 ∉ s -> index_of_bracket_eq s = None.
Proof.
  induction s as [|d s IH]; intros Hs; [done|]. destruct s as [|e s]; [done|].
  change (index_of_bracket_eq (d :: e :: s)) with
    (if decide (d = 93 /\ e = 61) then Some 0%nat else S <$> index_of_bracket_eq (e :: s)).
  rewrite decide_False by set_solver. rewrite IH by set_solver. done.
Qed.

(** A piece [key=value] whose key has no [=] and no bracket. *)
Lemma parse_part_kv k e :
  61 ∉ k -> 93 ∉ k -> 93 ∉ e -> parse_part (k ++ 61 :: e) = (qs_decode k, qs_decode e).
Proof.
  intros H1 H2 H3. unfold parse_part.
  rewrite index_of_bracket_eq_none, index_of_app by set_solver.
  rewrite take_app_length, drop_app_ge by lia.
  by replace (S (length k) - length k)%nat with 1%nat by lia.
Qed.

Lemma form_safe_not c s : Forall form_safe s -> c ∈ [38; 61; 91; 93] -> c ∉ s.
Proof.
  intros Hs Hc Hin. rewrite Forall_forall in Hs. specialize (Hs _ Hin).
  destruct Hs as [[Hu|Hp]|Hp]; [|subst; set_solver|subst; set_solver].
  repeat (apply elem_of_cons in Hc as [->|Hc]; [vm_compute in Hu; discriminate|]). set_solver.
Qed.


(** The code units of a text, read as bytes and decoded, are the text. *)
Lemma utf8_decode_ascii t : Forall (fun c => 0 <= c < 128) t -> utf8_decode t = t.
Proof.
  intros Ht. destruct (text_ok_ascii t Ht) as [W U].
  rewrite <- (utf8_encode_ascii t Ht) at 1. by apply utf8_decode_encode.
Qed.

(** No bracket and no [&] or [=] in what the browser writes. *)
Ltac not_in_form :=
  repeat (apply not_elem_of_app; split);
  try (apply not_elem_of_cons; split; [lia|]);
  first [ eapply form_safe_not; [apply form_urlencode_safe; assumption|set_solver]
        | apply (bool_decide_unpack _); vm_compute; reflexivity ].




(** ** Lemmas: any form a browser sends *)

Lemma split_on_join sep xs :
  xs <> [] -> Forall (fun x => sep ∉ x) xs -> split_on sep (join_with sep xs) = xs.
Proof.
  intros Hne Hx. induction Hx as [|x xs Hx Hxs IH]; [done|].
  destruct xs as [|y xs]; [by apply split_on_single|].
  change (join_with sep (x :: y :: xs)) with (x ++ sep :: join_with sep (y :: xs)).
  rewrite split_on_app by done. f_equal. by apply IH.
Qed.

Lemma filter_not_elem (c : Z) (s : jsstr) : c ∉ s -> filter (fun x => x = c) s = [].
Proof.
  induction s as [|d s IH]; intros Hs; [done|].
  rewrite filter_cons, decide_False, IH by set_solver. done.
Qed.

(** A text joined by [&] from pieces without one has one [&] fewer than
    pieces. *)
Lemma filter_join_with (sep : Z) (xs : list jsstr) :
  Forall (fun x => sep ∉ x) xs ->
  length (filter (fun c => c = sep) (join_with sep xs)) = pred (length xs).
Proof.
  induction 1 as [|x xs Hx Hxs IH]; [done|].
  destruct xs as [|y xs]; [by rewrite filter_not_elem|].
  change (join_with sep (x :: y :: xs)) with (x ++ sep :: join_with sep (y :: xs)).
  rewrite filter_app, filter_not_elem, filter_cons, decide_True by done.
  cbn [app length]. rewrite IH. done.
Qed.

Lemma join_with_prefix sep x r : exists t, join_with sep (x :: r) = x ++ t.
Proof. destruct r; eexists; [by rewrite app_nil_r|reflexivity]. Qed.

Lemma form_piece_no_amp kv : text_ok kv.1 -> text_ok kv.2 -> 38 ∉ form_piece kv.
Proof. destruct kv as [k v]. unfold form_piece. cbn [fst snd]. intros Hk Hv. not_in_form. Qed.

Lemma form_piece_part kv : text_ok kv.1 -> text_ok kv.2 -> parse_part (form_piece kv) = kv.
Proof.
  destruct kv as [k v]. unfold form_piece. cbn [fst snd]. intros Hk Hv.
  rewrite parse_part_kv by not_in_form. by rewrite !qs_decode_form.
Qed.

Lemma parse_form_pieces kvs :
  Forall (fun kv => text_ok kv.1 /\ text_ok kv.2) kvs -> parse_part <$> (form_piece <$> kvs) = kvs.
Proof. induction 1 as [|kv kvs [Hk Hv] _ IH]; [done|]. cbn [fmap list_fmap]. by rewrite form_piece_part, IH. Qed.

Lemma form_body_ascii kvs :
  Forall (fun kv => text_ok kv.1 /\ text_ok kv.2) kvs -> Forall (fun c => 0 <= c < 128) (form_body kvs).
Proof.
  intros H. apply Forall_join_with; [lia|]. apply Forall_fmap. eapply Forall_impl; [exact H|].
  intros [k v] [Hk Hv]. unfold compose, form_piece. cbn [fst snd]. apply Forall_app.
  split; [|constructor; [lia|]];
    (eapply Forall_impl; [apply form_urlencode_safe; assumption|apply form_safe_ascii]).
Qed.

Lemma form_body_nonempty kvs : kvs <> [] -> form_body kvs <> [].
Proof.
  destruct kvs as [|[k v] kvs]; [done|]. intros _. unfold form_body. cbn [fmap list_fmap].
  destruct (join_with_prefix 38 (form_piece (k, v)) (form_piece <$> kvs)) as [t ->].
  unfold form_piece. cbn [fst snd]. intros E. apply app_eq_nil in E as [E _].
  apply app_eq_nil in E as [_ E]. discriminate E.
Qed.

Lemma strip_bom_ascii s : Forall (fun c => 0 <= c < 128) s -> strip_bom s = s.
Proof. destruct 1; simpl; [done|]. by rewrite decide_False by lia. Qed.



(** What the handlers read from a body whose pieces are [kvs] and whose
    keys do not use the bracket syntax. *)
Lemma qs_parse_parts s kvs :
  s <> [] -> parts s = kvs -> Forall (fun kv => has_brackets kv.1 = false) kvs ->
  (inr ∘ body_of <$> qs_parse s : option (Z + body)) =
  Some (inr (Body (field_value (values_of (js "username") kvs))
                  (field_value (values_of (js "name") kvs))
                  (field_value (values_of (js "password") kvs)))).
Proof.
  intros Hs Hp Hb. unfold qs_parse. rewrite decide_False by done. unfold parse_values.
  rewrite Hp, bool_decide_true.
  - cbn [fmap option_fmap option_map compose]. unfold body_of, field_of.
    rewrite !lookup_delete_ne, !foldl_add_value, !default_field by literals_differ. reflexivity.
  - intros k x Hk. apply foldl_add_value_keys, list_elem_of_fmap in Hk as ([k' v] & -> & Hin).
    rewrite Forall_forall in Hb. exact (Hb _ Hin).
Qed.

(** ** Properties *)

(** C13: Any form a browser submits, its fields [kvs] in order (names
    without the bracket syntax, at most 1000 fields, 100 kB at most),
    reaches the handlers as: [undefined] for a field not given, the string
    for a field given once, and the array of all its values, in order, for
    a field given more than once. *)
Theorem urlencoded_form_fields kvs :
  Forall (fun kv => text_ok kv.1 /\ text_ok kv.2 /\ has_brackets kv.1 = false) kvs ->
  (length kvs <= 1000)%nat -> Z.of_nat (length (form_body kvs)) <= body_limit ->
  urlencoded (Some (None, form_body kvs)) =
  Some (inr (Body (field_value (values_of (js "username") kvs))
                  (field_value (values_of (js "name") kvs))
                  (field_value (values_of (js "password") kvs)))).
Proof.
  intros Hkv Hn Hl.
  assert (Ht : Forall (fun kv => text_ok kv.1 /\ text_ok kv.2) kvs)
    by (eapply Forall_impl; [exact Hkv|naive_solver]).
  assert (Hamp : Forall (fun x => 38 ∉ x) (form_piece <$> kvs)).
  { apply Forall_fmap. eapply Forall_impl; [exact Ht|]. intros kv [Hk Hv]. by apply form_piece_no_amp. }
  unfold urlencoded. cbn [charset_ok negb]. rewrite decide_False by lia.
  rewrite utf8_decode_ascii, strip_bom_ascii by (by apply form_body_ascii).
  destruct (decide (kvs = [])) as [->|Hne]; [reflexivity|].
  rewrite decide_False by (by apply form_body_nonempty).
  assert (Hc : parameter_count (form_body kvs) = Some (pred (length kvs))).
  { unfold parameter_count, form_body. rewrite filter_join_with, length_fmap by done.
    rewrite decide_True by (unfold parameterLimit; lia). done. }
  rewrite Hc. apply qs_parse_parts; [by apply form_body_nonempty| |eapply Forall_impl; [exact Hkv|naive_solver]].
  unfold parts, form_body. rewrite split_on_join by (done || by destruct kvs).
  rewrite take_ge by (rewrite length_fmap; unfold parameterLimit; lia). by apply parse_form_pieces.
Qed.



(** ** Concrete runs *)

#[local] Instance text_ok_dec t : Decision (text_ok t).
Proof. unfold text_ok. apply _. Defined.

(** A form with a space, an "é" and a repeated [password]. *)
Definition sample_fields : list (jsstr * jsstr) :=
  [(js "username", js "bob1"); (js "name", [66; 111; 98; 32; 233]);
   (js "password", js "ab+c"); (js "password", js "d&e")].

Lemma urlencoded_form_fields_witness :
  Forall (fun kv => text_ok kv.1 /\ text_ok kv.2 /\ has_brackets kv.1 = false) sample_fields /\
  (length sample_fields <= 1000)%nat /\ Z.of_nat (length (form_body sample_fields)) <= body_limit /\
  urlencoded (Some (None, form_body sample_fields)) =
  Some (inr (Body (field_value (values_of (js "username") sample_fields))
                  (field_value (values_of (js "name") sample_fields))
                  (field_value (values_of (js "password") sample_fields)))) /\
  field_value (values_of (js "password") sample_fields) = VArr [js "ab+c"; js "d&e"].
Proof.
  assert (H1 : Forall (fun kv => text_ok kv.1 /\ text_ok kv.2 /\ has_brackets kv.1 = false) sample_fields)
    by (apply (bool_decide_unpack _); vm_compute; reflexivity).
  assert (H2 : (length sample_fields <= 1000)%nat) by (simpl; lia).
  assert (H3 : Z.of_nat (length (form_body sample_fields)) <= body_limit)
    by (apply Z.leb_le; vm_compute; reflexivity).
  exact (conj H1 (conj H2 (conj H3 (conj (urlencoded_form_fields _ H1 H2 H3) eq_refl)))).
Defined.



End Form.
