(* ===== verification/Store.v ===== *)
(** * The user store (src/src/index.js, lines 16-55)

    The registry is the object [db], loaded once from [db/database.json]
    (lines 19-26: a missing or unparsable file gives [{}]) and rewritten in
    full by [writeDB] (lines 30-34) with [writeFileSync].  [getUser] (lines
    35-40) returns [db[username]] when it is truthy and [false] otherwise;
    [saveUser] (lines 41-49) refuses a username whose [db] entry is truthy,
    and otherwise assigns the entry and writes the file before returning;
    [authUser] (lines 50-55), which no handler calls, compares the stored
    [password] field with its argument.

    The state is a [store]: the own properties of [db] (a [gmap] from keys
    to user records) and the bytes of the file: [writeDB] writes the UTF-8
    encoding of [JSON.stringify(db)] ([Json], [Utf8]), and the start-up
    code decodes and parses them back.  [load_dump] shows that a file
    written by [writeDB] loads as the object it was written from, on
    strings of 16-bit code units (what every JavaScript string is).
    [writeFileSync] is taken to succeed: a failed write, which would leave
    [db] (already assigned at line 46) ahead of the file, is not
    modelled. *)

From stdpp Require Import base gmap list.
From Stdlib Require Import ZArith.
From S2P Require Import Prelude JsObject Utf8 Json.
Import JsObject Utf8 Json.

Module Store.

(** The object literal built at line 126:
    [{username, name, password, date}]; [username] and [name] are copied
    from the form and may be [undefined] or arrays of strings. *)
Record User := MkUser { username : jsval; name : jsval; password : jsstr; date : jsstr }.

#[export] Instance User_eq_dec : EqDecision User.
Proof. solve_decision. Defined.

(** The content of [db/database.json]: absent or unreadable, or bytes. *)
Inductive disk :=
  | DiskMissing
  | DiskBytes (bs : list Z).

Record store := Store { db : gmap jsstr User; file : disk }.

(** [JSON.stringify] of a record: a property whose value is [undefined] is
    left out; the others keep the order of the object literal. *)
Definition opt_member (k : jsstr) (v : jsval) : list (jsstr * value) :=
  match v with
  | VUndef => []
  | VStr s => [(k, JStr s)]
  | VArr l => [(k, JArr (JStr <$> l))]
  end.

Definition user_to_json (u : User) : value :=
  JObj (opt_member (js "username") (username u) ++ opt_member (js "name") (name u) ++
        [(js "password", JStr (password u)); (js "date", JStr (date u))]).

(** [JSON.stringify(db)]: one member per own property.  V8 lists them in
    insertion order (integer-like keys first); the members here follow the
    order of [map_to_list], which [JSON.parse] into [db] does not see. *)
Definition db_to_json (m : gmap jsstr User) : value :=
  JObj ((fun '(k, u) => (k, user_to_json u)) <$> map_to_list m).

(** A property of an object parsed by [JSON.parse]: a later duplicate key
    overrides an earlier one. *)
Fixpoint member_lookup (k : jsstr) (ms : list (jsstr * value)) : option value :=
  match ms with
  | [] => None
  | (k', v) :: r =>
      match member_lookup k r with
      | Some w => Some w
      | None => if decide (k = k') then Some v else None
      end
  end.

(** A string element. *)
Definition str_of (v : value) : option jsstr :=
  match v with JStr s => Some s | _ => None end.

(** A property of the shape the program writes: absent, a string, or an
    array of strings. *)
Definition field (k : jsstr) (ms : list (jsstr * value)) : option jsval :=
  match member_lookup k ms with
  | None => Some VUndef
  | Some (JStr s) => Some (VStr s)
  | Some (JArr vs) => VArr <$> mapM str_of vs
  | Some (JObj _) => None
  end.

(** A parsed record, when it has the shape of the records the program
    writes. *)
Definition user_of_json (v : value) : option User :=
  match v with
  | JObj ms =>
      un ← field (js "username") ms; nm ← field (js "name") ms;
      pw ← field (js "password") ms; dt ← field (js "date") ms;
      match pw, dt with
      | VStr p, VStr d => Some (MkUser un nm p d)
      | _, _ => None
      end
  | _ => None
  end.

(** The object [JSON.parse] builds: a later duplicate key wins. *)
Definition db_of_json (v : value) : option (gmap jsstr User) :=
  match v with
  | JObj ms =>
      us ← mapM (fun kv => (fun u => (kv.1, u)) <$> user_of_json kv.2) ms;
      Some (list_to_map (reverse us))
  | _ => None
  end.

(** Lines 31-33: [writeFileSync(dbFilePath, JSON.stringify(db))] writes
    the string as UTF-8. *)
Definition dump (m : gmap jsstr User) : list Z := utf8_encode (stringify (db_to_json m)).

(** Lines 19-26: [JSON.parse(fs.readFileSync(dbFilePath))]; a missing
    file, or bytes that do not parse, give [{}].  A text that parses to a
    value of another shape (never one the program writes) also gives [{}]
    here. *)
Definition load (d : disk) : gmap jsstr User :=
  match d with
  | DiskMissing => ∅
  | DiskBytes bs => default ∅ (json_parse (utf8_decode bs) ≫= db_of_json)
  end.

Definition boot (d : disk) : store := Store (load d) d.

(** Lines 30-34: the whole object replaces the file. *)
Definition writeDB (s : store) : store := Store (db s) (DiskBytes (dump (db s))).

(** What [getUser] returns: the stored record, a property inherited from
    [Object.prototype], or [false]. *)
Inductive user_ref := URecord (u : User) | UInherited (k : jsstr) | UFalse.

(** Lines 35-40. *)
Definition getUser (s : store) (username : jsval) : user_ref :=
  match get (db s) (to_key username) with
  | Own u => URecord u
  | Inherited k => UInherited k
  | Absent => UFalse
  end.

(** Lines 41-49. *)
Definition saveUser (userObj : User) (s : store) : bool * store :=
  let k := to_key (username userObj) in
  if slot_truthy (get (db s) k) then (false, s)
  else (true, writeDB (Store (set (db s) k userObj) (file s))).

(** Lines 50-55: [db[username].password === password]; reading a property
    of [undefined] throws. *)
Definition authUser (username password : jsval) (s : store) : exn + bool :=
  match get (db s) (to_key username) with
  | Own u => inr (strict_eqb (VStr (Store.password u)) password)
  | Inherited _ => inr (strict_eqb VUndef password)
  | Absent => inl TypeError
  end.

(** Property reads on the value [getUser] returns: a record's fields; an
    inherited method or [false] has no [password] or [date]. *)
Definition ref_password (r : user_ref) : jsval :=
  match r with URecord u => VStr (password u) | _ => VUndef end.
Definition ref_date (r : user_ref) : jsval :=
  match r with URecord u => VStr (date u) | _ => VUndef end.
Definition ref_name (r : user_ref) : jsval :=
  match r with
  | URecord u => name u
  | UInherited k => inherited_name k
  | UFalse => VUndef
  end.

(** The store of the spec (section 4.2): [create] fails without change when
    [get] finds the username, and inserts otherwise. *)
Definition spec_create (u : User) (m : gmap jsstr User) : bool * gmap jsstr User :=
  let k := to_key (username u) in
  match m !! k with
  | Some _ => (false, m)
  | None => (true, <[k := u]> m)
  end.

(** The invariants of the store. *)
Definition disk_consistent (s : store) : Prop := load (file s) = db s.
Definition keys_match (m : gmap jsstr User) : Prop :=
  forall k u, m !! k = Some u -> k = to_key (username u).

(** The file holds the serialization of the object. *)
Definition written (s : store) : Prop := file s = DiskBytes (dump (db s)).

(** Every key and string field is a string of 16-bit code units, as every
    JavaScript string is. *)
Definition opt_units (v : jsval) : bool :=
  match v with VUndef => true | VStr s => units_ok s | VArr l => forallb units_ok l end.
Definition user_units (u : User) : bool :=
  opt_units (username u) && opt_units (name u) && units_ok (password u) && units_ok (date u).
Definition db_units (m : gmap jsstr User) : Prop :=
  map_Forall (fun k u => units_ok k = true /\ user_units u = true) m.
#[export] Instance db_units_dec m : Decision (db_units m).
Proof. unfold db_units. apply _. Defined.

(** ** Lemmas *)

Lemma saveUser_taken u s :
  slot_truthy (get (db s) (to_key (username u))) = true -> saveUser u s = (false, s).
Proof. unfold saveUser. by intros ->. Qed.

Lemma saveUser_free u s :
  slot_truthy (get (db s) (to_key (username u))) = false ->
  saveUser u s = (true, let m := <[to_key (username u) := u]> (db s) in Store m (DiskBytes (dump m))).
Proof. unfold saveUser. by intros ->. Qed.

Lemma saveUser_cases u s :
  (slot_truthy (get (db s) (to_key (username u))) = true /\ saveUser u s = (false, s)) \/
  (slot_truthy (get (db s) (to_key (username u))) = false /\ db s !! to_key (username u) = None /\
   saveUser u s = (true, let m := <[to_key (username u) := u]> (db s) in Store m (DiskBytes (dump m)))).
Proof.
  destruct (slot_truthy _) eqn:E; [left; auto using saveUser_taken|right].
  split; [done|]. split; [|by apply saveUser_free].
  destruct (db s !! _) eqn:F; [|done]. unfold get in E. by rewrite F in E.
Qed.

Lemma keys_match_insert m u :
  keys_match m -> keys_match (<[to_key (username u) := u]> m).
Proof.
  intros H k v. rewrite lookup_insert. case_decide; [naive_solver|apply H].
Qed.

Lemma saveUser_subseteq u s : db s ⊆ db (saveUser u s).2.
Proof.
  destruct (saveUser_cases u s) as [[_ ->]|(_ & Hn & ->)]; simpl; [done|].
  by apply insert_subseteq.
Qed.

(** ** Lemmas: the file round trip *)

Lemma mapM_str_of l : mapM str_of (JStr <$> l) = Some l.
Proof. apply mapM_Some. induction l; simpl; by constructor. Qed.

Lemma user_of_to u : user_of_json (user_to_json u) = Some u.
Proof.
  destruct u as [[|un|un] [|nm|nm] pw dt]; unfold user_of_json, user_to_json, field; simpl;
    rewrite ?mapM_str_of; reflexivity.
Qed.

Lemma mapM_users (l : list (jsstr * User)) :
  mapM (fun kv : jsstr * value => (fun u => (kv.1, u)) <$> user_of_json kv.2)
       ((fun '((k, u) : jsstr * User) => (k, user_to_json u)) <$> l) = Some l.
Proof. induction l as [|[k u] l IH]; [done|]. cbn -[user_of_json user_to_json]. by rewrite user_of_to, IH. Qed.

Lemma db_of_to m : db_of_json (db_to_json m) = Some m.
Proof.
  unfold db_of_json, db_to_json. rewrite mapM_users. simpl. f_equal.
  rewrite (list_to_map_proper (reverse (map_to_list m)) (map_to_list m)).
  - apply list_to_map_to_list.
  - rewrite reverse_Permutation. apply NoDup_fst_map_to_list.
  - apply reverse_Permutation.
Qed.

Lemma units_ok_js (s : String.string) : units_ok (js s) = true.
Proof. apply bool_decide_eq_true, js_code_units. Qed.

Lemma value_units_strs l : forallb value_units (JStr <$> l) = forallb units_ok l.
Proof. induction l as [|s l IH]; [done|]. cbn [fmap list_fmap forallb value_units]. by rewrite IH. Qed.

Lemma value_units_user u : user_units u = true -> value_units (user_to_json u) = true.
Proof.
  destruct u as [[|un|un] [|nm|nm] pw dt]; unfold user_units; simpl;
    rewrite ?units_ok_js, ?value_units_strs; rewrite ?andb_true_iff; tauto.
Qed.

Lemma value_units_db m : db_units m -> value_units (db_to_json m) = true.
Proof.
  intros Hm. simpl. apply forallb_forall. intros [k v] Hkv.
  apply list_elem_of_In, list_elem_of_fmap in Hkv as ([k' u] & [= -> ->] & Hin).
  apply elem_of_map_to_list, Hm in Hin as [Hk Hu]. simpl. rewrite Hk. by apply value_units_user.
Qed.

(** A file written by [writeDB] loads back as the object it was written
    from. *)
Lemma load_dump m : db_units m -> load (DiskBytes (dump m)) = m.
Proof.
  intros Hm. unfold load, dump. rewrite json_utf8_roundtrip by (by apply value_units_db).
  cbn -[db_of_json db_to_json]. by rewrite db_of_to.
Qed.

Lemma written_consistent s : written s -> db_units (db s) -> disk_consistent s.
Proof. unfold written, disk_consistent. intros -> Hm. by apply load_dump. Qed.

Lemma units_ok_join l : forallb units_ok l = true -> units_ok (join_with 44 l) = true.
Proof.
  unfold units_ok. intros H. apply bool_decide_eq_true, Forall_join_with.
  - unfold is_code_unit, in_width. simpl. lia.
  - apply Forall_forall. intros s Hs. rewrite forallb_forall in H.
    apply (bool_decide_eq_true_1 _), H, list_elem_of_In, Hs.
Qed.

Lemma units_to_key u : user_units u = true -> units_ok (to_key (username u)) = true.
Proof.
  unfold user_units, to_key. intros H. repeat (apply andb_prop in H as [H ?]).
  destruct (username u); simpl in *; auto using units_ok_js, units_ok_join.
Qed.

Lemma db_units_insert m u :
  db_units m -> user_units u = true -> db_units (<[to_key (username u) := u]> m).
Proof. intros Hm Hu. apply map_Forall_insert_2; [|done]. split; [by apply units_to_key|done]. Qed.

(** ** Lemmas: what [load] builds *)

Lemma member_lookup_elem k ms v : member_lookup k ms = Some v -> (k, v) ∈ ms.
Proof.
  induction ms as [|[k' w] r IH]; simpl; [done|].
  destruct (member_lookup k r); [intros [= <-]; apply list_elem_of_further; by apply IH|].
  case_decide; [intros [= <-]; subst; apply list_elem_of_here|discriminate].
Qed.

Lemma mapM_str_of_units vs l :
  forallb value_units vs = true -> mapM str_of vs = Some l -> forallb units_ok l = true.
Proof.
  intros Hvs Hl. apply mapM_Some in Hl. induction Hl as [|v s vs l Hv _ IH]; [done|].
  simpl in Hvs. apply andb_prop in Hvs as [H1 H2]. destruct v; simplify_eq/=. rewrite H1. by apply IH.
Qed.

Lemma field_units k ms v :
  forallb (fun kv => units_ok kv.1 && value_units kv.2) ms = true -> field k ms = Some v ->
  opt_units v = true.
Proof.
  unfold field. intros Hms Hf.
  destruct (member_lookup k ms) as [w|] eqn:E; [|by injection Hf as <-].
  apply member_lookup_elem, list_elem_of_In in E. rewrite forallb_forall in Hms.
  apply Hms, andb_prop in E as [_ Hw]. simpl in Hw.
  destruct w as [s|vs|]; simplify_eq/=; try done.
  destruct (mapM str_of vs) as [l|] eqn:El; simplify_eq/=. by eapply mapM_str_of_units.
Qed.

Lemma user_of_json_units v u : value_units v = true -> user_of_json v = Some u -> user_units u = true.
Proof.
  destruct v as [| |ms]; [done|done|]. simpl. intros Hms.
  destruct (field (js "username") ms) as [un|] eqn:E1, (field (js "name") ms) as [nm|] eqn:E2,
    (field (js "password") ms) as [[|p|]|] eqn:E3, (field (js "date") ms) as [[|d|]|] eqn:E4;
    simpl; intros Hu; simplify_eq.
  apply (field_units _ _ _ Hms) in E1, E2, E3, E4. unfold user_units. simpl in *.
  by rewrite E1, E2, E3, E4.
Qed.

Lemma mapM_users_units ms us :
  forallb (fun kv => units_ok kv.1 && value_units kv.2) ms = true ->
  mapM (fun kv : jsstr * value => (fun u => (kv.1, u)) <$> user_of_json kv.2) ms = Some us ->
  Forall (fun ku => units_ok ku.1 = true /\ user_units ku.2 = true) us.
Proof.
  revert us. induction ms as [|[k v] r IH]; intros us Hms; simpl; [by intros [= <-]|].
  simpl in Hms. apply andb_prop in Hms as [Hkv Hr]. apply andb_prop in Hkv as [Hk Hv].
  destruct (user_of_json v) as [u|] eqn:Eu; [|done]. simpl.
  destruct (mapM _ r) as [us'|] eqn:Er; [|done]. simpl. intros [= <-].
  constructor; [split; [done|by eapply user_of_json_units]|by apply IH].
Qed.

Lemma db_of_json_units v m : value_units v = true -> db_of_json v = Some m -> db_units m.
Proof.
  destruct v as [| |ms]; [done|done|]. simpl. intros Hms.
  destruct (mapM _ ms) as [us|] eqn:E; [|done]. simpl. intros [= <-].
  pose proof (mapM_users_units ms us Hms E) as Hus.
  intros k u Hk. apply elem_of_list_to_map_2 in Hk. rewrite elem_of_reverse in Hk.
  rewrite Forall_forall in Hus. exact (Hus _ Hk).
Qed.

#[export] Hint Resolve keys_match_insert saveUser_subseteq db_units_insert : proj4.

(** ** Properties *)

(** C26: [saveUser] of a username whose entry is truthy, own or inherited,
    returns [false] and changes nothing, the file included. *)
Theorem saveUser_no_overwrite u s b s' :
  saveUser u s = (b, s') ->
  slot_truthy (get (db s) (to_key (username u))) = true -> b = false /\ s' = s.
Proof. intros H T. rewrite saveUser_taken in H by done. by injection H. Qed.

(** C25: Every successful [saveUser] stores the record under its username and,
    before returning, leaves on disk a file that loads back as the new
    object (write-through), when the strings involved are JavaScript
    strings. *)
Theorem saveUser_write_through u s s' :
  saveUser u s = (true, s') -> db_units (db s) -> user_units u = true ->
  db s' = <[to_key (username u) := u]> (db s) /\ db s !! to_key (username u) = None /\
  disk_consistent s' /\ db_units (db s') /\ getUser s' (username u) = URecord u.
Proof.
  destruct (saveUser_cases u s) as [[_ ->]|(_ & Hn & ->)]; [done|]. intros [= <-] Hm Hu.
  assert (Hm' := db_units_insert _ _ Hm Hu). unfold disk_consistent. cbn [file db].
  rewrite load_dump by done. do 4 (split; [done|]). unfold getUser. simpl.
  fold (set (db s) (to_key (username u)) u). by rewrite get_set_eq.
Qed.

(** C24: Refinement: for a username outside [Object.prototype]'s properties,
    [saveUser] implements [create] of the spec on the object and keeps the
    file in step with it. *)
Theorem saveUser_refines u s :
  is_proto_key (to_key (username u)) = false -> db_units (db s) -> user_units u = true ->
  let r := saveUser u s in
  r.1 = (spec_create u (db s)).1 /\ db r.2 = (spec_create u (db s)).2 /\
  (r.1 = true -> disk_consistent r.2) /\ (r.1 = false -> r.2 = s).
Proof.
  intros Hp Hm Hu. unfold spec_create.
  destruct (saveUser_cases u s) as [[T ->]|(_ & Hn & ->)].
  - apply slot_truthy_get in T as [[v Hv]|T]; [|congruence]. rewrite Hv. naive_solver.
  - rewrite Hn. unfold disk_consistent. cbn zeta. cbn [fst snd file db].
    rewrite load_dump by (by apply db_units_insert). naive_solver.
Qed.

(** C27: [saveUser] never removes or changes a stored record, and keeps every
    key equal to its record's username. *)
Theorem saveUser_preserves u s b s' :
  saveUser u s = (b, s') -> keys_match (db s) ->
  db s ⊆ db s' /\ keys_match (db s').
Proof.
  intros H K. pose proof (saveUser_subseteq u s) as Hs. rewrite H in Hs. split; [done|].
  destruct (saveUser_cases u s) as [[_ E]|(_ & Hn & E)]; rewrite E in H;
    injection H as <- <-; simpl; [done|by apply keys_match_insert].
Qed.

(** C15: The spec's reload scenario (section 7): a store whose file holds the
    serialization of its object starts up again as the same store. *)
Theorem boot_written s : written s -> db_units (db s) -> boot (file s) = s.
Proof. intros Hw Hm. unfold boot. rewrite (written_consistent s Hw Hm). by destruct s. Qed.

(** ** Concrete runs *)

Definition s_empty : store := boot DiskMissing.
Definition u_alice : User :=
  MkUser (VStr (js "alice1")) (VStr (js "Alice A")) (repeat 97 64) (js "1731000000123").
Definition s_alice : store := (saveUser u_alice s_empty).2.

Lemma saveUser_no_overwrite_witness :
  saveUser u_alice s_alice = (false, s_alice) /\
  slot_truthy (get (db s_alice) (to_key (username u_alice))) = true /\
  false = false /\ s_alice = s_alice.
Proof.
  assert (H1 : saveUser u_alice s_alice = (false, s_alice)) by (vm_compute; reflexivity).
  assert (H2 : slot_truthy (get (db s_alice) (to_key (username u_alice))) = true)
    by (vm_compute; reflexivity).
  exact (conj H1 (conj H2 (saveUser_no_overwrite u_alice s_alice false s_alice H1 H2))).
Defined.

Lemma saveUser_write_through_witness :
  saveUser u_alice s_empty = (true, s_alice) /\ db_units (db s_empty) /\ user_units u_alice = true /\
  db s_alice = <[to_key (username u_alice) := u_alice]> (db s_empty) /\
  db s_empty !! to_key (username u_alice) = None /\
  disk_consistent s_alice /\ db_units (db s_alice) /\ getUser s_alice (username u_alice) = URecord u_alice.
Proof.
  assert (H1 : saveUser u_alice s_empty = (true, s_alice)) by (vm_compute; reflexivity).
  assert (H2 : db_units (db s_empty)) by (apply (bool_decide_eq_true_1 (db_units (db s_empty))); vm_compute; reflexivity).
  assert (H3 : user_units u_alice = true) by (vm_compute; reflexivity).
  exact (conj H1 (conj H2 (conj H3 (saveUser_write_through u_alice s_empty s_alice H1 H2 H3)))).
Defined.

Lemma saveUser_refines_witness :
  is_proto_key (to_key (username u_alice)) = false /\ db_units (db s_alice) /\
  user_units u_alice = true /\
  let r := saveUser u_alice s_alice in
  r.1 = (spec_create u_alice (db s_alice)).1 /\ db r.2 = (spec_create u_alice (db s_alice)).2 /\
  (r.1 = true -> disk_consistent r.2) /\ (r.1 = false -> r.2 = s_alice).
Proof.
  assert (H1 : is_proto_key (to_key (username u_alice)) = false) by (vm_compute; reflexivity).
  assert (H2 : db_units (db s_alice)) by (apply (bool_decide_eq_true_1 (db_units (db s_alice))); vm_compute; reflexivity).
  assert (H3 : user_units u_alice = true) by (vm_compute; reflexivity).
  exact (conj H1 (conj H2 (conj H3 (saveUser_refines u_alice s_alice H1 H2 H3)))).
Defined.

Lemma saveUser_preserves_witness :
  saveUser u_alice s_empty = (true, s_alice) /\ keys_match (db s_empty) /\
  db s_empty ⊆ db s_alice /\ keys_match (db s_alice).
Proof.
  assert (H1 : saveUser u_alice s_empty = (true, s_alice)) by (vm_compute; reflexivity).
  assert (H2 : keys_match (db s_empty)) by (intros k u Hk; vm_compute in Hk; discriminate).
  exact (conj H1 (conj H2 (saveUser_preserves u_alice s_empty true s_alice H1 H2))).
Defined.

(** The text of [db/database.json] after the first registration, as
    [JSON.stringify] writes it ([q] is the quotation mark). *)
Definition q : jsstr := [34].
Definition file_alice : jsstr :=
  js "{" ++ q ++ js "alice1" ++ q ++ js ":{" ++ q ++ js "username" ++ q ++ js ":" ++ q ++
  js "alice1" ++ q ++ js "," ++ q ++ js "name" ++ q ++ js ":" ++ q ++ js "Alice A" ++ q ++
  js "," ++ q ++ js "password" ++ q ++ js ":" ++ q ++ repeat 97 64 ++ q ++ js "," ++ q ++
  js "date" ++ q ++ js ":" ++ q ++ js "1731000000123" ++ q ++ js "}}".

(** A file cut short (a crash in the middle of a write by another program,
    say) does not parse, and the server starts with [{}]. *)
Example load_truncated_file : load (DiskBytes (take 40 file_alice)) = ∅.
Proof. vm_compute. reflexivity. Qed.

Lemma boot_written_witness :
  written s_alice /\ db_units (db s_alice) /\ boot (file s_alice) = s_alice.
Proof.
  assert (H1 : written s_alice) by (vm_compute; reflexivity).
  assert (H2 : db_units (db s_alice))
    by (apply (bool_decide_eq_true_1 (db_units (db s_alice))); vm_compute; reflexivity).
  exact (conj H1 (conj H2 (boot_written s_alice H1 H2))).
Defined.

End Store.
