(* ===== verification/Express.v ===== *)
(** * The Express response object, as a state-and-exception monad

    A handler of src/src/index.js runs to completion on one request: it
    reads and writes the store, sets [req.session.name], and answers through
    [res].  [res.status(c)] sets the status code; [res.send(body)] and
    [res.redirect(url)] send the response, and either one throws
    [ERR_HTTP_HEADERS_SENT] once a response has been sent (both set a
    header first).  [res.redirect(url)] always answers 302.  An exception
    that leaves a handler is caught by Express's router and passed to its
    default error handler (finalhandler), which answers 500 when nothing
    was sent yet.  When a response was already sent, finalhandler calls
    [req.socket.destroy()] at once; but express-session (line 59) has
    replaced [res.end] and holds the end of that response back until
    MemoryStore's save or touch callback, which MemoryStore defers with
    [setImmediate], and Node corks the socket until the next tick: the
    socket is destroyed before the response leaves, and the client gets
    no answer.  The store and the session keep the effects of the handler
    (MemoryStore stores the session synchronously in [res.end]).

    [M A] threads the state of one request, [St], and returns a value or an
    exception; [run] is Express's dispatch with its error handler, and its
    [st_sent] is the answer the client receives, [None] for none. *)

From stdpp Require Import base gmap list.
From Stdlib Require Import ZArith.
From S2P Require Import Prelude JsObject Store.
Import JsObject Store.

Module Express.

(** A response as the client receives it. *)
Inductive response :=
  | Send (status : Z) (body : jsstr)
  | Redirect (status : Z) (url : jsstr)
  | InternalError.

(** The session of the requesting client: the only property the program
    reads or writes is [name]. *)
Record session := Session { sess_name : jsval }.

Definition empty_session : session := Session VUndef.

(** The state of one request: the store, the client's session,
    [res.statusCode], and the response sent so far. *)
Record St := MkSt {
  st_store : store;
  st_sess : session;
  st_status : Z;
  st_sent : option response
}.

Definition start (s : store) (sess : session) : St := MkSt s sess 200 None.

Definition M (A : Type) : Type := St -> (exn + A) * St.

#[export] Instance M_ret : MRet M := fun A a st => (inr a, st).
#[export] Instance M_bind : MBind M := fun A B f m st =>
  match m st with
  | (inl e, st') => (inl e, st')
  | (inr a, st') => f a st'
  end.

Definition throw {A} (e : exn) : M A := fun st => (inl e, st).

(** A computation of [exn + A] that does not touch the state. *)
Definition lift {A} (r : exn + A) : M A := fun st => (r, st).

Definition modify (f : St -> St) : M unit := fun st => (inr tt, f st).
Definition gets {A} (f : St -> A) : M A := fun st => (inr (f st), st).

Definition set_store (s : store) (st : St) : St :=
  MkSt s (st_sess st) (st_status st) (st_sent st).
Definition set_sess (sess : session) (st : St) : St :=
  MkSt (st_store st) sess (st_status st) (st_sent st).
Definition set_status (c : Z) (st : St) : St :=
  MkSt (st_store st) (st_sess st) c (st_sent st).
Definition set_sent (r : response) (st : St) : St :=
  MkSt (st_store st) (st_sess st) (st_status st) (Some r).

(** [res.status(code)]. *)
Definition status (code : Z) : M unit := modify (set_status code).

(** [res.send(body)]. *)
Definition send (body : jsstr) : M unit := fun st =>
  match st_sent st with
  | Some _ => (inl HeadersSent, st)
  | None => (inr tt, set_sent (Send (st_status st) body) st)
  end.

(** [res.redirect(url)]. *)
Definition redirect (url : jsstr) : M unit := fun st =>
  match st_sent st with
  | Some _ => (inl HeadersSent, st)
  | None => (inr tt, set_sent (Redirect 302 url) (set_status 302 st))
  end.

(** The store operations of [Store], inside a handler. *)
Definition getUserM (username : jsval) : M user_ref :=
  gets (fun st => getUser (st_store st) username).

Definition saveUserM (u : User) : M bool := fun st =>
  let '(b, s') := saveUser u (st_store st) in (inr b, set_store s' st).

(** [db[k]] read directly by a handler, as a truthiness test. *)
Definition db_truthy (k : jsstr) : M bool :=
  gets (fun st => slot_truthy (get (db (st_store st)) k)).

(** [req.session.name = v]. *)
Definition set_session_name (v : jsval) : M unit := modify (set_sess (Session v)).

(** [req.socket.destroy()]: the response written so far never reaches
    the client. *)
Definition drop_response (st : St) : St :=
  MkSt (st_store st) (st_sess st) (st_status st) None.

(** Express's dispatch of one handler with finalhandler, under
    express-session: a handler that returns has its answer delivered; one
    that throws before answering gets the 500; one that throws after
    answering loses its connection. *)
Definition run (h : M unit) (st : St) : St :=
  match h st with
  | (inr _, st') => st'
  | (inl _, st') =>
      match st_sent st' with
      | None => set_sent InternalError st'
      | Some _ => drop_response st'
      end
  end.

(** ** Lemmas: the monad laws and the effects, for rewriting *)

Lemma bind_ret_l {A B} (a : A) (f : A -> M B) st : (mbind f (mret a)) st = f a st.
Proof. done. Qed.

Lemma bind_assoc {A B C} (m : M A) (f : A -> M B) (g : B -> M C) st :
  mbind g (mbind f m) st = mbind (fun a => mbind g (f a)) m st.
Proof. unfold mbind, M_bind. by destruct (m st) as [[e|a] st']. Qed.

Lemma bind_step {A B} (m : M A) (f : A -> M B) st a st' :
  m st = (inr a, st') -> mbind f m st = f a st'.
Proof. unfold mbind, M_bind. by intros ->. Qed.

Lemma bind_throw {A B} (m : M A) (f : A -> M B) st e st' :
  m st = (inl e, st') -> mbind f m st = (inl e, st').
Proof. unfold mbind, M_bind. by intros ->. Qed.

Lemma redirect_fresh url st :
  st_sent st = None -> redirect url st = (inr tt, set_sent (Redirect 302 url) (set_status 302 st)).
Proof. unfold redirect. by intros ->. Qed.

Lemma redirect_sent url st r :
  st_sent st = Some r -> redirect url st = (inl HeadersSent, st).
Proof. unfold redirect. by intros ->. Qed.

Lemma send_fresh body st :
  st_sent st = None -> send body st = (inr tt, set_sent (Send (st_status st) body) st).
Proof. unfold send. by intros ->. Qed.

Lemma send_sent body st r :
  st_sent st = Some r -> send body st = (inl HeadersSent, st).
Proof. unfold send. by intros ->. Qed.

Lemma run_ok h st st' : h st = (inr tt, st') -> run h st = st'.
Proof. unfold run. by intros ->. Qed.

Lemma run_throw_sent h st e st' r :
  h st = (inl e, st') -> st_sent st' = Some r -> run h st = drop_response st'.
Proof. unfold run. by intros -> ->. Qed.

Lemma run_throw_unsent h st e st' :
  h st = (inl e, st') -> st_sent st' = None -> run h st = set_sent InternalError st'.
Proof. unfold run. by intros -> ->. Qed.

End Express.
