(* ===== verification/Server.v ===== *)
(** * The route handlers and the running server (src/src/index.js, lines 69-177)

    Each handler is translated statement by statement into the monad
    [Express.M]: an error redirect does not end the handler (the source has
    no [return] after it), so the statements after it still run, a second
    [res.redirect] throws [ERR_HTTP_HEADERS_SENT], and [sha256] on
    [undefined] throws a [TypeError].  [serve] dispatches one request, run
    under one session id, through Express's error handler ([Session] chooses
    the id from the request's cookie); [reachable] is the set of server
    states the program reaches from its start-up, on which the invariants
    are proved by induction.  A request carries the [req.body] that
    [Form.urlencoded] builds: each field [undefined], a string, or the
    array of a repeated key. *)

From stdpp Require Import base gmap list.
From Stdlib Require Import ZArith.
From S2P Require Import Prelude JsObject NumberString Utf8 Hasher Json Validator Uri Store Express.
Import JsObject NumberString Hasher Json Validator Uri Store Express.

Module Server.

(** The proofs below case on the result of [sha256]; they never unfold it. *)
#[local] Arguments sha256 : simpl never.

(** The HTML page of [GET /index.html] (lines 166-175): a template whose
    lines start with tabs, around the greeting. *)
Definition line (tabs : nat) (s : jsstr) : jsstr := [10] ++ repeat 9 tabs ++ s.
Definition attr_quote (s : jsstr) : jsstr := [34] ++ s ++ [34].

Definition page_prefix : jsstr :=
  line 1 (js "<!DOCTYPE html>") ++ line 1 (js "<title>Project 3</title>") ++
  line 1 (js "<h1>Project 3</h1>") ++ line 1 (js "<section>") ++ line 2 (js "<p>") ++
  line 2 [].

Definition page_suffix : jsstr :=
  line 2 (js "Go <a href=" ++ attr_quote (js "static/login.html") ++ js ">here to login</a> or <a href=" ++
          attr_quote (js "static/registration.html") ++ js ">here to register</a>.") ++
  line 2 (js "</p>") ++ line 1 (js "</section>").

Definition index_page (hello : jsstr) : jsstr := page_prefix ++ hello ++ page_suffix.

(** [res.status(302).redirect(page + '#' + encodeURIComponent(msg))]. *)
Definition redirect_error (page msg : jsstr) : M unit :=
  status 302;; url ← lift (error_url page msg); redirect url.

Section Handlers.
Context `{HMAC}.

(** Lines 69-71. *)
Definition get_root : M unit := send (js "Hello World!").

(** Lines 74-85. *)
Definition get_user (username : jsstr) : M unit :=
  t ← db_truthy username;
  if (t : bool) then (status 200;; send (js "Username exists."))
  else (status 404;; send (js "Error, username does not exist.")).

(** The record built at line 126, with the digest of line 127. *)
Definition new_user (b : body) (hash date : jsstr) : User :=
  MkUser (b_username b) (b_name b) hash date.

(** Lines 99-133, at time [now] ([Date.now()]). *)
Definition post_users (b : body) (now : Z) : M unit :=
  (if length_invalid b then redirect_error (js "registration.html") msg_invalid_length
   else mret tt);;
  (if chars_invalid b then redirect_error (js "registration.html") msg_invalid_chars
   else mret tt);;
  let date := date_now_string now in
  hash ← lift (sha256 (b_password b) (VStr date));
  _ ← saveUserM (new_user b hash date);
  status 302;; redirect (js "login.html").

Definition is_false (r : user_ref) : bool :=
  match r with UFalse => true | _ => false end.

(** Lines 135-159.  [user !== null] holds of every value [getUser]
    returns, so the test of line 147 is its second conjunct. *)
Definition post_auth (b : body) : M unit :=
  r ← getUserM (b_username b);
  (if is_false r then redirect_error (js "login.html") msg_no_user else mret tt);;
  user ← getUserM (b_username b);
  hash ← lift (sha256 (b_password b) (ref_date user));
  if strict_eqb (ref_password user) (VStr hash) then
    (set_session_name (ref_name user);; status 302;; redirect (js "index.html"))
  else redirect_error (js "login.html") msg_no_match.

(** Lines 161-177: [req.session.name] is tested for truthiness. *)
Definition get_index : M unit :=
  sess ← gets st_sess;
  let hello := if truthy_val (sess_name sess)
               then js "Hi " ++ to_js_string (sess_name sess) ++ js "!" else [] in
  send (index_page hello).

(** The routes the application registers, in the order Express tries
    them; other paths go to the static files, which are not modelled. *)
Inductive request :=
  | GetRoot
  | GetUser (username : jsstr)
  | PostUsers (b : body)
  | PostAuth (b : body)
  | GetIndex.

Definition handler (req : request) (now : Z) : M unit :=
  match req with
  | GetRoot => get_root
  | GetUser u => get_user u
  | PostUsers b => post_users b now
  | PostAuth b => post_auth b
  | GetIndex => get_index
  end.

(** The server: the store, shared by all clients, and express-session's
    MemoryStore, the sessions by their id. *)
Record server := Server { srv_store : store; srv_sessions : gmap jsstr session }.

Definition boot_server (d : disk) : server := Server (boot d) ∅.

Definition session_of (sv : server) (sid : jsstr) : session :=
  default empty_session (srv_sessions sv !! sid).

(** One request run under the session [sid] at time [now]: the new server
    state and the response the client receives; the session is saved under
    its id afterwards. *)
Definition serve (sv : server) (sid : jsstr) (req : request) (now : Z) : server * option response :=
  let st := run (handler req now) (start (srv_store sv) (session_of sv sid)) in
  (Server (st_store st) (<[sid := st_sess st]> (srv_sessions sv)), st_sent st).

(** The string fields of a request body that can be stored are strings
    of code units, as every JavaScript string is. *)
Definition body_units (b : body) : bool := opt_units (b_username b) && opt_units (b_name b).

(** The states the server reaches: start-up from a file whose content
    loads as records of the program's shape, then any sequence of requests
    of any clients at any times. *)
Definition digests (m : gmap jsstr User) : Prop :=
  forall k u, m !! k = Some u -> length (password u) = 64%nat /\ Forall is_lower_hex (password u).

Definition req_ok (B : body -> Prop) (req : request) : Prop :=
  match req with
  | PostUsers b => B b
  | _ => True
  end.

Inductive reachable : server -> Prop :=
  | reach_boot d :
      keys_match (load d) -> digests (load d) -> db_units (load d) -> reachable (boot_server d)
  | reach_serve sv client req now :
      reachable sv -> req_ok (fun b => body_units b = true) req -> reachable (serve sv client req now).1.

(** The invariant of the store. *)
Definition store_inv (s : store) : Prop :=
  disk_consistent s /\ keys_match (db s) /\ digests (db s) /\ db_units (db s).

Definition user_digest (u : User) : Prop :=
  length (password u) = 64%nat /\ Forall is_lower_hex (password u).

(** ** Every handler changes the store only through [saveUser]

    A relation [R] between stores that is a preorder and holds across every
    [saveUser] of a record [POST /users] builds (a digest, a salt, and the
    fields of a body satisfying [B]) holds across every handler. *)
Section Preserve.
Context (R : store -> store -> Prop) (B : body -> Prop).
Hypothesis R_refl : forall s, R s s.
Hypothesis R_trans : forall a b c, R a b -> R b c -> R a c.
Hypothesis R_save : forall b h now s,
  B b -> user_digest (new_user b h (date_now_string now)) ->
  R s (saveUser (new_user b h (date_now_string now)) s).2.

Definition respects {A} (m : M A) : Prop := forall st, R (st_store st) (st_store (m st).2).

Lemma respects_bind {A B'} (m : M A) (f : A -> M B') :
  respects m -> (forall a, respects (f a)) -> respects (mbind f m).
Proof.
  intros Hm Hf st. unfold mbind, M_bind. specialize (Hm st).
  destruct (m st) as [[e|a] st'] eqn:E; simpl in *; [done|].
  eapply R_trans; [exact Hm|apply Hf].
Qed.

Lemma respects_lift_bind {A B'} (r : exn + A) (f : A -> M B') :
  (forall a, r = inr a -> respects (f a)) -> respects (mbind f (lift r)).
Proof. intros Hf st. unfold mbind, M_bind, lift. destruct r as [e|a]; simpl; [apply R_refl|by apply Hf]. Qed.

Lemma respects_if (c : bool) {A} (m1 m2 : M A) :
  respects m1 -> respects m2 -> respects (if c then m1 else m2).
Proof. by destruct c. Qed.

Lemma respects_pure {A} (m : M A) : (forall st, st_store (m st).2 = st_store st) -> respects m.
Proof. intros Hp st. rewrite Hp. apply R_refl. Qed.

Lemma respects_saveUserM b h now :
  B b -> user_digest (new_user b h (date_now_string now)) ->
  respects (saveUserM (new_user b h (date_now_string now))).
Proof.
  intros Hb Hu st. pose proof (R_save b h now (st_store st) Hb Hu) as Hs. unfold saveUserM.
  destruct (saveUser _ _) eqn:E. exact Hs.
Qed.

Ltac pure_step := apply respects_pure; intros st;
  unfold send, redirect, status, modify, gets, lift, mret, M_ret, set_sent, set_status, set_sess,
    set_session_name;
  simpl; repeat case_match; done.

Lemma respects_redirect_error page msg : respects (redirect_error page msg).
Proof.
  apply respects_bind; [pure_step|intros _]. apply respects_lift_bind. intros a _. pure_step.
Qed.

Ltac solve_respects :=
  repeat first
    [ apply respects_redirect_error
    | apply respects_lift_bind; intros ?h ?Hh
    | apply respects_saveUserM; [assumption|];
      match goal with H : sha256 _ _ = inr _ |- _ => by apply sha256_inr_shape in H end
    | apply respects_bind; [|intros ?]
    | apply respects_if
    | pure_step ].

Lemma handler_respects req now : req_ok B req -> respects (handler req now).
Proof.
  destruct req; simpl; intros Hb;
    unfold handler, get_root, get_user, post_users, post_auth, get_index; cbv zeta;
    solve_respects.
Qed.

(** Express's error handler does not touch the store either. *)
Lemma run_respects req now st :
  req_ok B req -> R (st_store st) (st_store (run (handler req now) st)).
Proof.
  intros Hq. pose proof (handler_respects req now Hq st) as Hr. unfold run.
  destruct (handler req now st) as [[e|a] st'] eqn:E; simpl in *; [|done].
  by destruct (st_sent st').
Qed.

Lemma serve_respects sv client req now :
  req_ok B req -> R (srv_store sv) (srv_store (serve sv client req now).1).
Proof. intros Hq. exact (run_respects req now (start (srv_store sv) (session_of sv client)) Hq). Qed.

End Preserve.

Lemma digests_insert m k u : digests m -> user_digest u -> digests (<[k := u]> m).
Proof. intros Hm Hu k' v. rewrite lookup_insert. case_decide; [naive_solver|apply Hm]. Qed.

Lemma new_user_units b h now :
  body_units b = true -> user_digest (new_user b h (date_now_string now)) ->
  user_units (new_user b h (date_now_string now)) = true.
Proof.
  unfold body_units, user_units, user_digest, units_ok. simpl. intros Hb [_ Hh].
  apply andb_prop in Hb as [Hu Hn]. rewrite ?Hu, ?Hn. simpl.
  rewrite !bool_decide_eq_true_2; [done|apply number_to_string_units|].
  eapply Forall_impl; [exact Hh|]. unfold is_lower_hex, is_code_unit, in_width. simpl. lia.
Qed.

Lemma store_inv_save b h now s :
  body_units b = true -> user_digest (new_user b h (date_now_string now)) -> store_inv s ->
  store_inv (saveUser (new_user b h (date_now_string now)) s).2.
Proof.
  intros Hb Hu (Hd & Hk & Hh & Hm). pose proof (new_user_units b h now Hb Hu) as Hnu.
  destruct (saveUser_cases (new_user b h (date_now_string now)) s) as [[_ ->]|(_ & Hn & ->)];
    [done|]. unfold store_inv, disk_consistent. cbn zeta. cbn [snd file db].
  rewrite load_dump by auto with proj4.
  split; [done|]. split; [by apply keys_match_insert|]. split; [by apply digests_insert|].
  by apply db_units_insert.
Qed.

(** ** Invariants of the running server *)

Lemma reachable_inv sv : reachable sv -> store_inv (srv_store sv).
Proof.
  induction 1 as [d Hk Hh Hm|sv client req now _ IH Hq].
  - done.
  - apply (serve_respects (fun s s' => store_inv s -> store_inv s') (fun b => body_units b = true));
      auto using store_inv_save.
Qed.

(** C6: In every reachable state the file holds exactly the object [db], every
    key is the username of its record, and every stored [password] is a
    64-character lowercase hex digest, so it never equals a password that
    could pass the length check. *)
Theorem reachable_store_inv sv :
  reachable sv ->
  store_inv (srv_store sv) /\
  forall k u p, db (srv_store sv) !! k = Some u -> Validator.len p < 50 -> password u <> p.
Proof.
  intros Hr. pose proof (reachable_inv sv Hr) as Hi. split; [done|].
  intros k u p Hk Hp <-. destruct Hi as (_ & _ & Hd & _). destruct (Hd k u Hk) as [Hl _].
  unfold Validator.len in Hp. rewrite Hl in Hp. lia.
Qed.

(** C7: A request never removes or changes a stored record. *)
Theorem serve_monotone sv client req now :
  db (srv_store sv) ⊆ db (srv_store (serve sv client req now).1).
Proof.
  apply (serve_respects (fun s s' => db s ⊆ db s') (fun _ => True));
    [done|intros a b c; apply transitivity|auto using saveUser_subseteq|by destruct req].
Qed.

(** ** The handlers, branch by branch *)

Ltac exec := unfold run, mbind, M_bind, mret, M_ret, lift, status, modify, redirect, send,
  saveUserM, gets, getUserM, db_truthy, set_session_name, set_sent, set_status, set_sess,
  set_store; simpl.

(** Case on the results of the calls a handler makes, then compute. *)
Ltac split_calls :=
  repeat (match goal with
          | G : getUser ?s ?v = _ |- context [getUser ?s ?v] => rewrite G
          | |- context [getUser ?s ?v] => destruct (getUser s v) eqn:?
          | |- context [saveUser ?u ?s] => destruct (saveUser u s)
          | |- context [sha256 ?a ?c] => destruct (sha256 a c)
          | |- context [strict_eqb ?a ?c] => destruct (strict_eqb a c)
          | |- context [bool_decide ?P] => destruct (bool_decide P)
          end; simpl).

(** The redirect targets, evaluated. *)
Definition url_invalid_length : jsstr :=
  js "registration.html#Error%2C%20parameter%20was%20of%20an%20invalid%20length.".
Definition url_invalid_chars : jsstr :=
  js "registration.html#Error%2C%20parameter%20contained%20invalid%20characters.".
Definition url_no_user : jsstr := js "login.html#Error%2C%20username%20does%20not%20exist.".
Definition url_no_match : jsstr := js "login.html#Error%2C%20password%20did%20not%20match.".

Lemma error_url_values :
  error_url (js "registration.html") msg_invalid_length = inr url_invalid_length /\
  error_url (js "registration.html") msg_invalid_chars = inr url_invalid_chars /\
  error_url (js "login.html") msg_no_user = inr url_no_user /\
  error_url (js "login.html") msg_no_match = inr url_no_match.
Proof. vm_compute. repeat split. Qed.

(** What the client of [POST /users] receives.  A failing check redirects
    (line 117 or 122) and the handler goes on: both checks failing throw
    [ERR_HTTP_HEADERS_SENT] at line 122, a missing password throws in
    [sha256] (line 127), and otherwise line 132 redirects a second time
    and throws; the connection is destroyed and no answer arrives.  Only
    a request that passes both checks gets its redirect to the login
    page. *)
Definition post_users_response (b : body) : option response :=
  if length_invalid b || chars_invalid b then None
  else Some (Redirect 302 (js "login.html")).

(** What [POST /users] leaves in the store: the statements after a failed
    check still run, so the record is saved unless both checks failed (the
    second redirect throws) or [sha256] threw. *)
Definition post_users_store (b : body) (now : Z) (s : store) : store :=
  if length_invalid b && chars_invalid b then s
  else match sha256 (b_password b) (VStr (date_now_string now)) with
       | inl _ => s
       | inr h => (saveUser (new_user b h (date_now_string now)) s).2
       end.

Lemma post_users_run b now s sess code :
  let st' := run (post_users b now) (MkSt s sess code None) in
  st_sent st' = post_users_response b /\ st_sess st' = sess /\
  st_store st' = post_users_store b now s.
Proof.
  destruct error_url_values as (E1 & E2 & _ & _).
  unfold post_users, post_users_response, post_users_store, redirect_error.
  destruct (b_password b) as [|p|l] eqn:Hp;
    [rewrite length_invalid_undefined by auto; destruct (chars_invalid b); rewrite ?E1, ?E2; exec;
     done|..].
  all: destruct (length_invalid b), (chars_invalid b); rewrite ?E1, ?E2; exec; split_calls; done.
Qed.

(** What [POST /auth] answers and the session it leaves, from what
    [getUser] finds.  An unknown username is redirected at line 141, then
    [sha256(password, false.date)] throws at line 147 on the [undefined]
    salt: the connection is destroyed and no answer arrives. *)
Definition post_auth_outcome (b : body) (s : store) (sess : session) : option response * session :=
  match getUser s (b_username b) with
  | UFalse => (None, sess)
  | user =>
      match sha256 (b_password b) (ref_date user) with
      | inl _ => (Some InternalError, sess)
      | inr h =>
          if strict_eqb (ref_password user) (VStr h)
          then (Some (Redirect 302 (js "index.html")), Session (ref_name user))
          else (Some (Redirect 302 url_no_match), sess)
      end
  end.

Lemma post_auth_run b s sess code :
  let st' := run (post_auth b) (MkSt s sess code None) in
  st_store st' = s /\ (st_sent st', st_sess st') = post_auth_outcome b s sess.
Proof.
  destruct error_url_values as (_ & _ & E3 & E4).
  unfold post_auth, post_auth_outcome, redirect_error. rewrite E3, E4.
  exec. split_calls; done.
Qed.

(** The greeting of [GET /index.html]. *)
Definition greeting (v : jsval) : jsstr :=
  if truthy_val v then js "Hi " ++ to_js_string v ++ js "!" else [].

Lemma get_index_run s sess code :
  run get_index (MkSt s sess code None) =
  MkSt s sess code (Some (Send code (index_page (greeting (sess_name sess))))).
Proof. done. Qed.

Lemma get_user_run k s sess code :
  let st' := run (get_user k) (MkSt s sess code None) in
  st_store st' = s /\ st_sess st' = sess /\
  st_sent st' = Some (if slot_truthy (get (db s) k)
                      then Send 200 (js "Username exists.")
                      else Send 404 (js "Error, username does not exist.")).
Proof. unfold get_user. exec. by destruct (slot_truthy _). Qed.

(** [serve] in terms of one run of the handler. *)
Lemma serve_unfold sv client req now :
  serve sv client req now =
  let st' := run (handler req now) (MkSt (srv_store sv) (session_of sv client) 200 None) in
  (Server (st_store st') (<[client := st_sess st']> (srv_sessions sv)), st_sent st').
Proof. done. Qed.

Lemma session_of_insert sv client sess sessions :
  session_of (Server sv (<[client := sess]> sessions)) client = sess.
Proof. unfold session_of. simpl. by rewrite lookup_insert_eq. Qed.

(** [POST /users] as one step of the server: the answer, the store and
    the session. *)
Lemma serve_post_users sv client b now :
  let '(sv', resp) := serve sv client (PostUsers b) now in
  resp = post_users_response b /\
  srv_store sv' = post_users_store b now (srv_store sv) /\
  session_of sv' client = session_of sv client.
Proof.
  rewrite serve_unfold. simpl.
  destruct (post_users_run b now (srv_store sv) (session_of sv client) 200) as (-> & Hs & ->).
  rewrite Hs. split; [done|]. split; [done|]. apply session_of_insert.
Qed.

(** The branch of [POST /users] that reaches [saveUser] with a free
    username. *)
Lemma post_users_saved sv client b now :
  length_invalid b && chars_invalid b = false -> b_password b <> VUndef ->
  slot_truthy (get (db (srv_store sv)) (to_key (b_username b))) = false ->
  let '(sv', resp) := serve sv client (PostUsers b) now in
  resp = post_users_response b /\
  exists h, sha256 (b_password b) (VStr (date_now_string now)) = inr h /\
    db (srv_store sv') = <[to_key (b_username b) := new_user b h (date_now_string now)]> (db (srv_store sv)) /\
    written (srv_store sv').
Proof.
  intros Hand Hp Hfree. pose proof (serve_post_users sv client b now) as Hs.
  destruct (serve _ _ _ _) as [sv' resp]. destruct Hs as (-> & -> & _).
  split; [done|]. unfold post_users_store. rewrite Hand.
  destruct (sha256_defined _ (date_now_string now) Hp) as [h ->].
  eexists; split; [done|]. by rewrite saveUser_free.
Qed.

(** [POST /auth] as one step of the server. *)
Lemma serve_post_auth sv client b now :
  let '(sv', resp) := serve sv client (PostAuth b) now in
  srv_store sv' = srv_store sv /\
  (resp, session_of sv' client) = post_auth_outcome b (srv_store sv) (session_of sv client).
Proof.
  rewrite serve_unfold. simpl.
  destruct (post_auth_run b (srv_store sv) (session_of sv client) 200) as (-> & Hs).
  split; [done|]. rewrite session_of_insert. done.
Qed.

Lemma getUser_own s v u : db s !! to_key v = Some u -> getUser s v = URecord u.
Proof. intros Hk. unfold getUser. by rewrite (get_own _ _ _ Hk). Qed.

(** [POST /auth] for a username that has a record: the digest of the
    submitted password under the record's salt decides. *)
Lemma post_auth_record sv client b now u :
  db (srv_store sv) !! to_key (b_username b) = Some u ->
  let '(sv', resp) := serve sv client (PostAuth b) now in
  match sha256 (b_password b) (VStr (date u)) with
  | inl _ => resp = Some InternalError /\ session_of sv' client = session_of sv client
  | inr h =>
      if bool_decide (password u = h)
      then resp = Some (Redirect 302 (js "index.html")) /\ session_of sv' client = Session (name u)
      else resp = Some (Redirect 302 url_no_match) /\ session_of sv' client = session_of sv client
  end.
Proof.
  intros Hk. pose proof (serve_post_auth sv client b now) as Hs.
  destruct (serve _ _ _ _) as [sv' resp]. destruct Hs as (_ & Ho).
  unfold post_auth_outcome in Ho. rewrite (getUser_own _ _ _ Hk) in Ho.
  cbn [ref_date ref_password] in Ho. destruct (sha256 _ _) as [e|h]; [by injection Ho as -> ->|].
  unfold strict_eqb in Ho. destruct (bool_decide (password u = h)); by injection Ho as -> ->.
Qed.

Lemma serve_get_index sv client now :
  (serve sv client GetIndex now).2 =
  Some (Send 200 (index_page (greeting (sess_name (session_of sv client))))).
Proof. rewrite serve_unfold. cbv zeta. cbn [snd handler]. by rewrite get_index_run. Qed.

(** ** Properties of the handlers *)


(** C2: A valid registration of a free username stores the new record, with the
    digest of the password under the decimal time as salt, writes the file,
    and sends the client to the login page. *)
Theorem register_new_user sv client b now :
  valid_registration b ->
  slot_truthy (get (db (srv_store sv)) (to_key (b_username b))) = false ->
  let '(sv', resp) := serve sv client (PostUsers b) now in
  resp = Some (Redirect 302 (js "login.html")) /\
  exists h, sha256 (b_password b) (VStr (date_now_string now)) = inr h /\
    db (srv_store sv') =
      <[to_key (b_username b) := new_user b h (date_now_string now)]> (db (srv_store sv)) /\
    written (srv_store sv').
Proof.
  intros Hv Hfree. apply valid_registration_checks in Hv as Hc. destruct Hc as [L C].
  destruct Hv as [_ (p & Hp & _)].
  pose proof (post_users_saved sv client b now) as Hs. rewrite L, C in Hs.
  specialize (Hs eq_refl ltac:(by rewrite Hp) Hfree). destruct (serve _ _ _ _) as [sv' resp].
  unfold post_users_response in Hs. rewrite L, C in *. done.
Qed.

(** C8: A duplicate registration changes nothing, yet the client receives the
    very answer of a successful one: [saveUser]'s [false] is ignored. *)
Theorem register_duplicate_silent sv client b now :
  valid_registration b ->
  slot_truthy (get (db (srv_store sv)) (to_key (b_username b))) = true ->
  let '(sv', resp) := serve sv client (PostUsers b) now in
  resp = Some (Redirect 302 (js "login.html")) /\ srv_store sv' = srv_store sv.
Proof.
  intros Hv Htaken. pose proof (serve_post_users sv client b now) as Hs.
  destruct (serve _ _ _ _) as [sv' resp]. destruct Hs as (-> & -> & _).
  apply valid_registration_checks in Hv as Hc. destruct Hc as [L C].
  destruct Hv as [_ (p & Hp & _)].
  unfold post_users_response, post_users_store. rewrite L, C, Hp. split; [done|].
  rewrite sha256_str; cbn [andb]. by rewrite saveUser_taken.
Qed.


(** C4: Logging in with the password a user registered with: the client is
    sent to the index page and its session holds the user's name. *)
Theorem login_correct sv client b now u p :
  db (srv_store sv) !! to_key (b_username b) = Some u ->
  b_password b = VStr p -> sha256 (VStr p) (VStr (date u)) = inr (password u) ->
  let '(sv', resp) := serve sv client (PostAuth b) now in
  resp = Some (Redirect 302 (js "index.html")) /\ session_of sv' client = Session (name u).
Proof.
  intros Hk Hp Hh. pose proof (post_auth_record sv client b now u Hk) as Hr.
  destruct (serve _ _ _ _). rewrite Hp, Hh, bool_decide_true in Hr by done. done.
Qed.

(** C18: A wrong password is refused with the mismatch page; the session is
    untouched. *)
Theorem login_wrong_password sv client b now u p :
  db (srv_store sv) !! to_key (b_username b) = Some u ->
  b_password b = VStr p -> sha256 (VStr p) (VStr (date u)) <> inr (password u) ->
  let '(sv', resp) := serve sv client (PostAuth b) now in
  resp = Some (Redirect 302 url_no_match) /\ session_of sv' client = session_of sv client.
Proof.
  intros Hk Hp Hh. pose proof (post_auth_record sv client b now u Hk) as Hr.
  destruct (serve _ _ _ _). rewrite Hp in Hr.
  destruct (sha256 (VStr p) (VStr (date u))) as [e|h] eqn:E; [discriminate E|].
  rewrite bool_decide_false in Hr by congruence. done.
Qed.


(** C20: A username that names a property of [Object.prototype] (such as
    "constructor" or "toString") and no user makes the handler read [date]
    of a function and throw: the client gets a 500 error instead of the
    "does not exist" page. *)
Theorem login_proto_key_error sv client b now :
  db (srv_store sv) !! to_key (b_username b) = None ->
  is_proto_key (to_key (b_username b)) = true ->
  (serve sv client (PostAuth b) now).2 = Some InternalError.
Proof.
  intros Hk Hp. pose proof (serve_post_auth sv client b now) as Hs.
  destruct (serve _ _ _ _) as [sv' resp]. destruct Hs as (_ & Ho).
  unfold post_auth_outcome, getUser in Ho. rewrite (get_inherited _ _ Hk Hp) in Ho.
  simpl in Ho. by destruct (b_password b); injection Ho as ->.
Qed.

(** C21: [GET /users/:username] reports that a username exists exactly when it
    has a record or names a property of [Object.prototype]. *)
Theorem get_user_exists sv client k now :
  (serve sv client (GetUser k) now).2 = Some (Send 200 (js "Username exists.")) <->
  is_Some (db (srv_store sv) !! k) \/ is_proto_key k = true.
Proof.
  rewrite serve_unfold. simpl.
  destruct (get_user_run k (srv_store sv) (session_of sv client) 200) as (_ & _ & ->).
  rewrite <- slot_truthy_get. destruct (slot_truthy _); split; intros; done.
Qed.

(** C5: Round trip of the two forms: after a valid registration of a free
    username, logging in (from any client, at any time) with the same
    username and password succeeds and puts the registered name in the
    session. *)
Theorem register_then_login sv c1 c2 b now now' other :
  valid_registration b ->
  slot_truthy (get (db (srv_store sv)) (to_key (b_username b))) = false ->
  let sv1 := (serve sv c1 (PostUsers b) now).1 in
  let '(sv2, resp) := serve sv1 c2 (PostAuth (Body (b_username b) other (b_password b))) now' in
  resp = Some (Redirect 302 (js "index.html")) /\ session_of sv2 c2 = Session (b_name b).
Proof.
  intros Hv Hfree. apply valid_registration_checks in Hv as Hc. destruct Hc as [L C].
  destruct Hv as [_ (p & Hp & _)].
  pose proof (post_users_saved sv c1 b now) as Hs. rewrite L, C in Hs.
  specialize (Hs eq_refl ltac:(by rewrite Hp) Hfree). destruct (serve sv c1 _ now) as [sv1 resp1].
  destruct Hs as (_ & h & Hh & Hdb & _). cbn [fst].
  pose proof (post_auth_record sv1 c2 (Body (b_username b) other (b_password b)) now'
               (new_user b h (date_now_string now))) as Hr.
  rewrite Hdb, lookup_insert_eq in Hr. specialize (Hr eq_refl).
  destruct (serve sv1 c2 _ now'). cbn [b_password new_user date password name] in Hr.
  rewrite Hh, bool_decide_true in Hr by done. done.
Qed.

(** C23: [GET /index.html] greets the name in the session, inserted into the
    page as it is. *)
Theorem index_shows_name sv client now n :
  sess_name (session_of sv client) = VStr n -> n <> [] ->
  (serve sv client GetIndex now).2 = Some (Send 200 (index_page (js "Hi " ++ n ++ js "!"))).
Proof. intros Hs Hn. rewrite serve_get_index, Hs. by destruct n. Qed.

(** C22: A name with characters the check rejects (markup included) is stored
    when the lengths are valid, and after logging in it is written into the
    index page verbatim: the character check does not protect the page. *)
Theorem markup_name_reaches_page sv c b now now' now'' n p :
  length_invalid b = false -> chars_invalid b = true ->
  b_name b = VStr n -> b_password b = VStr p ->
  slot_truthy (get (db (srv_store sv)) (to_key (b_username b))) = false ->
  let sv1 := (serve sv c (PostUsers b) now).1 in
  let sv2 := (serve sv1 c (PostAuth (Body (b_username b) VUndef (VStr p))) now').1 in
  (serve sv2 c GetIndex now'').2 = Some (Send 200 (index_page (js "Hi " ++ n ++ js "!"))).
Proof.
  intros L C Hn Hp Hfree. pose proof (post_users_saved sv c b now) as Hs.
  rewrite L, C in Hs. specialize (Hs eq_refl ltac:(by rewrite Hp) Hfree).
  destruct (serve sv c _ now) as [sv1 resp1]. destruct Hs as (_ & h & Hh & Hdb & _). cbn [fst].
  pose proof (post_auth_record sv1 c (Body (b_username b) VUndef (VStr p)) now'
               (new_user b h (date_now_string now))) as Hr.
  rewrite Hdb, lookup_insert_eq in Hr. specialize (Hr eq_refl).
  destruct (serve sv1 c _ now') as [sv2 resp2]. cbn [b_password new_user date password name] in Hr.
  rewrite Hp in Hh. rewrite Hh, bool_decide_true in Hr by done. destruct Hr as (_ & Hs). cbn [fst].
  rewrite serve_get_index, Hs. cbn [sess_name]. rewrite Hn.
  apply length_invalid_false in L as (u' & n' & p' & _ & Hn' & _ & _ & Ln & _).
  rewrite Hn in Hn'. cbn [js_length] in Hn'. injection Hn' as <-. destruct n; [|done]. unfold Validator.len in Ln. simpl in Ln. lia.
Qed.




(** C10: A password sent as four empty fields
    ([password=&password=&password=&password=]) passes the length check,
    which counts the fields, and is never tested for characters; the record
    holds the digest of its [toString], the three commas ",,,".  The user
    then logs in with the password ",,,", three characters where the spec
    requires four or more. *)
Theorem short_password_via_array sv c1 c2 u n now now' :
  names_ok (Body (VStr u) (VStr n) VUndef) ->
  slot_truthy (get (db (srv_store sv)) u) = false ->
  let b := Body (VStr u) (VStr n) (VArr [[]; []; []; []]) in
  let '(sv1, resp1) := serve sv c1 (PostUsers b) now in
  resp1 = Some (Redirect 302 (js "login.html")) /\
  let '(sv2, resp2) := serve sv1 c2 (PostAuth (Body (VStr u) VUndef (VStr (js ",,,")))) now' in
  resp2 = Some (Redirect 302 (js "index.html")) /\ session_of sv2 c2 = Session (VStr n).
Proof.
  intros Hn Hfree b.
  destruct (checks_pass b Hn) as [L C]; [by exists 4|].
  pose proof (post_users_saved sv c1 b now) as Hs. cbn [b_password b_username b] in Hs.
  rewrite L, C in Hs. specialize (Hs eq_refl ltac:(discriminate) Hfree).
  destruct (serve sv c1 _ now) as [sv1 resp1]. destruct Hs as (Hr1 & h & Hh & Hdb & _).
  split; [unfold post_users_response in Hr1; by rewrite L, C in Hr1|].
  pose proof (post_auth_record sv1 c2 (Body (VStr u) VUndef (VStr (js ",,,"))) now'
               (new_user b h (date_now_string now))) as Hr.
  rewrite Hdb, lookup_insert_eq in Hr. specialize (Hr eq_refl).
  assert (E : sha256 (VStr (js ",,,")) (VStr (date_now_string now)) = inr h) by (rewrite <- Hh; reflexivity).
  destruct (serve sv1 c2 _ now'). cbn [b_password new_user date password name] in Hr.
  by rewrite E, bool_decide_true in Hr.
Qed.

End Handlers.

(** ** Concrete runs

    The scenario of the spec (section 8), with the HMAC instance of
    [Sha256]: "alice1" registers at time 1731000000123 from client 1. *)
Definition alice : body := Body (VStr (js "alice1")) (VStr (js "Alice A")) (VStr (js "secret1")).
Definition t_reg : Z := 1731000000123.
Definition sv_empty : server := boot_server DiskMissing.
Definition sv_alice : server := (serve sv_empty (js "sid1") (PostUsers alice) t_reg).1.
Definition alice_rec : User :=
  new_user alice (hex_encode (hmac_sha256 (Utf8.utf8_encode (date_now_string t_reg))
                                          (Utf8.utf8_encode (js "secret1"))))
           (date_now_string t_reg).
Definition login_as (name pw : String.string) : body := Body (VStr (js name)) VUndef (VStr (js pw)).

Lemma alice_valid : valid_registration alice.
Proof.
  assert (Hc : length_invalid alice = false /\ chars_invalid alice = false)
    by (vm_compute; split; reflexivity).
  destruct (checks_cases alice Hc) as [Hv|(_ & ps & Hp & _)]; [done|discriminate].
Qed.

Lemma register_new_user_witness :
  valid_registration alice /\
  slot_truthy (get (db (srv_store sv_empty)) (to_key (b_username alice))) = false /\
  let '(sv', resp) := serve sv_empty (js "sid1") (PostUsers alice) t_reg in
  resp = Some (Redirect 302 (js "login.html")) /\
  exists h, sha256 (b_password alice) (VStr (date_now_string t_reg)) = inr h /\
    db (srv_store sv') =
      <[to_key (b_username alice) := new_user alice h (date_now_string t_reg)]> (db (srv_store sv_empty)) /\
    written (srv_store sv').
Proof.
  assert (H2 : slot_truthy (get (db (srv_store sv_empty)) (to_key (b_username alice))) = false)
    by (vm_compute; reflexivity).
  exact (conj alice_valid (conj H2 (register_new_user sv_empty (js "sid1") alice t_reg alice_valid H2))).
Defined.

Lemma register_duplicate_silent_witness :
  valid_registration alice /\
  slot_truthy (get (db (srv_store sv_alice)) (to_key (b_username alice))) = true /\
  let '(sv', resp) := serve sv_alice (js "sid2") (PostUsers alice) (t_reg + 1) in
  resp = Some (Redirect 302 (js "login.html")) /\ srv_store sv' = srv_store sv_alice.
Proof.
  assert (H2 : slot_truthy (get (db (srv_store sv_alice)) (to_key (b_username alice))) = true)
    by (vm_compute; reflexivity).
  exact (conj alice_valid (conj H2 (register_duplicate_silent sv_alice (js "sid2") alice (t_reg + 1) alice_valid H2))).
Defined.



Lemma login_correct_witness :
  db (srv_store sv_alice) !! to_key (b_username (login_as "alice1" "secret1")) = Some alice_rec /\
  sha256 (VStr (js "secret1")) (VStr (date alice_rec)) = inr (password alice_rec) /\
  let '(sv', resp) := serve sv_alice (js "sid1") (PostAuth (login_as "alice1" "secret1")) 0 in
  resp = Some (Redirect 302 (js "index.html")) /\ session_of sv' (js "sid1") = Session (name alice_rec).
Proof.
  assert (H1 : db (srv_store sv_alice) !! to_key (b_username (login_as "alice1" "secret1")) = Some alice_rec)
    by (vm_compute; reflexivity).
  assert (H3 : sha256 (VStr (js "secret1")) (VStr (date alice_rec)) = inr (password alice_rec))
    by (vm_compute; reflexivity).
  exact (conj H1 (conj H3 (login_correct sv_alice (js "sid1") _ 0 alice_rec (js "secret1") H1 eq_refl H3))).
Defined.

Lemma login_wrong_password_witness :
  db (srv_store sv_alice) !! to_key (b_username (login_as "alice1" "wrong")) = Some alice_rec /\
  sha256 (VStr (js "wrong")) (VStr (date alice_rec)) <> inr (password alice_rec) /\
  let '(sv', resp) := serve sv_alice (js "sid1") (PostAuth (login_as "alice1" "wrong")) 0 in
  resp = Some (Redirect 302 url_no_match) /\ session_of sv' (js "sid1") = session_of sv_alice (js "sid1").
Proof.
  assert (H1 : db (srv_store sv_alice) !! to_key (b_username (login_as "alice1" "wrong")) = Some alice_rec)
    by (vm_compute; reflexivity).
  assert (H3 : sha256 (VStr (js "wrong")) (VStr (date alice_rec)) <> inr (password alice_rec))
    by (vm_compute; discriminate).
  exact (conj H1 (conj H3 (login_wrong_password sv_alice (js "sid1") _ 0 alice_rec (js "wrong") H1 eq_refl H3))).
Defined.


Lemma login_proto_key_error_witness :
  db (srv_store sv_alice) !! to_key (b_username (login_as "constructor" "x")) = None /\
  is_proto_key (to_key (b_username (login_as "constructor" "x"))) = true /\
  (serve sv_alice (js "sid1") (PostAuth (login_as "constructor" "x")) 0).2 = Some InternalError.
Proof.
  assert (H1 : db (srv_store sv_alice) !! to_key (b_username (login_as "constructor" "x")) = None)
    by (vm_compute; reflexivity).
  assert (H2 : is_proto_key (to_key (b_username (login_as "constructor" "x"))) = true)
    by (vm_compute; reflexivity).
  exact (conj H1 (conj H2 (login_proto_key_error sv_alice (js "sid1") _ 0 H1 H2))).
Defined.

Lemma register_then_login_witness :
  valid_registration alice /\
  slot_truthy (get (db (srv_store sv_empty)) (to_key (b_username alice))) = false /\
  let sv1 := (serve sv_empty (js "sid1") (PostUsers alice) t_reg).1 in
  let '(sv2, resp) := serve sv1 (js "sid2") (PostAuth (Body (b_username alice) VUndef (b_password alice))) t_reg in
  resp = Some (Redirect 302 (js "index.html")) /\ session_of sv2 (js "sid2") = Session (b_name alice).
Proof.
  assert (H2 : slot_truthy (get (db (srv_store sv_empty)) (to_key (b_username alice))) = false)
    by (vm_compute; reflexivity).
  exact (conj alice_valid (conj H2 (register_then_login sv_empty (js "sid1") (js "sid2") alice t_reg t_reg VUndef alice_valid H2))).
Defined.

Definition sv_logged_in : server := (serve sv_alice (js "sid1") (PostAuth (login_as "alice1" "secret1")) 0).1.

Lemma index_shows_name_witness :
  sess_name (session_of sv_logged_in (js "sid1")) = VStr (js "Alice A") /\ js "Alice A" <> [] /\
  (serve sv_logged_in (js "sid1") GetIndex 0).2 = Some (Send 200 (index_page (js "Hi " ++ js "Alice A" ++ js "!"))).
Proof.
  assert (H1 : sess_name (session_of sv_logged_in (js "sid1")) = VStr (js "Alice A")) by (vm_compute; reflexivity).
  assert (H2 : js "Alice A" <> []) by discriminate.
  exact (conj H1 (conj H2 (index_shows_name sv_logged_in (js "sid1") 0 (js "Alice A") H1 H2))).
Defined.

(** A name with markup: its lengths are valid, so it is stored although the
    character check fails. *)
Definition mallory : body :=
  Body (VStr (js "mallory")) (VStr (js "<b>Mallory</b>")) (VStr (js "hunter22")).

Lemma markup_name_reaches_page_witness :
  length_invalid mallory = false /\ chars_invalid mallory = true /\
  slot_truthy (get (db (srv_store sv_empty)) (to_key (b_username mallory))) = false /\
  let sv1 := (serve sv_empty (js "sid7") (PostUsers mallory) t_reg).1 in
  let sv2 := (serve sv1 (js "sid7") (PostAuth (Body (b_username mallory) VUndef (VStr (js "hunter22")))) t_reg).1 in
  (serve sv2 (js "sid7") GetIndex t_reg).2 =
    Some (Send 200 (index_page (js "Hi " ++ js "<b>Mallory</b>" ++ js "!"))).
Proof.
  assert (H1 : length_invalid mallory = false) by reflexivity.
  assert (H2 : chars_invalid mallory = true) by reflexivity.
  assert (H5 : slot_truthy (get (db (srv_store sv_empty)) (to_key (b_username mallory))) = false)
    by (vm_compute; reflexivity).
  exact (conj H1 (conj H2 (conj H5 (markup_name_reaches_page sv_empty (js "sid7") mallory t_reg t_reg t_reg
    (js "<b>Mallory</b>") (js "hunter22") H1 H2 eq_refl eq_refl H5)))).
Defined.

Lemma sv_alice_reachable : reachable sv_alice.
Proof.
  apply reach_serve; [apply reach_boot|vm_compute; reflexivity];
    [intros k u Hk; vm_compute in Hk; discriminate..|apply map_Forall_empty].
Qed.

Lemma reachable_store_inv_witness :
  reachable sv_alice /\
  store_inv (srv_store sv_alice) /\
  forall k u p, db (srv_store sv_alice) !! k = Some u -> Validator.len p < 50 -> password u <> p.
Proof. exact (conj sv_alice_reachable (reachable_store_inv sv_alice sv_alice_reachable)). Defined.

Lemma short_password_via_array_witness :
  names_ok (Body (VStr (js "mallory")) (VStr (js "Mallory")) VUndef) /\
  slot_truthy (get (db (srv_store sv_empty)) (js "mallory")) = false /\
  let b := Body (VStr (js "mallory")) (VStr (js "Mallory")) (VArr [[]; []; []; []]) in
  let '(sv1, resp1) := serve sv_empty (js "sid4") (PostUsers b) t_reg in
  resp1 = Some (Redirect 302 (js "login.html")) /\
  let '(sv2, resp2) := serve sv1 (js "sid5")
                         (PostAuth (Body (VStr (js "mallory")) VUndef (VStr (js ",,,")))) 0 in
  resp2 = Some (Redirect 302 (js "index.html")) /\ session_of sv2 (js "sid5") = Session (VStr (js "Mallory")).
Proof.
  assert (H1 : names_ok (Body (VStr (js "mallory")) (VStr (js "Mallory")) VUndef)).
  { eexists _, _. split_and!; try reflexivity; try (vm_compute; lia); by repeat constructor. }
  assert (H2 : slot_truthy (get (db (srv_store sv_empty)) (js "mallory")) = false)
    by (vm_compute; reflexivity).
  exact (conj H1 (conj H2 (short_password_via_array sv_empty (js "sid4") (js "sid5") _ _ t_reg 0 H1 H2))).
Defined.

End Server.
