(* ===== verification/Session.v ===== *)
(** * The session middleware: express-session and its signed cookie

    [app.use(session({secret: 'keyboard cat', resave: false,
    saveUninitialized: true}))] (src/src/index.js, lines 59-63) runs before
    every route.  It reads the [connect.sid] cookie, accepts it only when
    it is ["s:" + sid + "." + mac] with [mac] the HMAC-SHA-256 of [sid]
    under the secret, in base64 without its padding (the [sign] and
    [unsign] of cookie-signature), and takes the session [sid] from the
    store; with no valid cookie, or no session under it, it generates a
    new id (uid-safe: 24 random bytes in base64url) and an empty session.
    After the route, the session is saved under its id, and a new id is
    sent back in a [Set-Cookie] header ([saveUninitialized: true]; with
    [resave: false] and no [maxAge], a known session gets no new cookie).

    The middleware and the libraries it calls are not code of the
    repository; they are defined here from their sources (express-session
    1.17, cookie-signature 1.0, uid-safe 2.1, cookie 0.4).  [serve_http]
    wraps [Server.serve], which runs the route on the session of the id
    chosen here.  Not modelled: cookie.parse of the [Cookie] header (the
    request carries the decoded value of [connect.sid]); the comparison of
    [unsign] goes through the SHA-1 digests of the two strings, modelled as
    the equality of the strings; MemoryStore keeps each session as JSON
    text, and the only field the program sets, [name], is a string, an
    array of strings or absent, which [Json.json_parse_stringify] carries unchanged; requests
    are served one after the other. *)

From stdpp Require Import base gmap list.
From Stdlib Require Import ZArith.
From S2P Require Import Prelude JsObject Utf8 Hasher Uri Validator Store Express Server.
Import JsObject Utf8 Hasher Uri Validator Store Express Server.

Module Session.

(** ** Base64 *)

Definition b64_alphabet : jsstr :=
  js "ABCDEFGHIJKLMNOPQRSTUVWXYZabcdefghijklmnopqrstuvwxyz0123456789+/".

Definition b64_char (n : Z) : Z := nth (Z.to_nat n) b64_alphabet 0.

(** [buf.toString('base64')]: three bytes to four characters, the last
    group padded with [=]. *)
Fixpoint base64 (bs : list Z) : jsstr :=
  match bs with
  | a :: b :: c :: r =>
      [b64_char (Z.shiftr a 2); b64_char (Z.lor (Z.shiftl (Z.land a 3) 4) (Z.shiftr b 4));
       b64_char (Z.lor (Z.shiftl (Z.land b 15) 2) (Z.shiftr c 6)); b64_char (Z.land c 63)]
      ++ base64 r
  | [a; b] =>
      [b64_char (Z.shiftr a 2); b64_char (Z.lor (Z.shiftl (Z.land a 3) 4) (Z.shiftr b 4));
       b64_char (Z.shiftl (Z.land b 15) 2); 61]
  | [a] => [b64_char (Z.shiftr a 2); b64_char (Z.shiftl (Z.land a 3) 4); 61; 61]
  | [] => []
  end.

(** [.replace(/=+$/, '')]: the [=] at the end are removed. *)
Fixpoint drop_pad (s : jsstr) : jsstr :=
  match s with
  | c :: r => if decide (c = 61) then drop_pad r else s
  | [] => []
  end.

Definition strip_padding (s : jsstr) : jsstr := reverse (drop_pad (reverse s)).

(** uid-safe's [toString]: base64 without padding, [+] to [-], [/] to [_]. *)
Definition base64url (bs : list Z) : jsstr :=
  (fun c => if decide (c = 43) then 45 else if decide (c = 47) then 95 else c)
    <$> strip_padding (base64 bs).

(** ** cookie-signature *)

Section Cookies.
Context `{HMAC}.

(** The secret of line 60. *)
Definition secret : jsstr := js "keyboard cat".

(** [sign(val, secret)]. *)
Definition sign (val : jsstr) : jsstr :=
  val ++ [46] ++ strip_padding (base64 (hmac_sha256 (utf8_encode secret) (utf8_encode val))).

(** [s.lastIndexOf(c)], [None] for -1. *)
Fixpoint last_index_of (c : Z) (s : jsstr) : option nat :=
  match s with
  | [] => None
  | d :: r =>
      match last_index_of c r with
      | Some i => Some (S i)
      | None => if decide (d = c) then Some 0%nat else None
      end
  end.

(** [unsign(input, secret)]: the part before the last dot ([slice(0, -1)]
    when there is none), if signing it gives the input back. *)
Definition unsign (input : jsstr) : option jsstr :=
  let str := match last_index_of 46 input with
             | Some i => take i input
             | None => take (length input - 1) input
             end in
  if decide (sign str = input) then Some str else None.

(** [getcookie(req, 'connect.sid', [secret])]: a truthy value starting
    with [s:] is unsigned; anything else gives [undefined]. *)
Definition getcookie (raw : option jsstr) : option jsstr :=
  match raw with
  | Some (c1 :: c2 :: rest) => if decide (c1 = 115 /\ c2 = 58) then unsign rest else None
  | _ => None
  end.

(** [setcookie(res, 'connect.sid', sid, secret, {path: '/', httpOnly:
    true})]: [cookie.serialize] encodes the value with
    [encodeURIComponent]. *)
Definition set_cookie_header (sid : jsstr) : exn + jsstr :=
  res_map (fun v => js "connect.sid=" ++ v ++ js "; Path=/; HttpOnly")
          (encodeURIComponent (js "s:" ++ sign sid)).

(** ** The middleware around a route *)

(** [genid]: uid-safe's 24 random bytes, given by the environment. *)
Definition genid (rnd : list Z) : jsstr := base64url rnd.

(** The session id a request runs under: the cookie's, when it is a
    non-empty id the store knows, else a generated one. *)
Definition session_id (sv : server) (cookie : option jsstr) (rnd : list Z) : jsstr :=
  match getcookie cookie with
  | Some sid =>
      if decide (sid <> []) then
        match srv_sessions sv !! sid with Some _ => sid | None => genid rnd end
      else genid rnd
  | None => genid rnd
  end.

(** One HTTP request: the route runs on the chosen session; a session
    whose id is not the cookie's gets a [Set-Cookie] header. *)
Definition serve_http (sv : server) (cookie : option jsstr) (rnd : list Z) (req : request) (now : Z) :
    server * option response * option (exn + jsstr) :=
  let sid := session_id sv cookie rnd in
  let '(sv', resp) := serve sv sid req now in
  (sv', resp, if decide (getcookie cookie = Some sid) then None else Some (set_cookie_header sid)).

(** ** Lemmas: a signed cookie is read back *)

Lemma last_index_of_none c s : c ∉ s -> last_index_of c s = None.
Proof.
  induction s as [|d s IH]; intros Hc; [done|]. simpl.
  rewrite IH by set_solver. rewrite decide_False by set_solver. done.
Qed.

Lemma last_index_of_app c s1 s2 : c ∉ s2 -> last_index_of c (s1 ++ c :: s2) = Some (length s1).
Proof.
  intros Hc. induction s1 as [|d s1 IH]; simpl.
  - by rewrite last_index_of_none, decide_True.
  - by rewrite IH.
Qed.

Lemma b64_char_not_dot n : b64_char n <> 46.
Proof.
  unfold b64_char. destruct (nth_in_or_default (Z.to_nat n) b64_alphabet 0) as [Hi|Hd];
    [|by rewrite Hd]. intros E. rewrite E in Hi. revert Hi. vm_compute. intuition discriminate.
Qed.

Lemma base64_no_dot bs : Forall (fun c => c <> 46) (base64 bs).
Proof.
  induction bs as [bs IH] using (induction_ltof1 _ (@length _)); unfold ltof in IH.
  pose proof b64_char_not_dot as Hn.
  destruct bs as [|a [|b [|c r]]]; cbn [base64]; repeat constructor; try done.
  apply IH. simpl. lia.
Qed.

Lemma drop_pad_sub x s : x ∈ drop_pad s -> x ∈ s.
Proof. induction s as [|c s IH]; simpl; [done|]. case_decide; set_solver. Qed.

Lemma strip_padding_no_dot s : Forall (fun c => c <> 46) s -> 46 ∉ strip_padding s.
Proof.
  unfold strip_padding. rewrite Forall_forall. intros Hs Hx.
  apply elem_of_reverse, drop_pad_sub, elem_of_reverse, Hs in Hx. done.
Qed.

Lemma unsign_sign sid : unsign (sign sid) = Some sid.
Proof.
  unfold unsign, sign. cbn [app]. rewrite last_index_of_app
    by (apply strip_padding_no_dot, base64_no_dot).
  rewrite take_app_length. by rewrite decide_True.
Qed.

Lemma getcookie_signed sid : getcookie (Some (js "s:" ++ sign sid)) = Some sid.
Proof. apply unsign_sign. Qed.

Lemma serve_sessions sv sid req now :
  exists sess, srv_sessions (serve sv sid req now).1 = <[sid := sess]> (srv_sessions sv).
Proof. eexists. reflexivity. Qed.

Lemma session_id_none sv rnd : session_id sv None rnd = genid rnd.
Proof. done. Qed.

Lemma session_id_known sv sid rnd :
  sid <> [] -> is_Some (srv_sessions sv !! sid) ->
  session_id sv (Some (js "s:" ++ sign sid)) rnd = sid.
Proof.
  intros Hne [x Hx]. unfold session_id. rewrite getcookie_signed, decide_True by done.
  by rewrite Hx.
Qed.

(** ** Properties *)

(** C16: A session id is taken from a cookie exactly when the cookie is
    ["s:"] followed by the server's signature of that id: a cookie a client
    made up, or one signed under another secret, names no session, and
    the cookie [Set-Cookie] sends names its session. *)
Theorem getcookie_spec cookie sid :
  getcookie cookie = Some sid <-> cookie = Some (js "s:" ++ sign sid).
Proof.
  split.
  - unfold getcookie. destruct cookie as [[|c1 [|c2 rest]]|]; try done.
    case_decide as Hc; [destruct Hc as [-> ->]|done].
    unfold unsign. case_decide as Hs; [|done]. intros [= <-]. by rewrite Hs.
  - intros ->. apply unsign_sign.
Qed.

(** C17: A login across two requests: a client without a cookie that logs in
    with the right password is sent to [index.html] with a [Set-Cookie]
    for a new session, and a later [GET /index.html] carrying that cookie
    greets the user's name. *)
Theorem login_cookie_greets sv rnd rnd' b u now now' :
  db (srv_store sv) !! to_key (b_username b) = Some u ->
  sha256 (b_password b) (VStr (date u)) = inr (password u) ->
  truthy_val (name u) = true -> genid rnd <> [] ->
  let '(sv1, resp1, cookie1) := serve_http sv None rnd (PostAuth b) now in
  resp1 = Some (Redirect 302 (js "index.html")) /\
  cookie1 = Some (set_cookie_header (genid rnd)) /\
  (serve_http sv1 (Some (js "s:" ++ sign (genid rnd))) rnd' GetIndex now').1.2 =
    Some (Send 200 (index_page (js "Hi " ++ to_js_string (name u) ++ js "!"))).
Proof.
  intros Hu Hh Hn Hg. unfold serve_http at 1. rewrite session_id_none.
  pose proof (post_auth_record sv (genid rnd) b now u Hu) as Hr.
  destruct (serve_sessions sv (genid rnd) (PostAuth b) now) as [sess Es].
  destruct (serve sv (genid rnd) (PostAuth b) now) as [sv1 resp1]. simpl in Es.
  rewrite Hh, bool_decide_true in Hr by done. destruct Hr as [-> Hs].
  split; [done|]. split; [by rewrite decide_False|].
  unfold serve_http. rewrite session_id_known
    by (done || (rewrite Es, lookup_insert_eq; by eexists)).
  destruct (serve sv1 (genid rnd) GetIndex now') as [sv2 resp2] eqn:E2.
  pose proof (serve_get_index sv1 (genid rnd) now') as Hi. rewrite E2 in Hi. simpl in Hi |- *.
  rewrite Hi, Hs. simpl. unfold greeting. by rewrite Hn.
Qed.

End Cookies.

(** ** Concrete runs *)

(** Twenty-four bytes standing for uid-safe's random ones. *)
Definition rnd0 : list Z := Z.of_nat <$> seq 0 24.

Lemma login_cookie_greets_witness :
  db (srv_store sv_alice) !! to_key (b_username (login_as "alice1" "secret1")) = Some alice_rec /\
  sha256 (b_password (login_as "alice1" "secret1")) (VStr (date alice_rec)) = inr (password alice_rec) /\
  truthy_val (name alice_rec) = true /\ genid rnd0 <> [] /\
  let '(sv1, resp1, cookie1) := serve_http sv_alice None rnd0 (PostAuth (login_as "alice1" "secret1")) 0 in
  resp1 = Some (Redirect 302 (js "index.html")) /\
  cookie1 = Some (set_cookie_header (genid rnd0)) /\
  (serve_http sv1 (Some (js "s:" ++ sign (genid rnd0))) rnd0 GetIndex 0).1.2 =
    Some (Send 200 (index_page (js "Hi " ++ to_js_string (name alice_rec) ++ js "!"))).
Proof.
  assert (H1 : db (srv_store sv_alice) !! to_key (b_username (login_as "alice1" "secret1")) = Some alice_rec)
    by (vm_compute; reflexivity).
  assert (H2 : sha256 (b_password (login_as "alice1" "secret1")) (VStr (date alice_rec)) =
    inr (password alice_rec)) by (vm_compute; reflexivity).
  assert (H3 : truthy_val (name alice_rec) = true) by (vm_compute; reflexivity).
  assert (H5 : genid rnd0 <> []) by (vm_compute; discriminate).
  exact (conj H1 (conj H2 (conj H3 (conj H5
    (login_cookie_greets sv_alice rnd0 rnd0 _ _ 0 0 H1 H2 H3 H5))))).
Defined.

End Session.
